(** * my-react: a shallow embedding of the reconciler snapshots

    The repository holds two renderers that share one design:

    - [Didact] : src/build-your-own-react/createElement.js, the
      work-loop renderer with [reconcileChildren], [commitRoot],
      [commitWork] and [updateDom];
    - [Fiber], [Dom], [Events], [Main] : fiber.js, dom.js,
      listenToAllEvents.js and the entry module that owns
      [renderRootSync], [beginWork], [completeWork] and its own
      [commitRoot].

    JavaScript objects live in explicit stores (lists indexed by address),
    so that aliasing between the two generations of a work node is kept.
    Plain objects used as maps are association lists in insertion order;
    property names are assumed not to collide with members of
    [Object.prototype], and not to be integer-like (those would be
    enumerated first). Numbers are the integers and NaN. *)

From Stdlib Require Import ZArith Lia.
From stdpp Require Import base list strings pretty.

Set Warnings "-register-all".

Local Open Scope string_scope.
Local Open Scope Z_scope.
Local Open Scope list_scope.

(** ** Outcomes of running a piece of JavaScript *)

Inductive outcome (A : Type) : Type :=
| Ret (a : A)
| Throw (e : string)
| Timeout.
Arguments Ret {A} a.
Arguments Throw {A} e.
Arguments Timeout {A}.

Definition obind {A B} (m : outcome A) (k : A -> outcome B) : outcome B :=
  match m with
  | Ret a => k a
  | Throw e => Throw e
  | Timeout => Timeout
  end.

Global Instance outcome_bind : MBind outcome := fun A B k m => obind m k.
Global Instance outcome_ret : MRet outcome := fun A a => Ret a.

Definition TypeError : string := "TypeError".

(** Left fold in the outcome monad: a [for ... of] loop whose body may throw. *)
Fixpoint foldM {A B} (f : B -> A -> outcome B) (l : list A) (b : B) : outcome B :=
  match l with
  | [] => Ret b
  | x :: l' => b' ← f b x; foldM f l' b'
  end.

(** ** JavaScript values *)

Module JS.

(** Objects, arrays and functions carry the address they were allocated
    at: [===] compares addresses, never contents. *)
Inductive jsval : Type :=
| VUndef
| VNull
| VBool (b : bool)
| VNum (n : Z)
| VNaN
| VStr (s : string)
| VFun (ref : nat)
| VClass (ref : nat)
| VObj (ref : nat) (fields : list (string * jsval))
| VArr (ref : nat) (items : list jsval).

Definition object := list (string * jsval).

(** [typeof v] *)
Definition typeof (v : jsval) : string :=
  match v with
  | VUndef => "undefined"
  | VNull => "object"
  | VBool _ => "boolean"
  | VNum _ | VNaN => "number"
  | VStr _ => "string"
  | VFun _ | VClass _ => "function"
  | VObj _ _ | VArr _ _ => "object"
  end.

(** ToBoolean *)
Definition truthy (v : jsval) : bool :=
  match v with
  | VUndef | VNull | VNaN => false
  | VBool b => b
  | VNum n => negb (n =? 0)
  | VStr s => negb (String.eqb s "")
  | _ => true
  end.

(** [a === b] *)
Definition strict_eq (a b : jsval) : bool :=
  match a, b with
  | VUndef, VUndef | VNull, VNull => true
  | VBool x, VBool y => Bool.eqb x y
  | VNum x, VNum y => x =? y
  | VStr x, VStr y => String.eqb x y
  | VFun x, VFun y | VClass x, VClass y => Nat.eqb x y
  | VObj x _, VObj y _ | VArr x _, VArr y _ => Nat.eqb x y
  | _, _ => false
  end.

(** Own-property lookup in a map-like object; [None] when absent. *)
Fixpoint lookup_key (k : string) (o : object) : option jsval :=
  match o with
  | [] => None
  | (k', v) :: o' => if String.eqb k k' then Some v else lookup_key k o'
  end.

(** [o[k]] on a plain object: a missing key reads as [undefined]. *)
Definition get (o : object) (k : string) : jsval :=
  match lookup_key k o with Some v => v | None => VUndef end.

(** [k in o] *)
Definition has (o : object) (k : string) : bool :=
  match lookup_key k o with Some _ => true | None => false end.

(** [o[k] = v]: overwrite in place, or add the key at the end. *)
Fixpoint set (k : string) (v : jsval) (o : object) : object :=
  match o with
  | [] => [(k, v)]
  | (k', v') :: o' =>
      if String.eqb k k' then (k, v) :: o' else (k', v') :: set k v o'
  end.

(** [{...a, ...b}] *)
Definition spread (a b : object) : object :=
  fold_left (fun acc kv => set kv.1 kv.2 acc) (a ++ b) [].

(** [delete o[k]] *)
Definition delete_key (k : string) (o : object) : object :=
  List.filter (fun kv => negb (String.eqb kv.1 k)) o.

(** The own enumerable properties an object spread copies out of [v]. *)
Definition own_fields (v : jsval) : object :=
  match v with
  | VObj _ fs => fs
  | _ => []
  end.

Definition keys (o : object) : list string := map fst o.

Definition index_key (i : nat) : string := pretty (N.of_nat i).

Fixpoint indexed {A} (i : nat) (l : list A) : list (string * A) :=
  match l with
  | [] => []
  | x :: l' => (index_key i, x) :: indexed (S i) l'
  end.

Fixpoint chars (s : string) : list jsval :=
  match s with
  | EmptyString => []
  | String c s' => VStr (String c EmptyString) :: chars s'
  end.

(** [Object.entries(v)]: throws on [null] and [undefined]; primitives
    other than strings have no own enumerable property. *)
Definition entries (v : jsval) : outcome (list (string * jsval)) :=
  match v with
  | VUndef | VNull => Throw TypeError
  | VObj _ fs => Ret fs
  | VArr _ items => Ret (indexed 0 items)
  | VStr s => Ret (indexed 0 (chars s))
  | _ => Ret []
  end.

(** [v[k]] for an arbitrary value [v]. *)
Definition get_member (v : jsval) (k : string) : outcome jsval :=
  match v with
  | VUndef | VNull => Throw TypeError
  | VObj _ fs => Ret (get fs k)
  | VArr _ items => Ret (get (indexed 0 items) k)
  | VStr s => Ret (get (indexed 0 (chars s)) k)
  | _ => Ret VUndef
  end.

(** [v[k] = x] in module (strict) code: only objects accept the write. *)
Definition set_member (v : jsval) (k : string) (x : jsval) : outcome jsval :=
  match v with
  | VObj r fs => Ret (VObj r (set k x fs))
  | _ => Throw TypeError
  end.

(** [k.startsWith(p)] *)
Definition startsWith (p k : string) : bool := String.prefix p k.

Definition is_primitive_text (v : jsval) : bool :=
  String.eqb (typeof v) "string" || String.eqb (typeof v) "number".

(** The last character of a string is a decimal digit, as it is for
    every array index. *)
Fixpoint ends_with_digit (s : string) : bool :=
  match s with
  | EmptyString => false
  | String c EmptyString =>
      let n := Ascii.nat_of_ascii c in Nat.leb 48 n && Nat.leb n 57
  | String _ s' => ends_with_digit s'
  end.

End JS.
Import JS.

(** ** fiber tags and flags (constants.js) *)

Module Constants.

Inductive WorkTag : Type :=
| FunctionComponent | ClassComponent | HostRoot | HostComponent | HostText | Fragment.

Definition tag_code (t : WorkTag) : Z :=
  match t with
  | FunctionComponent => 0
  | ClassComponent => 1
  | HostRoot => 3
  | HostComponent => 5
  | HostText => 6
  | Fragment => 7
  end.

Definition tag_eqb (a b : WorkTag) : bool := tag_code a =? tag_code b.

Definition NoFlags : Z := 0.
Definition Placement : Z := 2.
Definition Update : Z := 4.
Definition ChildDeletion : Z := 16.
Definition NoLanes : Z := 0.

Definition NoLane : Z := 0.
Definition SyncLane : Z := 1.

(** ToInt32, which the bitwise operators apply to both operands. *)
Definition toInt32 (z : Z) : Z := (z + 2 ^ 31) mod 2 ^ 32 - 2 ^ 31.

(** [mergeLane(a, b)]: [a | b] *)
Definition mergeLane (a b : Z) : Z := Z.lor (toInt32 a) (toInt32 b).

(** [includesSomeLane(a, b)]: [(a & b) !== NoLane] *)
Definition includesSomeLane (a b : Z) : bool :=
  negb (Z.land (toInt32 a) (toInt32 b) =? NoLane).

(** A set of lanes: a bit mask of 31 bits. *)
Definition is_lanes (a : Z) : Prop := 0 <= a < 2 ^ 31.

End Constants.
Import Constants.

(** ** The host adapter: DOM nodes and the calls issued on them

    The host tree is external to the engine.  A DOM node keeps the
    properties the engine writes on it; structural calls ([appendChild],
    [removeChild]) and listener calls are recorded in the order they are
    issued.  Passing something that is not a node throws; the exceptions
    the DOM itself may raise on a node (removing a node that is not a
    child, an invalid tag name) are outside the model. *)

Module Host.

Inductive node_kind : Type :=
| KContainer
| KElement (type : jsval)
| KText (text : jsval).

Record domnode : Type := mkDom {
  d_kind : node_kind;
  d_attrs : object;          (* dom[k] = v *)
  d_style : object;          (* dom.style[k] = v *)
  d_internalFiber : option nat
}.

Inductive hostcall : Type :=
| CreateElement (type : jsval) (d : nat)
| CreateTextNode (text : jsval) (d : nat)
| AppendChild (parent child : nat)
| RemoveChild (parent child : nat)
| SetProp (d : nat) (k : string) (v : jsval)
| SetStyle (d : nat) (k : string) (v : jsval)
| AddEventListener (d : nat) (type : string) (h : jsval)
| RemoveEventListener (d : nat) (type : string) (h : jsval).

Record host : Type := mkHost {
  nodes : list domnode;
  calls : list hostcall
}.

Definition empty_host : host := mkHost [] [].

Definition log (c : hostcall) (h : host) : host :=
  mkHost (nodes h) (calls h ++ [c]).

Definition alloc (k : node_kind) (h : host) : nat * host :=
  (length (nodes h), mkHost (nodes h ++ [mkDom k [] [] None]) (calls h)).

(** [document.createElement(type)] *)
Definition createElement (type : jsval) (h : host) : nat * host :=
  let '(d, h1) := alloc (KElement type) h in (d, log (CreateElement type d) h1).

(** [document.createTextNode(text)] *)
Definition createTextNode (text : jsval) (h : host) : nat * host :=
  let '(d, h1) := alloc (KText text) h in (d, log (CreateTextNode text d) h1).

Definition update_node (d : nat) (f : domnode -> domnode) (h : host) : host :=
  match nodes h !! d with
  | Some n => mkHost (<[d := f n]> (nodes h)) (calls h)
  | None => h
  end.

(** [dom[k] = v] *)
Definition setProp (d : nat) (k : string) (v : jsval) (h : host) : host :=
  log (SetProp d k v)
      (update_node d (fun n => mkDom (d_kind n) (set k v (d_attrs n)) (d_style n)
                                     (d_internalFiber n)) h).

(** [dom.style[k] = v] *)
Definition setStyle (d : nat) (k : string) (v : jsval) (h : host) : host :=
  log (SetStyle d k v)
      (update_node d (fun n => mkDom (d_kind n) (d_attrs n) (set k v (d_style n))
                                     (d_internalFiber n)) h).

(** [dom.internalFiber = fiber] *)
Definition setInternalFiber (d : nat) (a : nat) (h : host) : host :=
  update_node d (fun n => mkDom (d_kind n) (d_attrs n) (d_style n) (Some a)) h.

Definition appendChild (p c : nat) (h : host) : host := log (AppendChild p c) h.
Definition removeChild (p c : nat) (h : host) : host := log (RemoveChild p c) h.
Definition addEventListener (d : nat) (t : string) (f : jsval) (h : host) : host :=
  log (AddEventListener d t f) h.
Definition removeEventListener (d : nat) (t : string) (f : jsval) (h : host) : host :=
  log (RemoveEventListener d t f) h.

(** The value last written to [dom.textContent], if any. *)
Definition textContent (h : host) (d : nat) : option jsval :=
  n ← nodes h !! d; lookup_key "textContent" (d_attrs n).

(** A call that changes the host tree, a property or a listener
    (everything but node creation). *)
Definition is_mutation (c : hostcall) : bool :=
  match c with
  | CreateElement _ _ | CreateTextNode _ _ => false
  | _ => true
  end.

(** [h'] is [h] after some more host calls. *)
Definition extends (h h' : host) : Prop :=
  exists ext, calls h' = calls h ++ ext.

(** A call of a render phase that began when the host had [n] nodes: a
    creation, or a property write on a node created since. *)
Definition offscreen (n : nat) (c : hostcall) : bool :=
  match c with
  | CreateElement _ d | CreateTextNode _ d | SetProp d _ _ => Nat.leb n d
  | _ => false
  end.

(** From [h] to [h'] the nodes of [h] were left as they are, and every
    call issued is [offscreen]. *)
Definition renders_offscreen (h h' : host) : Prop :=
  (exists ext, calls h' = calls h ++ ext
               /\ forallb (offscreen (length (nodes h))) ext = true)
  /\ (forall d, (d < length (nodes h))%nat -> nodes h' !! d = nodes h !! d)
  /\ (length (nodes h) <= length (nodes h'))%nat.

(** A call that registers or removes a listener. *)
Definition is_listener_call (c : hostcall) : bool :=
  match c with
  | AddEventListener _ _ _ | RemoveEventListener _ _ _ => true
  | _ => false
  end.

End Host.

(** ** Work nodes (fiber.js) *)

Module Fiber.

(** What [stateNode] may point at. *)
Inductive snode : Type :=
| SDom (d : nat)        (* host node of a HostComponent / HostText *)
| SInst (i : nat)       (* instance of a class component *)
| SRoot.                (* the root object of a HostRoot *)

(** The fields of [FiberNode] that the engine reads or writes after
    construction ([ref], [index], [mode], [memoizedState],
    [subtreeFlags] and [deletions] are set once by the constructor and
    never touched again). *)
Record FiberNode : Type := mkFiber {
  tag : option WorkTag;
  pendingProps : jsval;
  key : jsval;
  type : jsval;
  return_ : option nat;
  child : option nat;
  sibling : option nat;
  memoizedProps : jsval;
  updateQueue : nat;           (* address of the shared { pending } object *)
  flags : Z;
  lanes : Z;
  childLanes : Z;
  stateNode : option snode;
  alternate : option nat
}.

(** One entry of the circular pending list. *)
Record update : Type := mkUpdate {
  payload : jsval;
  next : option nat
}.

(** An instance of a class component. *)
Record instance : Type := mkInstance {
  i_class : nat;
  i_props : jsval;
  i_state : jsval;
  i_reactFiber : option nat
}.

Record store : Type := mkStore {
  fibers : list FiberNode;
  queues : list (option nat);      (* updateQueue.pending *)
  updates : list update;
  instances : list instance;
  host : Host.host;
  fresh : nat                      (* next address for an object literal *)
}.

Definition empty_store : store := mkStore [] [] [] [] Host.empty_host 0.

Definition BadAddress : string := "BadAddress".

(** Dereference.  A JavaScript reference always points at an object, so
    the error branch is never taken from a store built by the engine. *)
Definition deref {A} (l : list A) (a : nat) : outcome A :=
  match l !! a with Some x => Ret x | None => Throw BadAddress end.

Definition fiber_at (s : store) (a : nat) : outcome FiberNode := deref (fibers s) a.

Definition with_fibers (s : store) (fs : list FiberNode) : store :=
  mkStore fs (queues s) (updates s) (instances s) (host s) (fresh s).
Definition with_host (s : store) (h : Host.host) : store :=
  mkStore (fibers s) (queues s) (updates s) (instances s) h (fresh s).
Definition with_instances (s : store) (ins : list instance) : store :=
  mkStore (fibers s) (queues s) (updates s) ins (host s) (fresh s).

Definition update_fiber (a : nat) (f : FiberNode -> FiberNode) (s : store) : store :=
  match fibers s !! a with
  | Some n => with_fibers s (<[a := f n]> (fibers s))
  | None => s
  end.

Definition set_child (c : option nat) (n : FiberNode) : FiberNode :=
  mkFiber (tag n) (pendingProps n) (key n) (type n) (return_ n) c (sibling n)
          (memoizedProps n) (updateQueue n) (flags n) (lanes n) (childLanes n)
          (stateNode n) (alternate n).
Definition set_return (r : option nat) (n : FiberNode) : FiberNode :=
  mkFiber (tag n) (pendingProps n) (key n) (type n) r (child n) (sibling n)
          (memoizedProps n) (updateQueue n) (flags n) (lanes n) (childLanes n)
          (stateNode n) (alternate n).
Definition set_sibling (r : option nat) (n : FiberNode) : FiberNode :=
  mkFiber (tag n) (pendingProps n) (key n) (type n) (return_ n) (child n) r
          (memoizedProps n) (updateQueue n) (flags n) (lanes n) (childLanes n)
          (stateNode n) (alternate n).
Definition set_type (t : jsval) (n : FiberNode) : FiberNode :=
  mkFiber (tag n) (pendingProps n) (key n) t (return_ n) (child n) (sibling n)
          (memoizedProps n) (updateQueue n) (flags n) (lanes n) (childLanes n)
          (stateNode n) (alternate n).
Definition set_pendingProps (p : jsval) (n : FiberNode) : FiberNode :=
  mkFiber (tag n) p (key n) (type n) (return_ n) (child n) (sibling n)
          (memoizedProps n) (updateQueue n) (flags n) (lanes n) (childLanes n)
          (stateNode n) (alternate n).
Definition set_memoizedProps (p : jsval) (n : FiberNode) : FiberNode :=
  mkFiber (tag n) (pendingProps n) (key n) (type n) (return_ n) (child n) (sibling n)
          p (updateQueue n) (flags n) (lanes n) (childLanes n)
          (stateNode n) (alternate n).
Definition set_stateNode (x : option snode) (n : FiberNode) : FiberNode :=
  mkFiber (tag n) (pendingProps n) (key n) (type n) (return_ n) (child n) (sibling n)
          (memoizedProps n) (updateQueue n) (flags n) (lanes n) (childLanes n)
          x (alternate n).
Definition set_alternate (x : option nat) (n : FiberNode) : FiberNode :=
  mkFiber (tag n) (pendingProps n) (key n) (type n) (return_ n) (child n) (sibling n)
          (memoizedProps n) (updateQueue n) (flags n) (lanes n) (childLanes n)
          (stateNode n) x.
Definition set_queue_lanes (q : nat) (l cl : Z) (n : FiberNode) : FiberNode :=
  mkFiber (tag n) (pendingProps n) (key n) (type n) (return_ n) (child n) (sibling n)
          (memoizedProps n) q (flags n) l cl (stateNode n) (alternate n).

(** [new FiberNode(tag, pendingProps, key)]: allocates the node and its
    own [updateQueue = { pending: null }]. *)
Definition createFiber (t : option WorkTag) (props k : jsval) (s : store) : nat * store :=
  let q := length (queues s) in
  let a := length (fibers s) in
  let n := mkFiber t props k VNull None None None VNull q NoFlags NoLanes NoLanes
                   None None in
  (a, mkStore (fibers s ++ [n]) (queues s ++ [None]) (updates s) (instances s)
              (host s) (fresh s)).

(** [createFiberFromElement(element)].  Destructuring a primitive reads
    [undefined] for every name; an array has no [type] either. *)
Definition createFiberFromElement (element : jsval) (s : store) : outcome (nat * store) :=
  ty ← get_member element "type";
  props ← get_member element "props";
  k ← get_member element "key";
  let t :=
    if String.eqb (typeof ty) "string" then Some HostComponent
    else if String.eqb (typeof ty) "function" then
      match ty with
      | VClass _ => Some ClassComponent       (* type.isReactComponent *)
      | _ => Some FunctionComponent
      end
    else None in
  let '(a, s1) := createFiber t props k s in
  Ret (a, update_fiber a (set_type ty) s1).

(** [createFiberFromText(text)] *)
Definition createFiberFromText (text : jsval) (s : store) : nat * store :=
  createFiber (Some HostText) text VNull s.

(** [createHostRootFiber()] *)
Definition createHostRootFiber (s : store) : nat * store :=
  createFiber (Some HostRoot) VNull VNull s.

(** [createWorkInProgress(current, pendingProps)] *)
Definition createWorkInProgress (current : nat) (props : jsval) (s : store)
  : outcome (nat * store) :=
  cur ← fiber_at s current;
  '(w, s1) ← match alternate cur with
             | None =>
                 let '(w, s1) := createFiber (tag cur) props (key cur) s in
                 let s2 := update_fiber w (fun n => set_alternate (Some current)
                                             (set_stateNode (stateNode cur) n)) s1 in
                 Ret (w, update_fiber current (set_alternate (Some w)) s2)
             | Some w => Ret (w, update_fiber w (set_pendingProps props) s)
             end;
  Ret (w, update_fiber w (fun n => set_queue_lanes (updateQueue cur) (lanes cur)
                              (childLanes cur)
                              (set_child (child cur) (set_type (type cur) n))) s1).

(** The second half of [createWorkInProgress]: the fields refreshed from
    [current] whichever branch was taken. *)
Definition refreshed (cur n : FiberNode) : FiberNode :=
  set_queue_lanes (updateQueue cur) (lanes cur) (childLanes cur)
    (set_child (child cur) (set_type (type cur) n)).

End Fiber.

(** ** dom.js *)

Module Dom.
Import Host Fiber.

(** [createElement(workInProgress)] *)
Definition createElement (wip : nat) (s : store) : outcome (nat * store) :=
  n ← fiber_at s wip;
  let '(d, h) := Host.createElement (type n) (host s) in
  Ret (d, with_host s h).

Definition is_host_tag (t : option WorkTag) : bool :=
  match t with
  | Some HostComponent | Some HostText => true
  | _ => false
  end.

(** [dom.appendChild(fiber.stateNode)]: only a DOM node can be appended. *)
Definition appendStateNode (dom : nat) (x : option snode) (s : store) : outcome store :=
  match x with
  | Some (SDom d) => Ret (with_host s (Host.appendChild dom d (host s)))
  | _ => Throw TypeError
  end.

(** The inner loop of [appendChildren]:
    [while (!childFiber.sibling) { if (childFiber.return === workInProgress) return;
       childFiber = childFiber.return; }]
    [None] is the [return] of the function, [Some sb] the sibling to go on with. *)
Fixpoint climb (fuel : nat) (s : store) (wip c : nat) : outcome (option nat) :=
  match fuel with
  | O => Timeout
  | S f =>
      n ← fiber_at s c;
      match sibling n with
      | Some sb => Ret (Some sb)
      | None =>
          match return_ n with
          | Some r => if Nat.eqb r wip then Ret None else climb f s wip r
          | None => Throw TypeError      (* reads [.sibling] of null *)
          end
      end
  end.

(** The outer loop of [appendChildren], [childFiber] being the cursor. *)
Fixpoint appendChildren_loop (fuel : nat) (dom wip : nat) (childFiber : option nat)
    (s : store) : outcome store :=
  match childFiber with
  | None => Ret s
  | Some c =>
      match fuel with
      | O => Timeout
      | S f =>
          n ← fiber_at s c;
          if is_host_tag (tag n) then
            s1 ← appendStateNode dom (stateNode n) s;
            if Nat.eqb c wip then Ret s1
            else
              nx ← climb f s1 wip c;
              match nx with
              | None => Ret s1
              | Some sb => appendChildren_loop f dom wip (Some sb) s1
              end
          else appendChildren_loop f dom wip (child n) s
      end
  end.

(** [appendChildren(dom, workInProgress)] *)
Definition appendChildren (fuel : nat) (dom wip : nat) (s : store) : outcome store :=
  n ← fiber_at s wip;
  appendChildren_loop fuel dom wip (child n) s.

(** One entry of [setInitialProps]'s loop over [Object.entries(nextProps)]. *)
Definition setInitialProp (dom : nat) (h : Host.host) (kv : string * jsval)
  : outcome Host.host :=
  let '(k, v) := kv in
  if String.eqb k "style" then
    ss ← entries v;
    Ret (fold_left (fun h' sv => Host.setStyle dom sv.1 sv.2 h') ss h)
  else if String.eqb k "children" then
    Ret (if is_primitive_text v then Host.setProp dom "textContent" v h else h)
  else Ret (Host.setProp dom k v h).

(** [setInitialProps(dom, nextProps)] *)
Definition setInitialProps (dom : nat) (nextProps : jsval) (h : Host.host)
  : outcome Host.host :=
  es ← entries nextProps;
  foldM (setInitialProp dom) es h.

(** The state of [diffProperties]: the flat [updatePayload] array and
    [styleUpdates], which starts as a fresh object and may be rebound to
    the new [style] value itself. *)
Definition diff_state : Type := list jsval * jsval.

(** First loop of [diffProperties], over the entries of [oldProps]. *)
Definition diff_old (newProps : object) (acc : diff_state) (kv : string * jsval)
  : outcome diff_state :=
  let '(k, v) := kv in
  let '(updatePayload, styleUpdates) := acc in
  if truthy (get newProps k) then Ret acc
  else if String.eqb k "style" then
    es ← entries v;
    su ← foldM (fun su e => set_member su e.1 (VStr "")) es styleUpdates;
    Ret (updatePayload, su)
  else if startsWith "on" k || String.eqb k "children" then Ret acc
  else Ret (updatePayload ++ [VStr k; VNull], styleUpdates).

(** Second loop of [diffProperties], over the entries of [newProps]. *)
Definition diff_new (oldProps : object) (acc : diff_state) (kv : string * jsval)
  : outcome diff_state :=
  let '(k, v) := kv in
  let '(updatePayload, styleUpdates) := acc in
  let lastProp := get oldProps k in
  if strict_eq v lastProp then Ret acc
  else if String.eqb k "style" then
    if truthy lastProp then
      les ← entries lastProp;
      su1 ← foldM (fun su e =>
                     x ← get_member v e.1;
                     if truthy x then Ret su else set_member su e.1 (VStr ""))
                  les styleUpdates;
      ves ← entries v;
      su2 ← foldM (fun su e =>
                     y ← get_member lastProp e.1;
                     if strict_eq e.2 y then Ret su else set_member su e.1 e.2)
                  ves su1;
      Ret (updatePayload, su2)
    else Ret (updatePayload, v)
  else if String.eqb k "children" then
    Ret (if is_primitive_text v then updatePayload ++ [VStr k; v] else updatePayload,
         styleUpdates)
  else if startsWith "on" k then Ret acc
  else Ret (updatePayload ++ [VStr k; v], styleUpdates).

(** [diffProperties(oldProps, newProps)]; [r] is the address the literal
    [{}] bound to [styleUpdates] is allocated at.  The result is the
    flat name/value array, or [None] for [null]. *)
Definition diffProperties (r : nat) (oldProps newProps : object)
  : outcome (option (list jsval)) :=
  acc1 ← foldM (diff_old newProps) oldProps ([], VObj r []);
  '(updatePayload, styleUpdates) ← foldM (diff_new oldProps) newProps acc1;
  ks ← entries styleUpdates;
  let updatePayload' :=
    if (0 <? length ks)%nat then updatePayload ++ [VStr "style"; styleUpdates]
    else updatePayload in
  Ret (if (0 <? length updatePayload')%nat then Some updatePayload' else None).

(** From the spec's words: the host nodes that [appendChildren] is to
    attach are the [stateNode]s of the nearest host-bearing descendants,
    found by walking down through component-tag nodes; [c] is the head of
    a sibling chain. *)
Fixpoint nearestHosts (fuel : nat) (fs : list FiberNode) (c : option nat)
  : list (option snode) :=
  match fuel, c with
  | S f, Some a =>
      match fs !! a with
      | Some n =>
          (if is_host_tag (tag n) then [stateNode n] else nearestHosts f fs (child n))
            ++ nearestHosts f fs (sibling n)
      | None => []
      end
  | _, _ => []
  end.

(** Reading the flat payload: [k] is scheduled with the value [v] when
    the pair sits at an even position of the array. *)
Definition schedules (k : string) (v : jsval) (updatePayload : list jsval) : Prop :=
  exists pre post,
    updatePayload = pre ++ [VStr k; v] ++ post /\ Nat.Even (length pre).

(** [k] occurs as a name (even position) of the flat payload. *)
Fixpoint names (updatePayload : list jsval) : list jsval :=
  match updatePayload with
  | n :: _ :: rest => n :: names rest
  | _ => []
  end.

Definition is_object (v : jsval) : bool :=
  match v with VObj _ _ => true | _ => false end.

(** Every [style] entry of a props object is an object of sub-keys, as
    [setInitialProps] and [diffProperties] both take for granted. *)
Definition style_ok (p : object) : bool :=
  forallb (fun kv => if String.eqb kv.1 "style" then is_object kv.2 else true) p.

(** An extension by zero or one name/value pair whose name is no
    handler. *)
Definition pair_or_nothing (ext : list jsval) : Prop :=
  ext = [] \/ exists k v, ext = [VStr k; v] /\ startsWith "on" k = false.

(** A flat payload of name/value pairs whose names are strings, none of
    them the name of a handler. *)
Definition plain_names (updatePayload : list jsval) : Prop :=
  Nat.Even (length updatePayload)
  /\ Forall (fun n => exists k, n = VStr k /\ startsWith "on" k = false)
            (names updatePayload).

Definition is_nullish (v : jsval) : bool :=
  match v with VUndef | VNull => true | _ => false end.

(** No [style] entry of the props is [null] or [undefined]. *)
Definition style_defined (p : object) : bool :=
  forallb (fun kv => negb (String.eqb kv.1 "style" && is_nullish kv.2)) p.

(** The property writes of [setInitialProps], in order: one for each
    entry other than [style] and [children], and [textContent] for a
    [children] that is a string or a number. *)
Definition propWrites (p : object) : object :=
  flat_map (fun kv =>
              if String.eqb kv.1 "style" then []
              else if String.eqb kv.1 "children" then
                (if is_primitive_text kv.2 then [("textContent", kv.2)] else [])
              else [kv]) p.

(** Its writes on [dom.style]. *)
Definition styleWrites (p : object) : object :=
  flat_map (fun kv =>
              if String.eqb kv.1 "style" then
                match entries kv.2 with Ret es => es | _ => [] end
              else []) p.

(** The node once the writes are done, each [o[k] = v] in turn. *)
Definition written (ws : object) (o : object) : object :=
  fold_left (fun o kv => set kv.1 kv.2 o) ws o.

End Dom.

(** ** react.js *)

Module React.

(** [createElement(type, config, ...children)].  [r] is the address of
    the element object; a fresh props object sits at [r + 1] and the
    children array at [r + 2].  When [config] is given, [props] is that
    very object, stripped of [key] and [ref].  [config] is [null] or an
    object, as the JSX transform passes it.  ([$$typeof] is never read
    and is left out.) *)
Definition createElement (r : nat) (type config : jsval) (children : list jsval) : jsval :=
  let key := if truthy config then
               (if truthy (get (own_fields config) "key")
                then get (own_fields config) "key" else VNull)
             else VNull in
  let ref := if truthy config then
               (if truthy (get (own_fields config) "ref")
                then get (own_fields config) "ref" else VNull)
             else VNull in
  let '(pr, props) :=
    match config with
    | VObj rc fs => (rc, delete_key "ref" (delete_key "key" fs))
    | _ => (S r, [])
    end in
  let props' :=
    match children with
    | [] => props
    | [c] => set "children" c props
    | _ => set "children" (VArr (S (S r)) children) props
    end in
  VObj r [("type", type); ("key", key); ("ref", ref); ("props", VObj pr props')].

(** What [createElement] puts under [children]: nothing for no child,
    the child itself for one, the array of them otherwise. *)
Definition childrenProp (r : nat) (children : list jsval) : option jsval :=
  match children with
  | [] => None
  | [c] => Some c
  | _ => Some (VArr (S (S r)) children)
  end.

End React.

(** ** The entry module: render loop, begin and complete phases *)

Module Main.
Import Host Fiber Dom.

(** User code reachable from the engine: the bodies of function
    components, and for classes the state set by the constructor and the
    [render] method (reading [this.props] and [this.state]).  They are
    taken to be pure and to return normally. *)
Record components : Type := mkComponents {
  call_function : nat -> jsval -> jsval;
  construct_state : nat -> jsval -> jsval;
  render_method : nat -> jsval -> jsval -> jsval
}.

(** Module-level state: the stores, the [root] object
    ([root.container], [root.current]), the [workInProgress] cursor and
    the [current] property that [commitRoot] writes on the container. *)
Record mstate : Type := mkMain {
  st : store;
  root_container : nat;
  root_current : nat;
  workInProgress : option nat;
  container_current : option nat
}.

Section Engine.
Variable C : components.

(** The tail of [beginWork] after the [switch]: attach one child fiber
    built from [nextChildren], or clear [child]. *)
Definition attachChild (wip : nat) (nextChildren : jsval) (s : store)
  : outcome (option nat * store) :=
  if negb (truthy nextChildren) then
    Ret (None, update_fiber wip (set_child None) s)
  else
    '(c, s1) ← createFiberFromElement nextChildren s;
    let s2 := update_fiber c (set_return (Some wip)) s1 in
    Ret (Some c, update_fiber wip (set_child (Some c)) s2).

(** The [do ... while (next)] loop folding the pending updates. *)
Fixpoint mergeUpdates (fuel : nat) (us : list update) (pendingState : nat) (nxt : nat)
    (newState : object) : outcome object :=
  match fuel with
  | O => Timeout
  | S f =>
      u ← deref us nxt;
      let newState' := spread newState (own_fields (payload u)) in
      if Nat.eqb nxt pendingState then Ret newState'
      else
        match next u with
        | Some n => mergeUpdates f us pendingState n newState'
        | None => Ret newState'
        end
  end.

(** [beginWork(current, workInProgress)] *)
Definition beginWork (fuel : nat) (current : option nat) (wip : nat) (s : store)
  : outcome (option nat * store) :=
  w ← fiber_at s wip;
  match tag w with
  | Some HostRoot =>
      nextChildren ← get_member (pendingProps w) "children";
      attachChild wip nextChildren s
  | Some HostComponent =>
      children ← get_member (pendingProps w) "children";
      attachChild wip (if is_primitive_text children then VNull else children) s
  | Some HostText => attachChild wip VNull s
  | Some FunctionComponent =>
      match type w with
      | VFun f => attachChild wip (call_function C f (pendingProps w)) s
      | _ => Throw TypeError
      end
  | Some ClassComponent =>
      match current with
      | None =>
          match type w with
          | VClass c =>
              let i := length (instances s) in
              let inst := mkInstance c (pendingProps w)
                            (construct_state C c (pendingProps w)) (Some wip) in
              let s1 := with_instances s (instances s ++ [inst]) in
              let s2 := update_fiber wip (set_stateNode (Some (SInst i))) s1 in
              attachChild wip (render_method C c (i_props inst) (i_state inst)) s2
          | _ => Throw TypeError
          end
      | Some cur =>
          match stateNode w with
          | Some (SInst i) =>
              inst ← deref (instances s) i;
              curf ← fiber_at s cur;
              pending ← deref (queues s) (updateQueue curf);
              match pending with
              | None => Throw TypeError          (* pendingState.next on null *)
              | Some pendingState =>
                  p ← deref (updates s) pendingState;
                  match next p with
                  | None => Throw TypeError      (* next.payload on null *)
                  | Some first =>
                      merged ← mergeUpdates fuel (updates s) pendingState first
                                 (own_fields (i_state inst));
                      let newState := VObj (fresh s) merged in
                      let inst' := mkInstance (i_class inst) (i_props inst) newState
                                     (i_reactFiber inst) in
                      let s1 := mkStore (fibers s) (queues s) (updates s)
                                  (<[i := inst']> (instances s)) (host s) (S (fresh s)) in
                      attachChild wip
                        (render_method C (i_class inst) (i_props inst) newState) s1
                  end
              end
          | _ => Throw TypeError
          end
      end
  | _ => Ret (None, s)
  end.

(** [completeWork(workInProgress)] *)
Definition completeWork (fuel : nat) (wip : nat) (s : store) : outcome store :=
  w ← fiber_at s wip;
  match tag w with
  | Some HostComponent =>
      '(d, s1) ← Dom.createElement wip s;
      s2 ← appendChildren fuel d wip s1;
      let s3 := update_fiber wip (set_stateNode (Some (SDom d))) s2 in
      let h := setInternalFiber d wip (host s3) in
      h' ← setInitialProps d (pendingProps w) h;
      Ret (with_host s3 h')
  | Some HostText =>
      let '(d, h) := createTextNode (pendingProps w) (host s) in
      Ret (update_fiber wip (set_stateNode (Some (SDom d))) (with_host s h))
  | _ => Ret s
  end.

End Engine.

(** The pending list seen as a ring: from [a], following [next], the
    entries [l] are met in turn and the last of them is the entry at
    [pendingState], the point the queue object refers to. *)
Inductive ring (us : list update) (pendingState : nat) : nat -> list update -> Prop :=
| ring_last u :
    us !! pendingState = Some u ->
    ring us pendingState pendingState [u]
| ring_step a u n l :
    a <> pendingState -> us !! a = Some u -> next u = Some n ->
    ring us pendingState n l ->
    ring us pendingState a (u :: l).

(** Entries applied one after the other to a state object. *)
Definition foldUpdates (l : list update) (state : object) : object :=
  fold_left (fun acc u => spread acc (own_fields (payload u))) l state.

(** The store once the instance at [i] has received its new state, a
    fresh object. *)
Definition storeState (i : nat) (inst : instance) (merged : object) (s : store) : store :=
  mkStore (fibers s) (queues s) (updates s)
          (<[i := mkInstance (i_class inst) (i_props inst) (VObj (fresh s) merged)
                             (i_reactFiber inst)]> (instances s))
          (host s) (S (fresh s)).

(** Modelled from the spec: the source has no [setState]; an update is
    linked in after the entry the queue refers to and becomes the entry
    referred to, so that [pending.next] is the oldest entry ("insertion
    order, oldest first").  [q] is the address of the queue object. *)
Definition enqueueUpdate (q : nat) (p : jsval) (s : store) : store :=
  let a := length (updates s) in
  match queues s !! q with
  | Some (Some last) =>
      match updates s !! last with
      | Some u =>
          mkStore (fibers s) (<[q := Some a]> (queues s))
                  (<[last := mkUpdate (payload u) (Some a)]> (updates s)
                     ++ [mkUpdate p (next u)])
                  (instances s) (host s) (fresh s)
      | None => s
      end
  | Some None =>
      mkStore (fibers s) (<[q := Some a]> (queues s))
              (updates s ++ [mkUpdate p (Some a)])
              (instances s) (host s) (fresh s)
  | None => s
  end.

(** What the render loop does, node by node. *)
Inductive step : Type :=
| Begin (a : nat)
| Complete (a : nat).

(** The render loop, over any pair of per-node steps. *)
Section RenderLoop.
Variable beginWork : option nat -> nat -> store -> outcome (option nat * store).
Variable completeWork : nat -> store -> outcome store.

(** The two loops of [renderRootSync], as two entry points of one
    function: [descending = true] is the head of the outer [while], with
    [wip] about to be begun; [descending = false] is the head of the
    inner [do ... while], with [wip] about to be completed.  The steps
    taken are recorded in order. *)
Fixpoint renderLoop (fuel : nat) (descending : bool) (wip : option nat)
    (s : store) (tr : list step) : outcome (store * list step) :=
  match wip with
  | None => Ret (s, tr)
  | Some w =>
      match fuel with
      | O => Timeout
      | S f =>
          if descending then
            n ← fiber_at s w;
            '(nxt, s1) ← beginWork (alternate n) w s;
            let s2 := update_fiber w (fun x => set_memoizedProps (pendingProps x) x) s1 in
            match nxt with
            | Some c => renderLoop f true (Some c) s2 (tr ++ [Begin w])
            | None => renderLoop f false (Some w) s2 (tr ++ [Begin w])
            end
          else
            s1 ← completeWork w s;
            n ← fiber_at s1 w;
            match sibling n with
            | Some sb => renderLoop f true (Some sb) s1 (tr ++ [Complete w])
            | None => renderLoop f false (return_ n) s1 (tr ++ [Complete w])
            end
      end
  end.

(** [renderRootSync()] started with the cursor at [wip]. *)
Definition renderRootSync (fuel : nat) (wip : option nat) (s : store)
  : outcome (store * list step) :=
  renderLoop fuel true wip s [].

End RenderLoop.

(** Per-node steps that only follow the links of a tree already in the
    store: what [beginWork] hands back is [workInProgress.child]. *)
Definition followChild (current : option nat) (wip : nat) (s : store)
  : outcome (option nat * store) :=
  n ← fiber_at s wip; Ret (child n, s).

Definition completeNothing (wip : nat) (s : store) : outcome store := Ret s.

(** A work tree: the address of a fiber and the trees of its children,
    first child first. *)
Inductive tree : Type :=
| Node (a : nat) (kids : list tree).

Fixpoint size (t : tree) : nat :=
  match t with Node _ ks => S (list_sum (map size ks)) end.

Definition forest_size (ts : list tree) : nat := list_sum (map size ts).

(** Pre-order and post-order listings of the addresses. *)
Fixpoint preorder (t : tree) : list nat :=
  match t with Node a ks => a :: flat_map preorder ks end.

Fixpoint postorder (t : tree) : list nat :=
  match t with Node a ks => flat_map postorder ks ++ [a] end.

(** The steps of a depth-first walk: a node is begun, its children are
    walked one after the other, then the node is completed. *)
Fixpoint walk (t : tree) : list step :=
  match t with Node a ks => Begin a :: flat_map walk ks ++ [Complete a] end.

(** [u] is [t] or sits somewhere below it. *)
Inductive subtree (u : tree) : tree -> Prop :=
| subtree_here : subtree u u
| subtree_below a ks k : In k ks -> subtree u k -> subtree u (Node a ks).

(** The fibers begun, and the fibers completed, in the order of a trace. *)
Definition begun (tr : list step) : list nat :=
  omap (fun e => match e with Begin a => Some a | Complete _ => None end) tr.

Definition completed (tr : list step) : list nat :=
  omap (fun e => match e with Complete a => Some a | Begin _ => None end) tr.

(** The forest [ts] sits in the store as a sibling chain starting at
    [head], every fiber of the chain having [return = parent], and so on
    below each of them through [child]. *)
Inductive laid (s : store) : option nat -> option nat -> list tree -> Prop :=
| laid_nil parent : laid s parent None []
| laid_cons parent a n ks rest :
    fibers s !! a = Some n ->
    return_ n = parent ->
    laid s (Some a) (child n) ks ->
    laid s parent (sibling n) rest ->
    laid s parent (Some a) (Node a ks :: rest).

(** The three links of a fiber, and stores that agree on them. *)
Definition links (n : FiberNode) : option nat * option nat * option nat :=
  (return_ n, child n, sibling n).

Definition same_links (s s' : store) : Prop :=
  forall a, (links <$> fibers s !! a) = (links <$> fibers s' !! a).

(** The host nodes of the nearest host-bearing fibers of a tree: the
    node of its root when the root is a host fiber, those of its children
    otherwise. *)
Fixpoint hostDoms (fs : list FiberNode) (t : tree) : list nat :=
  match t with
  | Node a ks =>
      match fs !! a with
      | Some n =>
          if is_host_tag (tag n) then
            match stateNode n with Some (SDom d) => [d] | _ => [] end
          else flat_map (hostDoms fs) ks
      | None => []
      end
  end.

(** A tree that [appendChildren] can cross: its host fibers are
    completed (they own a DOM node), and its component-tag fibers each
    have at least one child. *)
Fixpoint attachable (fs : list FiberNode) (t : tree) : bool :=
  match t with
  | Node a ks =>
      match fs !! a with
      | Some n =>
          if is_host_tag (tag n) then
            match stateNode n with Some (SDom _) => true | _ => false end
          else
            match ks with [] => false | _ => forallb (attachable fs) ks end
      | None => false
      end
  end.

(** The store after [dom.appendChild] of each of [ds] in turn. *)
Definition appended (dom : nat) (ds : list nat) (s : store) : store :=
  with_host s (fold_left (fun h d => Host.appendChild dom d h) ds (host s)).

(** Where [appendChildren] stands when the subtrees below the fiber [p]
    are done: at the test of [p.sibling] inside the climbing loop, [f]
    being the steps the climb may still take and [F] those of the outer
    loop; when [p] is [workInProgress] itself the function has returned. *)
Definition climbFrom (dom wip : nat) (F f : nat) (p : nat) (s : store) : outcome store :=
  if Nat.eqb p wip then Ret s
  else
    nx ← climb f s wip p;
    match nx with
    | None => Ret s
    | Some sb => appendChildren_loop F dom wip (Some sb) s
    end.

Section Entry.
Variable C : components.

(** Module initialisation: the root object, the host root fiber and its
    work-in-progress twin carrying [{ children: element }] (an object at
    address [r]). *)
Definition init (r : nat) (element : jsval) (h : Host.host) (container : nat)
  : outcome mstate :=
  let s0 := mkStore [] [] [] [] h 0 in
  let '(hostRootFiber, s1) := createHostRootFiber s0 in
  let s2 := update_fiber hostRootFiber (set_stateNode (Some SRoot)) s1 in
  '(wip, s3) ← createWorkInProgress hostRootFiber (VObj r [("children", element)]) s2;
  Ret (mkMain s3 container hostRootFiber (Some wip) None).

(** The first-host-child search of [commitRoot]. *)
Fixpoint commitFirstHost (fuel : nat) (container : nat) (childFiber : option nat)
    (s : store) : outcome store :=
  match childFiber with
  | None => Ret s
  | Some a =>
      match fuel with
      | O => Timeout
      | S f =>
          n ← fiber_at s a;
          match tag n, stateNode n with
          | Some HostComponent, Some x => appendStateNode container (Some x) s
          | _, _ => commitFirstHost f container (child n) s
          end
      end
  end.

(** [commitRoot()] of the entry module. *)
Definition commitRoot (fuel : nat) (m : mstate) : outcome mstate :=
  cur ← fiber_at (st m) (root_current m);
  match alternate cur with
  | None => Throw TypeError                  (* finishedWork.child on null *)
  | Some finishedWork =>
      fw ← fiber_at (st m) finishedWork;
      s1 ← commitFirstHost fuel (root_container m) (child fw) (st m);
      (* container.current = finishedWork *)
      Ret (mkMain s1 (root_container m) (root_current m) (workInProgress m)
                  (Some finishedWork))
  end.

(** [render()]: the render phase, then the commit phase. *)
Definition render (fuel : nat) (m : mstate) : outcome (mstate * list step) :=
  '(s1, tr) ← renderRootSync (beginWork C fuel) (completeWork fuel) fuel
                (workInProgress m) (st m);
  m' ← commitRoot fuel (mkMain s1 (root_container m) (root_current m) None
                          (container_current m));
  Ret (m', tr).

End Entry.

(** The search of [commitRoot]: down the [child] links from [start],
    the first primitive-host fiber that owns a host node, met after [n]
    fibers; [None] when the chain ends without one. *)
Inductive firstHost (s : store) : nat -> option nat -> option nat -> Prop :=
| firstHost_none : firstHost s 0 None None
| firstHost_here a n d :
    fibers s !! a = Some n -> tag n = Some HostComponent -> stateNode n = Some (SDom d) ->
    firstHost s 1 (Some a) (Some d)
| firstHost_below a n k r :
    fibers s !! a = Some n ->
    (tag n <> Some HostComponent \/ stateNode n = None) ->
    firstHost s k (child n) r ->
    firstHost s (S k) (Some a) r.

End Main.

(** ** listenToAllEvents.js *)

Module Events.
Import Host Fiber.

Definition allEvents : list string := ["click"; "mousedown"; "mouseup"; "dblclick"].

(** A native event: its target node, its type and its own enumerable
    fields. *)
Record event : Type := mkEvent {
  target : nat;
  ev_type : string;
  ev_fields : object
}.

(** [new SyntheticEvent(event)]; the two stub closures are allocated at
    [r] and [r + 1]. *)
Record SyntheticEvent : Type := mkSynthetic {
  nativeEvent : event;
  copied : object
}.

Definition newSyntheticEvent (r : nat) (e : event) : SyntheticEvent :=
  mkSynthetic e
    (map (fun kv =>
            if String.eqb kv.1 "preventDefault" then (kv.1, VFun r)
            else if String.eqb kv.1 "stopPropagation" then (kv.1, VFun (S r))
            else kv)
         (ev_fields e)).

(** A handler called with the event it received. *)
Record invocation : Type := mkCall {
  callee : nat;
  argument : SyntheticEvent
}.

(** What one fiber adds to [listeners]. *)
Definition listenerOf (reactEventName : string) (n : FiberNode) : outcome (option jsval) :=
  match tag n, stateNode n with
  | Some HostComponent, Some _ =>
      listener ← get_member (memoizedProps n) reactEventName;
      Ret (if truthy listener then Some listener else None)
  | _, _ => Ret None
  end.

(** The loop of [accumulateListeners(reactEventName, fiber)]. *)
Fixpoint accumulateLoop (fuel : nat) (s : store) (reactEventName : string)
    (currentFiber : option nat) (listeners : list jsval) : outcome (list jsval) :=
  match currentFiber with
  | None => Ret listeners
  | Some a =>
      match fuel with
      | O => Timeout
      | S f =>
          n ← fiber_at s a;
          l ← listenerOf reactEventName n;
          accumulateLoop f s reactEventName (return_ n)
            (match l with Some x => listeners ++ [x] | None => listeners end)
      end
  end.

Definition accumulateListeners (fuel : nat) (s : store) (reactEventName : string)
    (fiber : option nat) : outcome (list jsval) :=
  accumulateLoop fuel s reactEventName fiber [].

Definition upper_ascii (c : Ascii.ascii) : Ascii.ascii :=
  let n := Ascii.nat_of_ascii c in
  if (Nat.leb 97 n && Nat.leb n 122)%bool then Ascii.ascii_of_nat (n - 32) else c.

(** ['on' + type[0].toUpperCase() + type.slice(1)] *)
Definition reactEventName (type : string) : outcome string :=
  match type with
  | EmptyString => Throw TypeError            (* type[0] is undefined *)
  | String c rest => Ret ("on" +:+ String (upper_ascii c) rest)
  end.

(** [for (const listener of listeners) listener(syntheticEvent)];
    handlers are taken to return normally. *)
Definition invokeAll (listeners : list jsval) (e : SyntheticEvent)
  : outcome (list invocation) :=
  foldM (fun acc l =>
           match l with
           | VFun f => Ret (acc ++ [mkCall f e])
           | _ => Throw TypeError             (* listener is not callable *)
           end) listeners [].

(** [dispatchEvent(event)]: the handler calls it makes, in order. *)
Definition dispatchEvent (fuel : nat) (r : nat) (s : store) (e : event)
  : outcome (list invocation) :=
  name ← reactEventName (ev_type e);
  tgt ← match nodes (host s) !! target e with
        | Some d => Ret d
        | None => Throw BadAddress
        end;
  listeners ← accumulateListeners fuel s name (d_internalFiber tgt);
  invokeAll listeners (newSyntheticEvent r e).

(** The ancestry of a fiber: the fiber itself, its [return], and so on
    up to the fiber whose [return] is [null]. *)
Inductive ancestry (s : store) : option nat -> list FiberNode -> Prop :=
| ancestry_root : ancestry s None []
| ancestry_step a n l :
    fibers s !! a = Some n -> ancestry s (return_ n) l ->
    ancestry s (Some a) (n :: l).

(** A primitive-host fiber with a host node and the handler [h] under
    the prop [name]. *)
Definition hasHandler (name : string) (h : nat) (n : FiberNode) : Prop :=
  tag n = Some HostComponent /\ is_Some (stateNode n)
  /\ exists r props, memoizedProps n = VObj r props /\ get props name = VFun h.

(** [listenToAllEvents(container)] *)
Definition listenToAllEvents (container : nat) (dispatch : jsval) (h : Host.host) : Host.host :=
  fold_left (fun h eventName => addEventListener container eventName dispatch h)
            allEvents h.

End Events.

(** ** build-your-own-react/createElement.js *)

Module Didact.
Import Host.

(** A description node [{ type, props: { ...props, children } }].  The
    [children] array is kept apart from the other props, which is how
    [createElement] builds it and how [isProperty] reads it.  Entries of
    [children] are descriptions ([createElement] wraps primitives with
    [createTextElement]). *)
Inductive element : Type :=
| Element (type : string) (props : object) (children : list element).

Definition e_type (e : element) : string := let 'Element t _ _ := e in t.
Definition e_props (e : element) : object := let 'Element _ p _ := e in p.
Definition e_children (e : element) : list element := let 'Element _ _ c := e in c.

(** [createTextElement(text)] *)
Definition createTextElement (text : jsval) : element :=
  Element "TEXT_ELEMENT" [("nodeValue", text)] [].

Inductive effect : Type := PLACEMENT | UPDATE | DELETION.

Definition effect_eqb (a b : effect) : bool :=
  match a, b with
  | PLACEMENT, PLACEMENT | UPDATE, UPDATE | DELETION, DELETION => true
  | _, _ => false
  end.

(** A fiber object.  [type] is [None] for the root, which has none. *)
Record fiber : Type := mkFiber {
  type : option string;
  props : object;
  children : list element;        (* props.children *)
  dom : option nat;
  parent : option nat;
  alternate : option nat;
  effectTag : option effect;
  child : option nat;
  sibling : option nat
}.

(** The module-level variables, the fiber objects and the host. *)
Record state : Type := mkState {
  heap : list fiber;
  nextUnitOfWork : option nat;
  currentRoot : option nat;
  wipRoot : option nat;
  deletions : list nat;
  host : Host.host
}.

Definition init (h : Host.host) : state := mkState [] None None None [] h.

Definition with_heap (st : state) (hp : list fiber) : state :=
  mkState hp (nextUnitOfWork st) (currentRoot st) (wipRoot st) (deletions st) (host st).
Definition with_host (st : state) (h : Host.host) : state :=
  mkState (heap st) (nextUnitOfWork st) (currentRoot st) (wipRoot st) (deletions st) h.
Definition with_next (st : state) (n : option nat) : state :=
  mkState (heap st) n (currentRoot st) (wipRoot st) (deletions st) (host st).
Definition with_deletions (st : state) (ds : list nat) : state :=
  mkState (heap st) (nextUnitOfWork st) (currentRoot st) (wipRoot st) ds (host st).

Definition fiber_at (st : state) (a : nat) : outcome fiber :=
  match heap st !! a with Some x => Ret x | None => Throw Fiber.BadAddress end.

Definition alloc (f : fiber) (st : state) : nat * state :=
  (length (heap st), with_heap st (heap st ++ [f])).

Definition update_fiber (a : nat) (g : fiber -> fiber) (st : state) : state :=
  match heap st !! a with
  | Some n => with_heap st (<[a := g n]> (heap st))
  | None => st
  end.

Definition set_dom (d : option nat) (n : fiber) : fiber :=
  mkFiber (type n) (props n) (children n) d (parent n) (alternate n) (effectTag n)
          (child n) (sibling n).
Definition set_effectTag (e : option effect) (n : fiber) : fiber :=
  mkFiber (type n) (props n) (children n) (dom n) (parent n) (alternate n) e
          (child n) (sibling n).
Definition set_child (c : option nat) (n : fiber) : fiber :=
  mkFiber (type n) (props n) (children n) (dom n) (parent n) (alternate n) (effectTag n)
          c (sibling n).
Definition set_sibling (c : option nat) (n : fiber) : fiber :=
  mkFiber (type n) (props n) (children n) (dom n) (parent n) (alternate n) (effectTag n)
          (child n) c.

(** [isEvent], [isProperty], [isNew(prev, next)], [isGone(prev, next)] *)
Definition isEvent (k : string) : bool := startsWith "on" k.
Definition isProperty (k : string) : bool := negb (String.eqb k "children") && negb (isEvent k).
Definition isNew (prev next : object) (k : string) : bool :=
  negb (strict_eq (get prev k) (get next k)).
Definition isGone (prev next : object) (k : string) : bool := negb (has next k).

Definition lower_ascii (c : Ascii.ascii) : Ascii.ascii :=
  let n := Ascii.nat_of_ascii c in
  if (Nat.leb 65 n && Nat.leb n 90)%bool then Ascii.ascii_of_nat (n + 32) else c.

Fixpoint toLowerCase (s : string) : string :=
  match s with
  | EmptyString => EmptyString
  | String c s' => String (lower_ascii c) (toLowerCase s')
  end.

(** [name.toLowerCase().substring(2)] *)
Definition eventType (name : string) : string :=
  let l := toLowerCase name in String.substring 2 (String.length l - 2) l.

(** [updateDom(dom, prevProps, nextProps)] *)
Definition updateDom (d : nat) (prevProps nextProps : object) (h : Host.host) : Host.host :=
  let h1 := fold_left (fun h name => setProp d name (VStr "") h)
              (List.filter (isGone prevProps nextProps)
                 (List.filter isProperty (keys prevProps))) h in
  let h2 := fold_left (fun h name => setProp d name (get nextProps name) h)
              (List.filter (isNew prevProps nextProps)
                 (List.filter isProperty (keys nextProps))) h1 in
  let h3 := fold_left (fun h name =>
                         removeEventListener d (eventType name) (get prevProps name) h)
              (List.filter (fun k => negb (has nextProps k) || isNew prevProps nextProps k)
                 (List.filter isEvent (keys prevProps))) h2 in
  fold_left (fun h name => addEventListener d (eventType name) (get nextProps name) h)
    (List.filter (isNew prevProps nextProps) (List.filter isEvent (keys nextProps))) h3.

(** [createDom(fiber)] *)
Definition createDom (n : fiber) (h : Host.host) : nat * Host.host :=
  let '(d, h1) :=
    match type n with
    | Some t =>
        if String.eqb t "TEXT_ELEMENT" then createTextNode (VStr "") h
        else createElement (VStr t) h
    | None => createElement VUndef h
    end in
  (d, fold_left (fun h name => setProp d name (get (props n) name) h)
        (List.filter (fun k => negb (String.eqb k "children")) (keys (props n))) h1).

(** [render(element, container)] *)
Definition render (e : element) (container : nat) (st : state) : state :=
  let root := mkFiber None [] [e] (Some container) None (currentRoot st) None None None in
  let '(a, st1) := alloc root st in
  mkState (heap st1) (Some a) (currentRoot st1) (Some a) [] (host st1).

(** The loop of [reconcileChildren]; [index], [oldFiber] and
    [prevSibling] are its three cursors. *)
Fixpoint reconcile_loop (fuel : nat) (wipFiber : nat) (elements : list element)
    (index : nat) (oldFiber prevSibling : option nat) (st : state) : outcome state :=
  if negb (Nat.ltb index (length elements) || bool_decide (is_Some oldFiber)) then Ret st
  else
    match fuel with
    | O => Timeout
    | S f =>
        let element := elements !! index in
        old ← match oldFiber with
              | Some a => o ← fiber_at st a; Ret (Some o)
              | None => Ret None
              end;
        let sameType :=
          match old, element with
          | Some o, Some e => bool_decide (type o = Some (e_type e))
          | _, _ => false
          end in
        (* update the node / add this node *)
        let '(newFiber, st1) :=
          match old, element with
          | Some o, Some e =>
              if sameType then
                let '(a, st') := alloc (mkFiber (type o) (e_props e) (e_children e) (dom o)
                                          (Some wipFiber) oldFiber (Some UPDATE) None None) st
                in (Some a, st')
              else
                let '(a, st') := alloc (mkFiber (Some (e_type e)) (e_props e) (e_children e)
                                          None (Some wipFiber) None (Some PLACEMENT) None None)
                                   st
                in (Some a, st')
          | None, Some e =>
              let '(a, st') := alloc (mkFiber (Some (e_type e)) (e_props e) (e_children e)
                                        None (Some wipFiber) None (Some PLACEMENT) None None)
                                 st
              in (Some a, st')
          | _, None => (None, st)
          end in
        (* delete the oldFiber's node *)
        let st2 :=
          match oldFiber with
          | Some a =>
              if sameType then st1
              else
                let st' := update_fiber a (set_effectTag (Some DELETION)) st1 in
                with_deletions st' (deletions st' ++ [a])
          | None => st1
          end in
        let oldFiber' := match old with Some o => sibling o | None => None end in
        st3 ← (if Nat.eqb index 0 then Ret (update_fiber wipFiber (set_child newFiber) st2)
               else
                 match prevSibling with
                 | Some p => Ret (update_fiber p (set_sibling newFiber) st2)
                 | None => Throw TypeError       (* prevSibling.sibling on null *)
                 end);
        reconcile_loop f wipFiber elements (S index) oldFiber' newFiber st3
    end.

(** [reconcileChildren(wipFiber, elements)] *)
Definition reconcileChildren (fuel : nat) (wipFiber : nat) (elements : list element)
    (st : state) : outcome state :=
  w ← fiber_at st wipFiber;
  oldFiber ← match alternate w with
             | Some a => o ← fiber_at st a; Ret (child o)
             | None => Ret None
             end;
  reconcile_loop fuel wipFiber elements 0 oldFiber None st.

(** The search for the next unit of work once a fiber has no child:
    the first sibling found on the way up, or [null]. *)
Fixpoint next_sibling_up (fuel : nat) (st : state) (nextFiber : option nat)
  : outcome (option nat) :=
  match nextFiber with
  | None => Ret None
  | Some a =>
      match fuel with
      | O => Timeout
      | S f =>
          n ← fiber_at st a;
          match sibling n with
          | Some sb => Ret (Some sb)
          | None => next_sibling_up f st (parent n)
          end
      end
  end.

(** [performUnitOfWork(fiber)]: the state after the unit and the next unit. *)
Definition performUnitOfWork (fuel : nat) (a : nat) (st : state)
  : outcome (option nat * state) :=
  n ← fiber_at st a;
  let st1 :=
    match dom n with
    | Some _ => st
    | None =>
        let '(d, h) := createDom n (host st) in
        update_fiber a (set_dom (Some d)) (with_host st h)
    end in
  st2 ← reconcileChildren fuel a (children n) st1;
  n2 ← fiber_at st2 a;
  match child n2 with
  | Some c => Ret (Some c, st2)
  | None => nx ← next_sibling_up fuel st2 (Some a); Ret (nx, st2)
  end.

(** [commitWork(fiber)] *)
Fixpoint commitWork (fuel : nat) (f : option nat) (st : state) : outcome state :=
  match f with
  | None => Ret st
  | Some a =>
      match fuel with
      | O => Timeout
      | S fuel' =>
          n ← fiber_at st a;
          domParent ← match parent n with
                      | Some p => pf ← fiber_at st p; Ret (dom pf)
                      | None => Throw TypeError       (* fiber.parent.dom on undefined *)
                      end;
          st1 ← match effectTag n, dom n with
                | Some PLACEMENT, Some d =>
                    match domParent with
                    | Some dp => Ret (with_host st (appendChild dp d (host st)))
                    | None => Throw TypeError
                    end
                | Some DELETION, Some d =>
                    match domParent with
                    | Some dp => Ret (with_host st (removeChild dp d (host st)))
                    | None => Throw TypeError
                    end
                | Some DELETION, None => Ret st       (* no host node: nothing removed *)
                | Some UPDATE, Some d =>
                    match alternate n with
                    | Some alt =>
                        o ← fiber_at st alt;
                        Ret (with_host st (updateDom d (props o) (props n) (host st)))
                    | None => Throw TypeError
                    end
                | _, _ => Ret st
                end;
          st2 ← commitWork fuel' (child n) st1;
          commitWork fuel' (sibling n) st2
      end
  end.

(** [deletions.forEach(commitWork)] *)
Definition commitDeletions (fuel : nat) (ds : list nat) (st : state) : outcome state :=
  foldM (fun st a => commitWork fuel (Some a) st) ds st.

(** [commitRoot()] *)
Definition commitRoot (fuel : nat) (st : state) : outcome state :=
  st1 ← commitDeletions fuel (deletions st) st;
  w ← match wipRoot st1 with
      | Some w => fiber_at st1 w
      | None => Throw TypeError
      end;
  st2 ← commitWork fuel (child w) st1;
  Ret (mkState (heap st2) (nextUnitOfWork st2) (wipRoot st2) None (deletions st2) (host st2)).

(** The [while] loop of [workLoop]: at least one unit when there is
    one, then one more for each time [deadline.timeRemaining()] still
    answers 1 or more ([more] counts those answers). *)
Fixpoint work_units (fuel : nat) (more : nat) (st : state) : outcome state :=
  match nextUnitOfWork st with
  | None => Ret st
  | Some a =>
      '(nx, st1) ← performUnitOfWork fuel a st;
      let st2 := with_next st1 nx in
      match more with
      | O => Ret st2
      | S m => work_units fuel m st2
      end
  end.

(** [workLoop(deadline)], one idle callback. *)
Definition workLoop (fuel : nat) (more : nat) (st : state) : outcome state :=
  st1 ← work_units fuel more st;
  match nextUnitOfWork st1, wipRoot st1 with
  | None, Some _ => commitRoot fuel st1
  | _, _ => Ret st1
  end.

(** The sibling chain that starts at [head], as a list of addresses. *)
Inductive chain (st : state) : option nat -> list nat -> Prop :=
| chain_nil : chain st None []
| chain_cons a f rest :
    heap st !! a = Some f -> chain st (sibling f) rest ->
    chain st (Some a) (a :: rest).

(** The old fiber at [o], when it has the type of the description [e]:
    the "same node" test of the diff. *)
Definition sameNode (st : state) (o : option nat) (e : option element)
  : option (nat * fiber) :=
  match o, e with
  | Some a, Some e =>
      match heap st !! a with
      | Some f => if bool_decide (type f = Some (e_type e)) then Some (a, f) else None
      | None => None
      end
  | _, _ => None
  end.

(** The work node made for the description [e] at a position whose old
    child is [o]: an [UPDATE] node reusing the old host node when the
    types agree, a fresh [PLACEMENT] node otherwise. *)
Definition newFiberFor (st : state) (wipFiber : nat) (o : option nat) (e : element)
  : fiber :=
  match sameNode st o (Some e) with
  | Some (a, f) =>
      mkFiber (type f) (e_props e) (e_children e) (dom f) (Some wipFiber) (Some a)
              (Some UPDATE) None None
  | None =>
      mkFiber (Some (e_type e)) (e_props e) (e_children e) None (Some wipFiber) None
              (Some PLACEMENT) None None
  end.

(** The old children that have no same-type description at their
    position, in chain order. *)
Fixpoint unmatched (st : state) (olds : list nat) (es : list element) : list nat :=
  match olds with
  | [] => []
  | a :: olds' =>
      match sameNode st (Some a) (head es) with
      | Some _ => unmatched st olds' (tail es)
      | None => a :: unmatched st olds' (tail es)
      end
  end.

(** The two writes of one iteration of the diff, named: the old fiber
    is tagged and queued; the new fiber (or [null]) is linked in. *)
Definition tagDeleted (a : nat) (st : state) : state :=
  let st' := update_fiber a (set_effectTag (Some DELETION)) st in
  with_deletions st' (deletions st' ++ [a]).

Definition linkFiber (index wipFiber : nat) (prevSibling newFiber : option nat)
    (st : state) : outcome state :=
  if Nat.eqb index 0 then Ret (update_fiber wipFiber (set_child newFiber) st)
  else
    match prevSibling with
    | Some p => Ret (update_fiber p (set_sibling newFiber) st)
    | None => Throw TypeError
    end.

(** Two versions of a fiber that differ at most in [effectTag], [child]
    and [sibling]. *)
Definition same_core (f f' : fiber) : Prop :=
  type f' = type f /\ props f' = props f /\ children f' = children f
  /\ dom f' = dom f /\ parent f' = parent f /\ alternate f' = alternate f.

(** What the loop of [reconcileChildren] has done between its entry at
    [index] in the state [st] -- [olds] being the old children still to
    visit and [prevSibling] the fiber made at the position before -- and
    its exit in the state [st']:
    - one fiber was allocated for each remaining description, in order,
      each built by [newFiberFor] and chained to the next;
    - the old children without a same-type description were tagged
      [DELETION] and queued, in chain order;
    - the first new fiber (or [null]) was linked below the parent, or
      after [prevSibling];
    - nothing else changed. *)
Definition reconciledFrom (wipFiber : nat) (elements : list element) (index : nat)
    (olds : list nat) (prevSibling : option nat) (st st' : state) : Prop :=
  let n := length elements in
  let H := length (heap st) in
  let runs := Nat.ltb index n || negb (bool_decide (olds = [])) in
  let link := if Nat.ltb index n then Some H else None in
  length (heap st') = (H + (n - index))%nat
  /\ deletions st' = deletions st ++ unmatched st olds (drop index elements)
  /\ (forall b f, heap st !! b = Some f ->
        exists f', heap st' !! b = Some f' /\ same_core f f'
          /\ effectTag f'
             = (if bool_decide (b ∈ unmatched st olds (drop index elements))
                then Some DELETION else effectTag f)
          /\ child f'
             = (if runs && Nat.eqb index 0 && bool_decide (b = wipFiber)
                then link else child f)
          /\ sibling f'
             = (if runs && negb (Nat.eqb index 0) && bool_decide (prevSibling = Some b)
                then link else sibling f))
  /\ (forall j e, elements !! (index + j)%nat = Some e ->
        heap st' !! (H + j)%nat
        = Some (set_sibling
                  (if Nat.ltb (S (index + j)) n then Some (H + S j)%nat else None)
                  (newFiberFor st wipFiber (olds !! j) e))).

(** A step that leaves the two roots alone and keeps every fiber's
    [alternate]. *)
Definition keeps_roots (st st' : state) : Prop :=
  currentRoot st' = currentRoot st /\ wipRoot st' = wipRoot st
  /\ forall a n, heap st !! a = Some n ->
       exists n', heap st' !! a = Some n' /\ alternate n' = alternate n.

(** A step that touches nothing but the host. *)
Definition only_host (st st' : state) : Prop :=
  heap st' = heap st /\ nextUnitOfWork st' = nextUnitOfWork st
  /\ currentRoot st' = currentRoot st /\ wipRoot st' = wipRoot st
  /\ deletions st' = deletions st /\ extends (host st) (host st').

(** What is left of [commitWork] on a fiber once its own effect is applied. *)
Definition commitRest (fuel : nat) (n : fiber) (st : state) : outcome state :=
  st2 ← commitWork fuel (child n) st; commitWork fuel (sibling n) st2.

(** [v] and [w] are one value: equal, or the same object. *)
Definition same_value (v w : jsval) : Prop := v = w \/ strict_eq v w = true.

(** The properties of a host node follow the props: every property key
    ([isProperty]) whose value in [props] is not [undefined] reads as
    that value on the node. *)
Definition mirrors (attrs props : object) : Prop :=
  forall k, isProperty k = true -> get props k <> VUndef ->
            same_value (get attrs k) (get props k).

(** Successive [UPDATE] commits of one host node: [updateDom] from each
    props object to the next. *)
Fixpoint runUpdates (d : nat) (prevProps : object) (nexts : list object) (h : Host.host)
  : Host.host :=
  match nexts with
  | [] => h
  | p :: ps => runUpdates d p ps (updateDom d prevProps p h)
  end.

(** The two props objects carry the same handlers: the same [on...]
    keys, each with the same function. *)
Definition same_handlers (p q : object) : Prop :=
  forall k, isEvent k = true ->
            has q k = has p k /\ (has p k = true -> strict_eq (get p k) (get q k) = true).

(** Each props object of the list keeps the handlers of the one before
    it, [p] being the first. *)
Fixpoint keeps_handlers (p : object) (nexts : list object) : Prop :=
  match nexts with
  | [] => True
  | q :: qs => same_handlers p q /\ keeps_handlers q qs
  end.

(** *** The first pass over a description, as a plan

    A description tree, numbered in pre-order: its fibers, its host
    nodes and the host calls of the first pass over it. *)

(** The number of descriptions in a tree, and in a list of trees. *)
Fixpoint count (e : element) : nat :=
  match e with Element _ _ cs => S (list_sum (map count cs)) end.

Definition forest_count (es : list element) : nat := list_sum (map count es).

(** The descriptions below the root of [e]. *)
Definition below (e : element) : nat := forest_count (e_children e).

(** The calls of [createDom] for the description [e], [d] being the new
    node. *)
Definition createCalls (d : nat) (e : element) : list hostcall :=
  (if String.eqb (e_type e) "TEXT_ELEMENT" then CreateTextNode (VStr "") d
   else CreateElement (VStr (e_type e)) d)
  :: map (fun name => SetProp d name (get (e_props e) name))
       (List.filter (fun k => negb (String.eqb k "children")) (keys (e_props e))).

(** Nodes are created in pre-order: [d] for the root of [e], then the
    nodes of its children, one subtree after the other. *)
Fixpoint creations (d : nat) (e : element) {struct e} : list hostcall :=
  match e with
  | Element _ _ cs =>
      createCalls d e
      ++ (fix forest (d : nat) (cs : list element) {struct cs} : list hostcall :=
            match cs with
            | [] => []
            | c :: cs' => creations d c ++ forest (d + count c)%nat cs'
            end) (S d) cs
  end.

Fixpoint creations_forest (d : nat) (es : list element) : list hostcall :=
  match es with
  | [] => []
  | e :: es' => creations d e ++ creations_forest (d + count e)%nat es'
  end.

(** Nodes are attached in pre-order too, each to the node of its parent
    ([dp]). *)
Fixpoint placements (dp d : nat) (e : element) {struct e} : list hostcall :=
  match e with
  | Element _ _ cs =>
      AppendChild dp d
      :: (fix forest (d' : nat) (cs : list element) {struct cs} : list hostcall :=
            match cs with
            | [] => []
            | c :: cs' => placements d d' c ++ forest (d' + count c)%nat cs'
            end) (S d) cs
  end.

Fixpoint placements_forest (dp d : nat) (es : list element) : list hostcall :=
  match es with
  | [] => []
  | e :: es' => placements dp d e ++ placements_forest dp (d + count e)%nat es'
  end.

(** The address after [a] when the chain goes on. *)
Definition nextAddr {A} (a : nat) (rest : list A) : option nat :=
  match rest with [] => None | _ => Some (S a) end.

(** The fiber [reconcileChildren] makes for a description that has no
    old fiber, and that fiber once its unit of work is done: host node
    [d], children (if any) from address [L] on. *)
Definition freshFiber (p : nat) (sib : option nat) (e : element) : fiber :=
  mkFiber (Some (e_type e)) (e_props e) (e_children e) None (Some p) None
          (Some PLACEMENT) None sib.

Definition placedFiber (p : nat) (sib : option nat) (d L : nat) (e : element) : fiber :=
  mkFiber (Some (e_type e)) (e_props e) (e_children e) (Some d) (Some p) None
          (Some PLACEMENT) (match e_children e with [] => None | _ => Some L end) sib.

(** The fibers of the trees [es] after the pass: the roots sit at the
    addresses [a], [a + 1], ...; their host nodes are numbered from [d]
    on; the fibers below the roots fill the addresses from [L] on, the
    children of a fiber side by side, subtree after subtree. *)
Fixpoint layout (p : nat) (a : nat) (sib : option nat) (d L : nat) (e : element)
    {struct e} : list (nat * fiber) :=
  match e with
  | Element _ _ cs =>
      (a, placedFiber p sib d L e)
      :: (fix forest (a' d' L' : nat) (cs : list element) {struct cs}
            : list (nat * fiber) :=
            match cs with
            | [] => []
            | c :: cs' =>
                layout a a' (nextAddr a' cs') d' L' c
                ++ forest (S a') (d' + count c)%nat
                     (L' + (count c - 1))%nat cs'
            end) L (S d) (L + length cs)%nat cs
  end.

Fixpoint layout_forest (p a d L : nat) (es : list element) : list (nat * fiber) :=
  match es with
  | [] => []
  | e :: es' =>
      layout p a (nextAddr a es') d L e
      ++ layout_forest p (S a) (d + count e)%nat (L + (count e - 1))%nat es'
  end.

(** The fibers listed are in the heap. *)
Definition holds (st : state) (l : list (nat * fiber)) : Prop :=
  Forall (fun af => heap st !! af.1 = Some af.2) l.

(** The chain of fresh fibers for [es] under [p], from address [a] on. *)
Fixpoint freshChain (p a : nat) (es : list element) : list (nat * fiber) :=
  match es with
  | [] => []
  | e :: es' => (a, freshFiber p (nextAddr a es') e) :: freshChain p (S a) es'
  end.

(** The climb of [performUnitOfWork] from a fiber that has no child:
    [k] fibers are visited before the first sibling is found, or the
    root is passed. *)
Inductive climbs (st : state) : nat -> option nat -> option nat -> Prop :=
| climbs_top : climbs st 0 None None
| climbs_sibling a f s :
    heap st !! a = Some f -> sibling f = Some s -> climbs st 1 (Some a) (Some s)
| climbs_parent a f k nx :
    heap st !! a = Some f -> sibling f = None -> climbs st k (parent f) nx ->
    climbs st (S k) (Some a) nx.

(** Every fiber of [st] is still there in [st'], with the same [parent]
    and [sibling]. *)
Definition links_kept (st st' : state) : Prop :=
  forall b f, heap st !! b = Some f ->
    exists f', heap st' !! b = Some f' /\ sibling f' = sibling f /\ parent f' = parent f.

(** *** A second pass, over a description of the same shape *)

(** Two descriptions of the same shape: the same types at the same
    places. *)
Fixpoint same_shape (e e' : element) {struct e} : bool :=
  match e, e' with
  | Element t _ cs, Element t' _ cs' =>
      String.eqb t t'
      && (fix forest (cs cs' : list element) {struct cs} : bool :=
            match cs, cs' with
            | [], [] => true
            | c :: cs, c' :: cs' => same_shape c c' && forest cs cs'
            | _, _ => false
            end) cs cs'
  end.

Fixpoint same_shape_forest (es es' : list element) : bool :=
  match es, es' with
  | [], [] => true
  | e :: es, e' :: es' => same_shape e e' && same_shape_forest es es'
  | _, _ => false
  end.

(** The [UPDATE] commits of a pass over [e'] whose old tree is [e]:
    [updateDom] from the old props to the new ones, node by node in
    pre-order ([d] is the node of the root). *)
Fixpoint updates (d : nat) (e e' : element) (h : Host.host) {struct e} : Host.host :=
  match e, e' with
  | Element _ p cs, Element _ p' cs' =>
      (fix forest (d : nat) (cs cs' : list element) (h : Host.host) {struct cs}
         : Host.host :=
         match cs, cs' with
         | c :: cs, c' :: cs' => forest (d + count c)%nat cs cs' (updates d c c' h)
         | _, _ => h
         end) (S d) cs cs' (updateDom d p p' h)
  end.

Fixpoint updates_forest (d : nat) (es es' : list element) (h : Host.host) : Host.host :=
  match es, es' with
  | e :: es, e' :: es' => updates_forest (d + count e)%nat es es' (updates d e e' h)
  | _, _ => h
  end.

(** A call that writes a property or changes a listener. *)
Definition is_update_call (c : hostcall) : bool :=
  match c with
  | SetProp _ _ _ | AddEventListener _ _ _ | RemoveEventListener _ _ _ => true
  | _ => false
  end.

(** The fiber [reconcileChildren] makes for a description whose old
    fiber [alt] has its type, and that fiber once its unit of work is
    done. *)
Definition pendingFiber (p : nat) (sib : option nat) (alt d : nat) (e : element) : fiber :=
  mkFiber (Some (e_type e)) (e_props e) (e_children e) (Some d) (Some p) (Some alt)
          (Some UPDATE) None sib.

Definition updatedFiber (p : nat) (sib : option nat) (alt d L : nat) (e : element) : fiber :=
  mkFiber (Some (e_type e)) (e_props e) (e_children e) (Some d) (Some p) (Some alt)
          (Some UPDATE) (match e_children e with [] => None | _ => Some L end) sib.

(** The fibers of the trees [es] after a second pass: as in [layout],
    each with its old fiber as [alternate]; [oa] and [oL] are to the old
    fibers what [a] and [L] are to the new ones. *)
Fixpoint relayout (p a oa : nat) (sib : option nat) (d L oL : nat) (e : element)
    {struct e} : list (nat * fiber) :=
  match e with
  | Element _ _ cs =>
      (a, updatedFiber p sib oa d L e)
      :: (fix forest (a' oa' d' L' oL' : nat) (cs : list element) {struct cs}
            : list (nat * fiber) :=
            match cs with
            | [] => []
            | c :: cs' =>
                relayout a a' oa' (nextAddr a' cs') d' L' oL' c
                ++ forest (S a') (S oa') (d' + count c)%nat
                     (L' + (count c - 1))%nat (oL' + (count c - 1))%nat cs'
            end) L oL (S d) (L + length cs)%nat (oL + length cs)%nat cs
  end.

Fixpoint relayout_forest (p a oa d L oL : nat) (es : list element) : list (nat * fiber) :=
  match es with
  | [] => []
  | e :: es' =>
      relayout p a oa (nextAddr a es') d L oL e
      ++ relayout_forest p (S a) (S oa) (d + count e)%nat
           (L + (count e - 1))%nat (oL + (count e - 1))%nat es'
  end.

(** The chain of pending fibers for [es] under [p], from address [a]
    on, their old fibers from [oa] on. *)
Fixpoint pendingChain (p a oa d : nat) (es : list element) : list (nat * fiber) :=
  match es with
  | [] => []
  | e :: es' =>
      (a, pendingFiber p (nextAddr a es') oa d e)
      :: pendingChain p (S a) (S oa) (d + count e)%nat es'
  end.

(** From [h] to [h'] no node was created and the only calls issued
    write a property or change a listener. *)
Definition only_updates (h h' : Host.host) : Prop :=
  length (nodes h') = length (nodes h)
  /\ exists ext, calls h' = calls h ++ ext /\ forallb is_update_call ext = true.

(** No prop of the tree is [NaN] (the one value that differs from
    itself). *)
Fixpoint no_NaN (e : element) {struct e} : Prop :=
  match e with
  | Element _ p cs =>
      (forall k v, In (k, v) p -> v <> VNaN)
      /\ (fix forest (cs : list element) {struct cs} : Prop :=
            match cs with
            | [] => True
            | c :: cs' => no_NaN c /\ forest cs'
            end) cs
  end.

Fixpoint no_NaN_forest (es : list element) : Prop :=
  match es with
  | [] => True
  | e :: es' => no_NaN e /\ no_NaN_forest es'
  end.

End Didact.

(** ** Data used in the examples *)

Module Examples.

(** A host with the root container as its node 0. *)
Definition host0 : Host.host := (Host.alloc Host.KContainer Host.empty_host).2.

(** *** For the work-loop renderer *)

(** [<div id='foo'><a>bar</a><b /></div>], the element of the source. *)
Definition div_a_b : Didact.element :=
  Didact.Element "div" [("id", VStr "foo")]
    [Didact.Element "a" [] [Didact.createTextElement (VStr "bar")];
     Didact.Element "b" [] []].

(** [<div id='foo'></div>] *)
Definition div_empty : Didact.element := Didact.Element "div" [("id", VStr "foo")] [].

(** [<div id='foo'><c /><d /></div>] *)
Definition div_c_d : Didact.element :=
  Didact.Element "div" [("id", VStr "foo")]
    [Didact.Element "c" [] []; Didact.Element "d" [] []].

(** [<div id='bar' title='t'><a>baz</a><b /></div>]: the shape of
    [div_a_b], other props. *)
Definition div_a_b_next : Didact.element :=
  Didact.Element "div" [("id", VStr "bar"); ("title", VStr "t")]
    [Didact.Element "a" [] [Didact.createTextElement (VStr "baz")];
     Didact.Element "b" [] []].

(** [render(element, container)] followed by idle callbacks that run the
    pass to its commit. *)
Definition renderAndCommit (e : Didact.element) (st : Didact.state) : outcome Didact.state :=
  Didact.workLoop 64 64 (Didact.render e 0 st).

(** The state once [div_a_b] has been rendered and committed. *)
Definition first_pass : outcome Didact.state := renderAndCommit div_a_b (Didact.init host0).

(** A fiber [p] (host node 0) whose previous generation [q] has the two
    children [a] and [b]; [p] is about to be reconciled. *)
Definition two_old_children : Didact.state :=
  Didact.mkState
    [ Didact.mkFiber (Some "div") [] [] (Some 0%nat) None None None (Some 1%nat) None;
      Didact.mkFiber (Some "a") [] [] (Some 1%nat) (Some 0%nat) None
                     (Some Didact.PLACEMENT) None (Some 2%nat);
      Didact.mkFiber (Some "b") [] [] (Some 2%nat) (Some 0%nat) None
                     (Some Didact.PLACEMENT) None None;
      Didact.mkFiber (Some "div") [] [] (Some 0%nat) None (Some 0%nat) None None None ]
    (Some 3%nat) (Some 0%nat) (Some 3%nat) [] host0.

(** A deleted fiber (address 1) that owns no host node, above a child
    (address 2) that owns host node 2; the parent (address 0) owns host
    node 1.  The child carries the tag of its last commit; the
    work-in-progress root (address 4) has no child left. *)
Definition deleted_without_dom : Didact.state :=
  Didact.mkState
    [ Didact.mkFiber (Some "div") [] [] (Some 1%nat) None None None (Some 1%nat) None;
      Didact.mkFiber (Some "App") [] [] None (Some 0%nat) None
                     (Some Didact.DELETION) (Some 2%nat) None;
      Didact.mkFiber (Some "span") [] [] (Some 2%nat) (Some 1%nat) (Some 3%nat)
                     (Some Didact.UPDATE) None None;
      Didact.mkFiber (Some "span") [] [] (Some 2%nat) (Some 1%nat) None
                     (Some Didact.PLACEMENT) None None;
      Didact.mkFiber None [] [] (Some 0%nat) None None None None None ]
    None None (Some 4%nat) [1%nat]
    (Host.alloc (Host.KElement (VStr "span"))
       (Host.alloc (Host.KElement (VStr "div")) host0).2).2.

(** A pass ready to commit: the old child [a] (address 1, host node 1)
    is queued for deletion and the new child [c] (address 2, host node
    2) is to be placed under the root (address 0, the container). *)
Definition pending_commit : Didact.state :=
  Didact.mkState
    [ Didact.mkFiber None [] [] (Some 0%nat) None None None (Some 2%nat) None;
      Didact.mkFiber (Some "a") [] [] (Some 1%nat) (Some 0%nat) None
                     (Some Didact.DELETION) None None;
      Didact.mkFiber (Some "c") [] [] (Some 2%nat) (Some 0%nat) None
                     (Some Didact.PLACEMENT) None None ]
    None None (Some 0%nat) [1%nat]
    (Host.alloc (Host.KElement (VStr "c"))
       (Host.alloc (Host.KElement (VStr "a")) host0).2).2.

(** *** For the fiber engine *)

(** The class component of the entry module:
    [<div style=... onClick=h1><h2 onClick=h2>...</h2></div>];
    handlers are the functions at addresses 1 and 2. *)
Definition h2_element : jsval :=
  React.createElement 10 (VStr "h2") (VObj 11 [("onClick", VFun 2)]) [VStr "h2"].
Definition div_element : jsval :=
  React.createElement 20 (VStr "div")
    (VObj 21 [("style", VObj 22 [("color", VStr "blue")]); ("onClick", VFun 1)])
    [h2_element].

Definition AppClassComponent : Main.components :=
  Main.mkComponents (fun _ _ => VNull) (fun _ _ => VUndef) (fun _ _ _ => div_element).

Definition app_element : jsval := React.createElement 30 (VClass 0) VNull [].

(** Module initialisation followed by [render()]. *)
Definition app_rendered : outcome (Main.mstate * list Main.step) :=
  m ← Main.init 40 app_element host0 0; Main.render AppClassComponent 64 m.

(** [<p>hello</p>] rendered the same way. *)
Definition hello_element : jsval := React.createElement 50 (VStr "p") VNull [VStr "hello"].
Definition hello_rendered : outcome (Main.mstate * list Main.step) :=
  m ← Main.init 40 hello_element host0 0; Main.render AppClassComponent 64 m.

(** A class component on a later render: the work-in-progress fiber
    (address 1) and its current twin (address 0) share the queue object
    0 and the instance 0, whose state is [{ count: 0, name: 'x' }];
    [setState] was called with [{ count: 1 }], [{ count: 2, seen: true }]
    and [{ name: 'y' }], in that order.  [render] shows the state. *)
Definition Counter : Main.components :=
  Main.mkComponents (fun _ _ => VNull) (fun _ _ => VUndef)
    (fun _ _ state =>
       React.createElement 60 (VStr "p") (VObj 61 [("state", state)]) []).

Definition counter_store : Fiber.store :=
  let cur := Fiber.mkFiber (Some ClassComponent) (VObj 1 []) VNull (VClass 0) None None None
               (VObj 1 []) 0 NoFlags NoLanes NoLanes (Some (Fiber.SInst 0)) (Some 1%nat) in
  let wip := Fiber.mkFiber (Some ClassComponent) (VObj 1 []) VNull (VClass 0) None None None
               (VObj 1 []) 0 NoFlags NoLanes NoLanes (Some (Fiber.SInst 0)) (Some 0%nat) in
  Main.enqueueUpdate 0 (VObj 5 [("name", VStr "y")])
    (Main.enqueueUpdate 0 (VObj 4 [("count", VNum 2); ("seen", VBool true)])
       (Main.enqueueUpdate 0 (VObj 3 [("count", VNum 1)])
          (Fiber.mkStore [cur; wip] [None] []
             [Fiber.mkInstance 0 (VObj 1 [])
                (VObj 2 [("count", VNum 0); ("name", VStr "x")]) (Some 0%nat)]
             host0 10))).

Definition plain (t : option WorkTag) (ret ch sb : option nat) (sn : option Fiber.snode)
  : Fiber.FiberNode :=
  Fiber.mkFiber t (VObj 0 []) VNull VNull ret ch sb (VObj 0 []) 0 NoFlags NoLanes NoLanes
                sn None.

(** A host fiber [w] (address 0) being completed, with two children: a
    function component that rendered nothing (address 1) and, after it,
    a completed host fiber (address 2) owning host node 1. *)
Definition empty_component_then_span : Fiber.store :=
  Fiber.mkStore
    [ plain (Some HostComponent) None (Some 1%nat) None None;
      plain (Some FunctionComponent) (Some 0%nat) None (Some 2%nat) None;
      plain (Some HostComponent) (Some 0%nat) None None (Some (Fiber.SDom 1)) ]
    [None] [] []
    (Host.alloc (Host.KElement (VStr "div"))
       (Host.alloc (Host.KElement (VStr "span")) host0).2).2
    0.

(** A work tree with siblings: the root (address 0) has the children 1
    and 2, fiber 1 has the children 3 and 4, and fiber 4 has the child 5. *)
Definition bushy_tree : Main.tree :=
  Main.Node 0 [Main.Node 1 [Main.Node 3 []; Main.Node 4 [Main.Node 5 []]];
               Main.Node 2 []].

Definition bushy_store : Fiber.store :=
  Fiber.mkStore
    [ plain (Some HostRoot) None (Some 1%nat) None None;
      plain (Some HostComponent) (Some 0%nat) (Some 3%nat) (Some 2%nat) None;
      plain (Some HostComponent) (Some 0%nat) None None None;
      plain (Some HostText) (Some 1%nat) None (Some 4%nat) None;
      plain (Some FunctionComponent) (Some 1%nat) (Some 5%nat) None None;
      plain (Some HostComponent) (Some 4%nat) None None None ]
    [None] [] [] host0 0.

(** The same shape with every fiber in place: under the host fiber 1
    being completed, a text fiber (3, host node 1) and a function
    component (4) that rendered a host fiber (5, host node 2). *)
Definition completed_children : Fiber.store :=
  Fiber.mkStore
    [ plain (Some HostRoot) None (Some 1%nat) None None;
      plain (Some HostComponent) (Some 0%nat) (Some 3%nat) (Some 2%nat) None;
      plain (Some HostComponent) (Some 0%nat) None None None;
      plain (Some HostText) (Some 1%nat) None (Some 4%nat) (Some (Fiber.SDom 1));
      plain (Some FunctionComponent) (Some 1%nat) (Some 5%nat) None None;
      plain (Some HostComponent) (Some 4%nat) None None (Some (Fiber.SDom 2)) ]
    [None] [] []
    (Host.alloc (Host.KElement (VStr "span"))
       (Host.alloc (Host.KText (VStr "t")) host0).2).2
    0.

End Examples.

(* ===================================================================== *)
(** * Properties *)
(* ===================================================================== *)

Lemma foldM_app {A B} (f : B -> A -> outcome B) l1 l2 b :
  foldM f (l1 ++ l2) b = (b' ← foldM f l1 b; foldM f l2 b').
Proof.
  revert b. induction l1 as [|x l1 IH]; intros b; simpl; [done|].
  destruct (f b x); simpl; auto.
Qed.


(** ** Property diff (dom.js) *)

Section DiffProperties.
Import Dom.

Lemma bind_Ret {A B} (a : A) (k : A -> outcome B) : (Ret a ≫= k) = k a.
Proof. reflexivity. Qed.

Lemma truthy_object v : is_object v = true -> truthy v = true.
Proof. by destruct v. Qed.

Lemma is_object_inv v : is_object v = true -> exists r fs, v = VObj r fs.
Proof. destruct v; simpl; try discriminate; eauto. Qed.

Lemma set_member_object su k x :
  is_object su = true ->
  exists su', set_member su k x = Ret su' /\ is_object su' = true.
Proof.
  intros H. apply is_object_inv in H as (r & fs & ->). simpl. eauto.
Qed.

Lemma get_member_object v k :
  is_object v = true -> exists x, get_member v k = Ret x.
Proof. intros H. apply is_object_inv in H as (r & fs & ->). simpl. eauto. Qed.

Lemma entries_object v :
  is_object v = true -> exists es, entries v = Ret es.
Proof. intros H. apply is_object_inv in H as (r & fs & ->). simpl. eauto. Qed.

(** A loop that only writes sub-keys keeps [styleUpdates] an object. *)
Lemma style_loop_object (f : jsval -> string * jsval -> outcome jsval) es :
  (forall su e, is_object su = true ->
     exists su', f su e = Ret su' /\ is_object su' = true) ->
  forall su, is_object su = true ->
  exists su', foldM f es su = Ret su' /\ is_object su' = true.
Proof.
  intros Hf. induction es as [|e es IH]; intros su Hsu; simpl.
  - eauto.
  - destruct (Hf su e Hsu) as (su1 & -> & H1). simpl. auto.
Qed.

Lemma lookup_key_In k (o : object) v : lookup_key k o = Some v -> In (k, v) o.
Proof.
  induction o as [|[k' v'] o IH]; simpl; [discriminate|].
  destruct (String.eqb k k') eqn:E.
  - apply String.eqb_eq in E. intros [= ->]. subst. auto.
  - auto.
Qed.

Lemma style_ok_In p v : style_ok p = true -> In ("style", v) p -> is_object v = true.
Proof.
  unfold style_ok. rewrite forallb_forall. intros H Hin.
  apply (H _ Hin).
Qed.

Lemma style_ok_get p :
  style_ok p = true -> get p "style" = VUndef \/ is_object (get p "style") = true.
Proof.
  intros H. unfold get. destruct (lookup_key "style" p) eqn:E; [right|left; done].
  apply lookup_key_In in E. eauto using style_ok_In.
Qed.

(** One step of the first loop: it cannot throw, appends an even number
    of items, and appends exactly [k, null] for a key that reads falsy in
    [newProps] and is neither [style], [children] nor a handler. *)
Lemma diff_old_step newProps payload su k v :
  (String.eqb k "style" = true -> is_object v = true) ->
  is_object su = true ->
  exists ext su',
    diff_old newProps (payload, su) (k, v) = Ret (payload ++ ext, su')
    /\ is_object su' = true /\ Nat.Even (length ext)
    /\ (truthy (get newProps k) = false -> String.eqb k "style" = false ->
        String.eqb k "children" = false -> startsWith "on" k = false ->
        ext = [VStr k; VNull]).
Proof.
  intros Hv Hsu. unfold diff_old.
  destruct (truthy (get newProps k)) eqn:Et.
  { exists [], su. rewrite app_nil_r. repeat split; auto; try discriminate. by exists 0%nat. }
  destruct (String.eqb k "style") eqn:Es.
  { destruct (entries_object v (Hv eq_refl)) as (es & ->). simpl.
    destruct (style_loop_object (fun su e => set_member su e.1 (VStr "")) es) with (su := su)
      as (su' & -> & Hsu'); auto.
    { intros. by apply set_member_object. }
    simpl. exists [], su'. rewrite app_nil_r. repeat split; auto; try discriminate.
    by exists 0%nat. }
  destruct (startsWith "on" k || String.eqb k "children") eqn:Eo.
  { exists [], su. rewrite app_nil_r. repeat split; auto.
    - by exists 0%nat.
    - intros _ _ Hc Ho. rewrite Hc, Ho in Eo. discriminate. }
  exists [VStr k; VNull], su. repeat split; auto. by exists 1%nat.
Qed.

(** One step of the second loop: it cannot throw and appends an even
    number of items. *)
Lemma diff_new_step oldProps payload su k v :
  style_ok oldProps = true ->
  (String.eqb k "style" = true -> is_object v = true) ->
  is_object su = true ->
  exists ext su',
    diff_new oldProps (payload, su) (k, v) = Ret (payload ++ ext, su')
    /\ is_object su' = true /\ Nat.Even (length ext).
Proof.
  intros Hold Hv Hsu. unfold diff_new.
  destruct (strict_eq v (get oldProps k)) eqn:Eq.
  { exists [], su. rewrite app_nil_r. repeat split; auto. by exists 0%nat. }
  destruct (String.eqb k "style") eqn:Es.
  { apply String.eqb_eq in Es. subst k. specialize (Hv eq_refl).
    destruct (style_ok_get _ Hold) as [-> | Hlast].
    - exists [], v. rewrite app_nil_r. repeat split; auto. by exists 0%nat.
    - set (lastProp := get oldProps "style") in *.
      rewrite (truthy_object _ Hlast).
      destruct (entries_object lastProp Hlast) as (les & ->). rewrite bind_Ret.
      destruct (style_loop_object
                  (fun su e => x ← get_member v e.1;
                               if truthy x then Ret su else set_member su e.1 (VStr ""))
                  les) with (su := su) as (su1 & -> & H1); auto.
      { intros su0 e H0. destruct (get_member_object v e.1 Hv) as (x & ->).
        rewrite bind_Ret. destruct (truthy x); eauto using set_member_object. }
      rewrite bind_Ret. destruct (entries_object v Hv) as (ves & ->). rewrite bind_Ret.
      destruct (style_loop_object
                  (fun su e => y ← get_member lastProp e.1;
                               if strict_eq e.2 y then Ret su else set_member su e.1 e.2)
                  ves) with (su := su1) as (su2 & -> & H2); auto.
      { intros su0 e H0. destruct (get_member_object lastProp e.1 Hlast) as (y & ->).
        rewrite bind_Ret. destruct (strict_eq e.2 y); eauto using set_member_object. }
      rewrite bind_Ret. exists [], su2. rewrite app_nil_r. repeat split; auto.
      by exists 0%nat. }
  destruct (String.eqb k "children") eqn:Ec.
  { destruct (is_primitive_text v).
    - exists [VStr k; v], su. repeat split; auto. by exists 1%nat.
    - exists [], su. rewrite app_nil_r. repeat split; auto. by exists 0%nat. }
  destruct (startsWith "on" k).
  { exists [], su. rewrite app_nil_r. repeat split; auto. by exists 0%nat. }
  exists [VStr k; v], su. repeat split; auto. by exists 1%nat.
Qed.

Lemma Even_app_length {A} (l1 l2 : list A) :
  Nat.Even (length l1) -> Nat.Even (length l2) -> Nat.Even (length (l1 ++ l2)).
Proof. intros [a Ha] [b Hb]. exists (a + b)%nat. rewrite length_app. lia. Qed.

Lemma schedules_app k v payload ext :
  schedules k v payload -> schedules k v (payload ++ ext).
Proof.
  intros (pre & post & -> & He). exists pre, (post ++ ext). split; [|done].
  by rewrite <- !app_assoc.
Qed.

Lemma style_ok_cons k v p :
  style_ok ((k, v) :: p) = true ->
  (String.eqb k "style" = true -> is_object v = true) /\ style_ok p = true.
Proof.
  unfold style_ok. simpl. intros H. apply andb_true_iff in H as [H1 H2].
  split; [|done]. intros E. by rewrite E in H1.
Qed.

(** The whole first loop. *)
Lemma diff_old_loop newProps oldProps :
  style_ok oldProps = true ->
  forall payload su, is_object su = true -> Nat.Even (length payload) ->
  exists payload' su',
    foldM (diff_old newProps) oldProps (payload, su) = Ret (payload', su')
    /\ is_object su' = true /\ Nat.Even (length payload')
    /\ (forall k, schedules k VNull payload -> schedules k VNull payload')
    /\ (forall k, has oldProps k = true -> has newProps k = false ->
          String.eqb k "style" = false -> String.eqb k "children" = false ->
          startsWith "on" k = false -> schedules k VNull payload').
Proof.
  induction oldProps as [|[k v] old IH]; intros Hok payload su Hsu Hev.
  - exists payload, su. simpl. repeat split; auto. intros k Hh. discriminate.
  - apply style_ok_cons in Hok as [Hv Hok].
    destruct (diff_old_step newProps payload su k v Hv Hsu)
      as (ext & su1 & Hstep & Hsu1 & Hext & Hclear).
    destruct (IH Hok (payload ++ ext) su1 Hsu1 (Even_app_length _ _ Hev Hext))
      as (payload' & su' & Hrest & Hsu' & Hev' & Hkeep & Hall).
    exists payload', su'. cbn [foldM]. rewrite Hstep. cbn. rewrite Hrest.
    repeat split; auto.
    + intros k0 Hs. apply Hkeep. by apply schedules_app.
    + intros k0 Hin Hnot Hs Hc Ho. unfold has in Hin. cbn [lookup_key] in Hin.
      destruct (String.eqb k0 k) eqn:E.
      * apply String.eqb_eq in E. subst k0. apply Hkeep.
        rewrite Hclear; auto.
        -- exists payload, []. by rewrite app_nil_r.
        -- unfold has in Hnot. unfold get. by destruct (lookup_key k newProps).
      * apply Hall; auto.
Qed.

(** The whole second loop. *)
Lemma diff_new_loop oldProps newProps :
  style_ok oldProps = true -> style_ok newProps = true ->
  forall payload su, is_object su = true -> Nat.Even (length payload) ->
  exists payload' su',
    foldM (diff_new oldProps) newProps (payload, su) = Ret (payload', su')
    /\ is_object su' = true
    /\ (forall k v, schedules k v payload -> schedules k v payload').
Proof.
  intros Hold. induction newProps as [|[k v] new IH]; intros Hok payload su Hsu Hev.
  - exists payload, su. simpl. auto.
  - apply style_ok_cons in Hok as [Hv Hok].
    destruct (diff_new_step oldProps payload su k v Hold Hv Hsu)
      as (ext & su1 & Hstep & Hsu1 & Hext).
    destruct (IH Hok (payload ++ ext) su1 Hsu1 (Even_app_length _ _ Hev Hext))
      as (payload' & su' & Hrest & Hsu' & Hkeep).
    exists payload', su'. cbn [foldM]. rewrite Hstep. cbn. rewrite Hrest.
    repeat split; auto. intros k0 v0 Hs. apply Hkeep. by apply schedules_app.
Qed.

Lemma schedules_nonempty k v payload :
  schedules k v payload -> (0 <? length payload)%nat = true.
Proof.
  intros (pre & post & -> & _). apply Nat.ltb_lt. rewrite length_app. simpl. lia.
Qed.



End DiffProperties.

(** *** Unchanged props *)

Section SameProps.
Import Dom.

Lemma foldM_fixed {A B} (f : B -> A -> outcome B) (l : list A) (b : B) :
  (forall x, In x l -> f b x = Ret b) -> foldM f l b = Ret b.
Proof.
  induction l as [|x l IH]; intros H; simpl; [done|].
  rewrite (H x) by (by left). cbn. apply IH. intros y Hy. apply H. by right.
Qed.

Lemma lookup_key_first k v (o : object) :
  In (k, v) o -> exists v', lookup_key k o = Some v' /\ In (k, v') o.
Proof.
  induction o as [|[k' v'] o IH]; simpl; [done|].
  intros [[= -> ->] | Hin].
  - rewrite String.eqb_refl. eauto.
  - destruct (String.eqb k k') eqn:E.
    + apply String.eqb_eq in E. subst. eauto.
    + destruct (IH Hin) as (w & ? & ?). eauto.
Qed.

Lemma lookup_key_NoDup k v (o : object) :
  NoDup (keys o) -> In (k, v) o -> lookup_key k o = Some v.
Proof.
  induction o as [|[k' v'] o IH]; simpl; [done|].
  intros Hnd. apply NoDup_cons in Hnd as [Hk Hnd].
  intros [[= -> ->] | Hin].
  - by rewrite String.eqb_refl.
  - destruct (String.eqb k k') eqn:E.
    + apply String.eqb_eq in E. subst. exfalso. apply Hk.
      apply list_elem_of_In. change k' with (fst (k', v)). by apply in_map.
    + auto.
Qed.

Lemma strict_eq_refl_truthy v : truthy v = true -> strict_eq v v = true.
Proof.
  destruct v; simpl; try done; intros _.
  - by destruct b.
  - apply Z.eqb_refl.
  - apply String.eqb_refl.
  - apply Nat.eqb_refl.
  - apply Nat.eqb_refl.
  - apply Nat.eqb_refl.
  - apply Nat.eqb_refl.
Qed.

(** X5. On props whose values are all truthy, [diffProperties] of a
    props object against itself answers [null]: nothing is scheduled,
    whatever the keys ([style], [children] and handlers included). *)
Lemma diffProperties_same_truthy (r : nat) (p : object) :
  NoDup (keys p) ->
  (forall k v, In (k, v) p -> truthy v = true) ->
  diffProperties r p p = Ret None.
Proof.
  intros Hnd Ht. unfold diffProperties.
  rewrite foldM_fixed.
  - cbn. rewrite foldM_fixed; [reflexivity|].
    intros [k v] Hin. unfold diff_new. unfold get.
    rewrite (lookup_key_NoDup k v p Hnd Hin).
    by rewrite (strict_eq_refl_truthy v (Ht k v Hin)).
  - intros [k v] Hin. unfold diff_old.
    destruct (lookup_key_first k v p Hin) as (v' & Hl & Hin').
    unfold get. rewrite Hl. by rewrite (Ht k v' Hin').
Qed.

Lemma diffProperties_same_truthy_witness :
  diffProperties 0 [("id", VStr "a"); ("style", VObj 1 [("color", VStr "red")]);
                    ("onClick", VFun 2); ("children", VStr "x")]
                   [("id", VStr "a"); ("style", VObj 1 [("color", VStr "red")]);
                    ("onClick", VFun 2); ("children", VStr "x")] = Ret None.
Proof.
  apply diffProperties_same_truthy.
  - apply (bool_decide_unpack (NoDup _)). vm_compute. exact I.
  - intros k v [[= <- <-]|[[= <- <-]|[[= <- <-]|[[= <- <-]|[]]]]]; reflexivity.
Defined.

(** C6. With [oldProps = newProps = { size: 0 }] nothing changed, yet
    [diffProperties] answers [['size', null]]: the first loop tests
    [newProps[k]] for truthiness, so a key that is present with a falsy
    value is scheduled for clearing. *)
Theorem diffProperties_identical_props_not_empty :
  diffProperties 0 [("size", VNum 0)] [("size", VNum 0)]
  = Ret (Some [VStr "size"; VNull]).
Proof. reflexivity. Qed.

End SameProps.

(** ** Host calls only ever extend the log *)

Section HostLog.
Import Host.

Lemma extends_refl h : extends h h.
Proof. exists []. by rewrite app_nil_r. Qed.

Lemma extends_trans h1 h2 h3 : extends h1 h2 -> extends h2 h3 -> extends h1 h3.
Proof.
  intros [e1 H1] [e2 H2]. exists (e1 ++ e2). by rewrite H2, H1, app_assoc.
Qed.

Lemma extends_log c h : extends h (log c h).
Proof. by exists [c]. Qed.

Lemma extends_update_node d f h : extends h (update_node d f h).
Proof.
  unfold update_node. destruct (nodes h !! d); simpl; apply extends_refl || idtac.
  exists []. simpl. by rewrite app_nil_r.
Qed.

Lemma extends_setProp d k v h : extends h (setProp d k v h).
Proof.
  unfold setProp. eapply extends_trans; [apply extends_update_node | apply extends_log].
Qed.

Lemma extends_fold {A} (f : Host.host -> A -> Host.host) (l : list A) h :
  (forall h x, extends h (f h x)) -> extends h (fold_left f l h).
Proof.
  intros Hf. revert h. induction l as [|x l IH]; intros h; simpl.
  - apply extends_refl.
  - eapply extends_trans; [apply Hf | apply IH].
Qed.

Lemma extends_setStyle d k v h : extends h (setStyle d k v h).
Proof.
  unfold setStyle. eapply extends_trans; [apply extends_update_node | apply extends_log].
Qed.

Lemma extends_In c h h' : extends h h' -> In c (calls h) -> In c (calls h').
Proof. intros [ext ->] H. apply in_or_app. by left. Qed.

End HostLog.

(** ** Reconciliation and commit in the work-loop renderer *)

Section DidactFacts.
Import Host Didact Examples.

(** C1. A parent whose previous generation has two children more than
    the new description array: [reconcileChildren] tags and queues both
    old children, then dereferences the [null] [prevSibling] and throws,
    so the step produces no re-linked child chain.  The state arises in
    an ordinary session: render [<div><a>bar</a><b/></div>], then
    [<div></div>]. *)
Theorem reconcileChildren_throws_on_two_extra_old_children :
  reconcileChildren 16 3 [] two_old_children = Throw TypeError
  /\ (s ← first_pass; renderAndCommit div_empty s) = Throw TypeError.
Proof. split; vm_compute; reflexivity. Qed.

(** With a single extra old child the same step goes through: the old
    child is tagged [DELETION] and queued, and the parent is left
    without a child. *)
Example reconcileChildren_one_extra_old_child :
  exists st',
    reconcileChildren 16 3 []
      (update_fiber 1 (set_sibling None) two_old_children) = Ret st'
    /\ deletions st' = [1%nat]
    /\ (effectTag <$> heap st' !! 1%nat) = Some (Some DELETION)
    /\ (child <$> heap st' !! 3%nat) = Some None.
Proof. eexists. split; [vm_compute; reflexivity|]. repeat split. Qed.

(** The three rules side by side.  The previous generation has the
    children [a] (host node 1) and [b] (host node 2); the new array is
    [<a id='1'/>], [<c/>], [<d/>].  Position 0 keeps its type: the new
    fiber is tagged [UPDATE], reuses host node 1, carries the new props
    and points at the old fiber.  Position 1 changes type: a fresh
    [PLACEMENT] fiber, and the old [b] is tagged [DELETION] and queued.
    Position 2 is new: a fresh [PLACEMENT] fiber.  The new fibers are
    chained in the order of the array. *)
Example reconcileChildren_update_placement_deletion :
  exists st',
    reconcileChildren 16 3
      [Element "a" [("id", VStr "1")] []; Element "c" [] []; Element "d" [] []]
      two_old_children = Ret st'
    /\ drop 4 (heap st')
       = [ mkFiber (Some "a") [("id", VStr "1")] [] (Some 1%nat) (Some 3%nat) (Some 1%nat)
                   (Some UPDATE) None (Some 5%nat);
           mkFiber (Some "c") [] [] None (Some 3%nat) None (Some PLACEMENT) None
                   (Some 6%nat);
           mkFiber (Some "d") [] [] None (Some 3%nat) None (Some PLACEMENT) None None ]
    /\ (child <$> heap st' !! 3%nat) = Some (Some 4%nat)
    /\ (effectTag <$> heap st' !! 2%nat) = Some (Some DELETION)
    /\ (effectTag <$> heap st' !! 1%nat) = Some (Some PLACEMENT)
    /\ deletions st' = [2%nat].
Proof. eexists. split; [vm_compute; reflexivity|]. repeat split. Qed.


Lemma extends_updateDom d prev nxt h : extends h (updateDom d prev nxt h).
Proof.
  unfold updateDom.
  repeat (eapply extends_trans; [|apply extends_fold; intros;
            first [apply extends_setProp | apply extends_log]]).
  apply extends_refl.
Qed.

Lemma only_host_refl st : only_host st st.
Proof. repeat split. apply extends_refl. Qed.

Lemma only_host_trans s1 s2 s3 : only_host s1 s2 -> only_host s2 s3 -> only_host s1 s3.
Proof.
  intros (A1 & B1 & C1 & D1 & E1 & F1) (A2 & B2 & C2 & D2 & E2 & F2).
  repeat split; try congruence. eapply extends_trans; eauto.
Qed.

Lemma only_host_with_host st h : extends (host st) h -> only_host st (with_host st h).
Proof. intros H. repeat split. exact H. Qed.

Lemma commitWork_only_host fuel : forall f st st',
  commitWork fuel f st = Ret st' -> only_host st st'.
Proof.
  induction fuel as [|fuel IH]; intros f st st'; destruct f as [a|]; simpl;
    try discriminate; try (intros [= <-]; apply only_host_refl).
  unfold fiber_at. destruct (heap st !! a) as [n|] eqn:Ha; [|discriminate]. cbn.
  destruct (parent n) as [p|]; [|discriminate]. cbn.
  destruct (heap st !! p) as [pf|]; [|discriminate]. cbn.
  set (eff := match effectTag n, dom n with
              | Some PLACEMENT, Some d => _ | Some UPDATE, Some d => _
              | Some DELETION, Some d => _ | _, _ => _ end).
  assert (Heff : forall st1, eff = Ret st1 -> only_host st st1).
  { subst eff. intros st1.
    destruct (effectTag n) as [[]|], (dom n) as [d|], (dom pf) as [dp|];
      try discriminate; try (intros [= <-]; apply only_host_refl);
      try (intros [= <-]; apply only_host_with_host, extends_log).
    all: destruct (alternate n) as [alt|]; [|discriminate]; cbn;
      destruct (heap st !! alt); [|discriminate]; cbn;
      intros [= <-]; apply only_host_with_host, extends_updateDom. }
  destruct eff as [st1| |]; [|discriminate..]. cbn.
  specialize (Heff st1 eq_refl).
  destruct (commitWork fuel (child n) st1) as [st2| |] eqn:E2; [|discriminate..]. cbn.
  intros E3. apply IH in E2. apply IH in E3.
  eauto using only_host_trans.
Qed.

Lemma commitDeletions_only_host fuel ds : forall st st',
  commitDeletions fuel ds st = Ret st' -> only_host st st'.
Proof.
  unfold commitDeletions. induction ds as [|a ds IH]; intros st st'; simpl.
  - intros [= <-]. apply only_host_refl.
  - destruct (commitWork fuel (Some a) st) as [st1| |] eqn:E; [|discriminate..]. cbn.
    intros H. apply commitWork_only_host in E. apply IH in H.
    eauto using only_host_trans.
Qed.




(** What [commitRoot] of the work-loop renderer does to the module
    variables: the finished tree becomes [currentRoot] and [wipRoot] is
    cleared. *)
Lemma commitRoot_promotes fuel st st' :
  commitRoot fuel st = Ret st' ->
  currentRoot st' = wipRoot st /\ wipRoot st' = None /\ heap st' = heap st.
Proof.
  unfold commitRoot.
  destruct (commitDeletions fuel (deletions st) st) as [st1| |] eqn:E1; [|discriminate..].
  cbn. pose proof (commitDeletions_only_host _ _ _ _ E1) as (Hh & _ & _ & Hw & _).
  destruct (wipRoot st1) as [w|] eqn:Hw1; [|discriminate].
  destruct (fiber_at st1 w) as [n| |]; [|discriminate..]. cbn.
  destruct (commitWork fuel (child n) st1) as [st2| |] eqn:E2; [|discriminate..].
  cbn. intros [= <-]. simpl.
  pose proof (commitWork_only_host _ _ _ _ E2) as (Hh2 & _ & _ & Hw2 & _).
  repeat split; congruence.
Qed.

(** *** Unchanged props in [updateDom] *)

Lemma filter_none {A} (f : A -> bool) (l : list A) :
  (forall x, In x l -> f x = false) -> List.filter f l = [].
Proof.
  induction l as [|x l IH]; intros H; simpl; [done|].
  rewrite (H x) by (by left). apply IH. intros y Hy. apply H. by right.
Qed.

Lemma strict_eq_refl v : v <> VNaN -> strict_eq v v = true.
Proof.
  destruct v; simpl; try done; intros _;
    auto using Z.eqb_refl, String.eqb_refl, Nat.eqb_refl.
  by destruct b.
Qed.

Lemma in_keys_lookup k (o : object) :
  In k (keys o) -> exists v, lookup_key k o = Some v /\ In (k, v) o.
Proof.
  unfold keys. intros H. apply in_map_iff in H as ([k' v] & <- & Hin).
  simpl. destruct (lookup_key_first k' v o Hin) as (v' & ? & ?). eauto.
Qed.

(** X4. Re-committing a fiber whose props did not change issues no
    host call and leaves the host as it is: [updateDom] tests presence
    with [in] and change with [!==], so falsy values are no exception
    (only [NaN], which differs from itself, is written again). *)
Lemma updateDom_same_props d (p : object) h :
  (forall k v, In (k, v) p -> v <> VNaN) ->
  updateDom d p p h = h.
Proof.
  intros Hnan. unfold updateDom.
  assert (Hnew : forall k, In k (keys p) -> isNew p p k = false).
  { intros k Hk. destruct (in_keys_lookup k p Hk) as (v & Hl & Hin).
    unfold isNew, get. rewrite Hl. by rewrite (strict_eq_refl v (Hnan k v Hin)). }
  assert (Hhas : forall k, In k (keys p) -> has p k = true).
  { intros k Hk. destruct (in_keys_lookup k p Hk) as (v & Hl & _).
    unfold has. by rewrite Hl. }
  rewrite (filter_none (isGone p p)), (filter_none (isNew p p) (List.filter isProperty _)),
    (filter_none (fun k => negb (has p k) || isNew p p k)),
    (filter_none (isNew p p) (List.filter isEvent _)).
  - reflexivity.
  - intros k Hk. apply filter_In in Hk as [Hk _]. auto.
  - intros k Hk. apply filter_In in Hk as [Hk _]. by rewrite Hhas, Hnew.
  - intros k Hk. apply filter_In in Hk as [Hk _]. auto.
  - intros k Hk. apply filter_In in Hk as [Hk _]. unfold isGone. by rewrite Hhas.
Qed.

Lemma updateDom_same_props_witness :
  updateDom 0 [("id", VStr ""); ("size", VNum 0); ("onClick", VFun 1)]
              [("id", VStr ""); ("size", VNum 0); ("onClick", VFun 1)] host0 = host0.
Proof.
  apply updateDom_same_props.
  intros k v [[= <- <-]|[[= <- <-]|[[= <- <-]|[]]]]; discriminate.
Defined.

(** Rendering the element of the source a second time: every fiber is
    tagged [UPDATE], nothing is queued for deletion, and the commit adds
    no call to the host log. *)
Example second_pass_issues_no_host_call :
  exists st1 st2,
    first_pass = Ret st1
    /\ renderAndCommit div_a_b st1 = Ret st2
    /\ calls (host st2) = calls (host st1)
    /\ deletions st2 = []
    /\ currentRoot st2 = Some 5%nat.
Proof. do 2 eexists. split; [vm_compute; reflexivity|]. split; vm_compute; try reflexivity. auto. Qed.

(** *** The two roots of the work-loop renderer *)

Lemma keeps_roots_refl st : keeps_roots st st.
Proof. repeat split. eauto. Qed.

Lemma keeps_roots_trans s1 s2 s3 :
  keeps_roots s1 s2 -> keeps_roots s2 s3 -> keeps_roots s1 s3.
Proof.
  intros (A1 & B1 & C1) (A2 & B2 & C2). repeat split; try congruence.
  intros a n Hn. destruct (C1 a n Hn) as (n1 & Hn1 & E1).
  destruct (C2 a n1 Hn1) as (n2 & Hn2 & E2). exists n2. split; congruence.
Qed.

Lemma keeps_roots_update a g st :
  (forall n, alternate (g n) = alternate n) -> keeps_roots st (update_fiber a g st).
Proof.
  intros Hg. unfold update_fiber.
  destruct (heap st !! a) as [x|] eqn:Ha; [|apply keeps_roots_refl].
  repeat split. simpl. intros b n Hb.
  destruct (decide (b = a)) as [->|Hne].
  - rewrite list_lookup_insert_eq by (by apply lookup_lt_Some in Ha).
    exists (g x). split; [done|]. rewrite Hg. congruence.
  - rewrite list_lookup_insert_ne by done. eauto.
Qed.

Lemma keeps_roots_alloc f st : keeps_roots st (alloc f st).2.
Proof.
  repeat split. simpl. intros a n Hn. exists n. split; [|done].
  by apply lookup_app_l_Some.
Qed.

Lemma keeps_roots_with_host st h : keeps_roots st (with_host st h).
Proof. repeat split. eauto. Qed.

Lemma keeps_roots_with_deletions st ds : keeps_roots st (with_deletions st ds).
Proof. repeat split. eauto. Qed.

Lemma keeps_roots_with_next st nx : keeps_roots st (with_next st nx).
Proof. repeat split. eauto. Qed.

Lemma reconcile_loop_keeps_roots fuel wipFiber elements :
  forall index oldFiber prevSibling st st',
    reconcile_loop fuel wipFiber elements index oldFiber prevSibling st = Ret st' ->
    keeps_roots st st'.
Proof.
  induction fuel as [|fuel IH]; intros index oldFiber prevSibling st st';
    cbn [reconcile_loop];
    destruct (negb (Nat.ltb index (length elements) || bool_decide (is_Some oldFiber)));
    try (intros [= <-]; apply keeps_roots_refl); try discriminate.
  set (old := match oldFiber with Some a => _ | None => _ end).
  destruct old as [old| |]; [|discriminate..]. cbn.
  set (new := match old, elements !! index with
              | Some o, Some e => _ | None, Some e => _ | _, None => _ end).
  assert (Hnew : keeps_roots st new.2).
  { subst new. destruct old as [o|], (elements !! index) as [e|];
      try apply keeps_roots_refl; try apply (keeps_roots_alloc _ st).
    destruct (bool_decide _); apply (keeps_roots_alloc _ st). }
  destruct new as [newFiber st1]. simpl in Hnew.
  set (st2 := match oldFiber with Some a => _ | None => _ end).
  assert (H2 : keeps_roots st st2).
  { subst st2. destruct oldFiber as [a|]; [|done].
    destruct (match old with Some o => _ | None => _ end); [done|].
    eapply keeps_roots_trans; [exact Hnew|].
    eapply keeps_roots_trans; [|apply keeps_roots_with_deletions].
    by apply keeps_roots_update. }
  destruct (Nat.eqb index 0).
  - cbn. intros H. apply IH in H.
    eapply keeps_roots_trans; [|exact H].
    eapply keeps_roots_trans; [exact H2|]. by apply keeps_roots_update.
  - destruct prevSibling as [p|]; [|discriminate]. cbn. intros H. apply IH in H.
    eapply keeps_roots_trans; [|exact H].
    eapply keeps_roots_trans; [exact H2|]. by apply keeps_roots_update.
Qed.

Lemma performUnitOfWork_keeps_roots fuel a st nx st' :
  performUnitOfWork fuel a st = Ret (nx, st') -> keeps_roots st st'.
Proof.
  unfold performUnitOfWork. destruct (fiber_at st a) as [n| |]; [|discriminate..]. cbn.
  set (st1 := match dom n with Some _ => st | None => _ end).
  assert (H1 : keeps_roots st st1).
  { subst st1. destruct (dom n); [apply keeps_roots_refl|].
    destruct (createDom n (host st)) as [d h].
    eapply keeps_roots_trans; [apply keeps_roots_with_host|]. by apply keeps_roots_update. }
  unfold reconcileChildren.
  destruct (fiber_at st1 a) as [w| |]; [|discriminate..]. cbn.
  destruct (match alternate w with Some x => _ | None => _ end) as [oldFiber| |];
    [|discriminate..]. cbn.
  destruct (reconcile_loop _ _ _ _ _ _ _) as [st2| |] eqn:E; [|discriminate..]. cbn.
  apply reconcile_loop_keeps_roots in E.
  destruct (fiber_at st2 a) as [n2| |]; [|discriminate..]. cbn.
  destruct (child n2).
  - intros [= _ <-]. eauto using keeps_roots_trans.
  - destruct (next_sibling_up _ _ _); [|discriminate..]. cbn.
    intros [= _ <-]. eauto using keeps_roots_trans.
Qed.

Lemma work_units_keeps_roots fuel more : forall st st',
  work_units fuel more st = Ret st' -> keeps_roots st st'.
Proof.
  induction more as [|more IH]; intros st st'; cbn [work_units];
    (destruct (nextUnitOfWork st) as [a|]; [|intros [= <-]; apply keeps_roots_refl]);
    destruct (performUnitOfWork fuel a st) as [[nx st1]| |] eqn:E; try discriminate;
    cbn; apply performUnitOfWork_keeps_roots in E.
  - intros [= <-]. eauto using keeps_roots_trans, keeps_roots_with_next.
  - intros H. apply IH in H.
    eauto using keeps_roots_trans, keeps_roots_with_next.
Qed.

(** X3. The double buffer of the work-loop renderer.  [render] makes a new
    work-in-progress root whose [alternate] is the current root.  An idle
    callback either leaves the pass in progress or commits it, and then
    the work-in-progress root has become [currentRoot], [wipRoot] is
    [null], and the root's [alternate] is still the root of the pass
    before.  With no pass in progress an idle callback changes nothing,
    so [wipRoot] stays [null] until the next [render]. *)
Lemma double_buffer fuel more (e : element) (container : nat) st :
  let st0 := render e container st in
  (exists w root, wipRoot st0 = Some w /\ heap st0 !! w = Some root
      /\ alternate root = currentRoot st
      /\ forall st', workLoop fuel more st0 = Ret st' ->
           (exists root', heap st' !! w = Some root'
               /\ alternate root' = currentRoot st)
           /\ ((wipRoot st' = Some w /\ currentRoot st' = currentRoot st)
               \/ (wipRoot st' = None /\ currentRoot st' = Some w)))
  /\ (nextUnitOfWork st = None -> wipRoot st = None ->
      workLoop fuel more st = Ret st).
Proof.
  split.
  - exists (length (heap st)), (mkFiber None [] [e] (Some container) None (currentRoot st)
                                None None None).
    split; [reflexivity|]. split.
    { simpl. by rewrite lookup_app_r, Nat.sub_diag. }
    split; [reflexivity|].
    intros st'. unfold workLoop.
    destruct (work_units fuel more _) as [st1| |] eqn:E; [|discriminate..]. cbn.
    apply work_units_keeps_roots in E as (Hc & Hw & Ha).
    destruct (Ha (length (heap st)) _ ltac:(simpl; by rewrite lookup_app_r, Nat.sub_diag))
      as (root1 & Hr1 & Er1).
    assert (Hcommit : forall st2, commitRoot fuel st1 = Ret st2 ->
              (exists root', heap st2 !! length (heap st) = Some root'
                  /\ alternate root' = currentRoot st)
              /\ wipRoot st2 = None /\ currentRoot st2 = Some (length (heap st))).
    { intros st2 H. apply commitRoot_promotes in H as (H1 & H2 & H3).
      rewrite H3, H1, H2, Hw. split; [eauto|]. split; reflexivity. }
    destruct (wipRoot st1) as [w1|] eqn:Hw1; [|simpl in Hw; congruence].
    destruct (nextUnitOfWork st1).
    + intros [= <-]. split; [eauto|]. left. split; [by rewrite Hw1, Hw | exact Hc].
    + intros H. apply Hcommit in H as (? & ? & ?). split; [done|]. by right.
  - intros Hn Hw. unfold workLoop. destruct more; cbn [work_units]; rewrite Hn; cbn;
      by rewrite Hn, Hw.
Qed.

(** The first pass over the element of the source, run to its end. *)
Lemma double_buffer_witness :
  exists st',
    workLoop 64 64 (render div_a_b 0 (init host0)) = Ret st'
    /\ ((wipRoot st' = Some 0%nat /\ currentRoot st' = None)
        \/ (wipRoot st' = None /\ currentRoot st' = Some 0%nat)).
Proof.
  pose proof (double_buffer 64 64 div_a_b 0 (init host0))
    as [(w & root & Hw & _ & _ & Hrun) _].
  cbv in Hw. injection Hw as <-.
  destruct (workLoop 64 64 (render div_a_b 0 (init host0))) as [st'| |] eqn:E.
  - exists st'. split; [reflexivity|]. exact (proj2 (Hrun st' eq_refl)).
  - vm_compute in E. discriminate.
  - vm_compute in E. discriminate.
Defined.

(** *** The diff of [reconcileChildren], position by position *)

Section Reconcile.
Variable wipFiber : nat.
Variable elements : list element.

Lemma heap_update_fiber a g st b :
  heap (update_fiber a g st) !! b
  = if decide (b = a) then g <$> heap st !! b else heap st !! b.
Proof.
  unfold update_fiber. destruct (heap st !! a) as [n|] eqn:Ha; simpl.
  - destruct (decide (b = a)) as [->|Hne].
    + rewrite list_lookup_insert_eq by (by apply lookup_lt_Some in Ha). by rewrite Ha.
    + by rewrite list_lookup_insert_ne.
  - destruct (decide (b = a)) as [->|Hne]; [by rewrite Ha|done].
Qed.

Lemma length_update_fiber a g st : length (heap (update_fiber a g st)) = length (heap st).
Proof.
  unfold update_fiber. destruct (heap st !! a); simpl; [apply length_insert|done].
Qed.

Lemma deletions_update_fiber a g st : deletions (update_fiber a g st) = deletions st.
Proof. unfold update_fiber. by destruct (heap st !! a). Qed.

Lemma heap_tagDeleted a st b :
  heap (tagDeleted a st) !! b
  = if decide (b = a) then set_effectTag (Some DELETION) <$> heap st !! b
    else heap st !! b.
Proof. unfold tagDeleted. simpl. apply heap_update_fiber. Qed.

Lemma deletions_tagDeleted a st : deletions (tagDeleted a st) = deletions st ++ [a].
Proof. unfold tagDeleted. simpl. by rewrite deletions_update_fiber. Qed.

Lemma length_tagDeleted a st : length (heap (tagDeleted a st)) = length (heap st).
Proof. unfold tagDeleted. simpl. apply length_update_fiber. Qed.

(** One iteration at a position that has a description. *)
Lemma reconcile_step_element fuel index oldFiber prevSibling st e old :
  elements !! index = Some e ->
  match oldFiber with
  | Some a => heap st !! a = Some old
  | None => True
  end ->
  reconcile_loop (S fuel) wipFiber elements index oldFiber prevSibling st
  = (let nf := newFiberFor st wipFiber oldFiber e in
     let st1 := (alloc nf st).2 in
     let st2 := match oldFiber with
                | Some a => if sameNode st oldFiber (Some e) is Some _ then st1
                            else tagDeleted a st1
                | None => st1
                end in
     st3 ← linkFiber index wipFiber prevSibling (Some (length (heap st))) st2;
     reconcile_loop fuel wipFiber elements (S index)
       (match oldFiber with Some _ => sibling old | None => None end)
       (Some (length (heap st))) st3).
Proof.
  intros He Hold. cbn [reconcile_loop].
  assert (Hlt : Nat.ltb index (length elements) = true).
  { apply Nat.ltb_lt. by apply lookup_lt_Some in He. }
  rewrite Hlt. cbn [orb negb]. rewrite He.
  destruct oldFiber as [a|].
  - unfold fiber_at. rewrite Hold. cbn.
    unfold newFiberFor, sameNode. rewrite Hold.
    destruct (bool_decide (type old = Some (e_type e))); reflexivity.
  - cbn. reflexivity.
Qed.

(** One iteration at a position past the end of the array. *)
Lemma reconcile_step_old_only fuel index a prevSibling st old :
  elements !! index = None ->
  heap st !! a = Some old ->
  reconcile_loop (S fuel) wipFiber elements index (Some a) prevSibling st
  = (st3 ← linkFiber index wipFiber prevSibling None (tagDeleted a st);
     reconcile_loop fuel wipFiber elements (S index) (sibling old) None st3).
Proof.
  intros He Hold. cbn [reconcile_loop].
  replace (bool_decide (is_Some (Some a))) with true
    by (symmetry; apply bool_decide_eq_true; eauto).
  rewrite orb_true_r. cbn [negb]. rewrite He.
  unfold fiber_at. rewrite Hold. reflexivity.
Qed.

(** No description and no old child left: the loop is over. *)
Lemma reconcile_done fuel index prevSibling st :
  elements !! index = None ->
  reconcile_loop fuel wipFiber elements index None prevSibling st = Ret st.
Proof.
  intros He. apply lookup_ge_None in He.
  destruct fuel; cbn [reconcile_loop];
    replace (Nat.ltb index (length elements)) with false
      by (symmetry; apply Nat.ltb_ge; lia);
    reflexivity.
Qed.

Lemma heap_alloc f st b :
  heap (alloc f st).2 !! b
  = if decide (b = length (heap st)) then Some f else heap st !! b.
Proof.
  simpl. destruct (decide (b = length (heap st))) as [->|Hne].
  - by rewrite lookup_app_r, Nat.sub_diag.
  - destruct (decide (b < length (heap st))%nat).
    + by rewrite lookup_app_l.
    + rewrite lookup_ge_None_2; [|rewrite length_app; simpl; lia].
      symmetry. apply lookup_ge_None_2. lia.
Qed.

Lemma linkFiber_frame index prevSibling newFiber st st3 :
  linkFiber index wipFiber prevSibling newFiber st = Ret st3 ->
  length (heap st3) = length (heap st)
  /\ deletions st3 = deletions st
  /\ forall b,
       heap st3 !! b
       = if Nat.eqb index 0 then
           (if decide (b = wipFiber) then set_child newFiber <$> heap st !! b
            else heap st !! b)
         else
           (if decide (prevSibling = Some b) then set_sibling newFiber <$> heap st !! b
            else heap st !! b).
Proof.
  unfold linkFiber. destruct (Nat.eqb index 0).
  - intros [= <-]. rewrite length_update_fiber, deletions_update_fiber.
    repeat split. intros b. apply heap_update_fiber.
  - destruct prevSibling as [p|]; [|discriminate]. intros [= <-].
    rewrite length_update_fiber, deletions_update_fiber. repeat split.
    intros b. rewrite heap_update_fiber.
    destruct (decide (b = p)) as [->|Hne].
    + by rewrite decide_True.
    + rewrite decide_False; [done|]. intros [= ->]. done.
Qed.

Lemma same_core_refl f : same_core f f.
Proof. by repeat split. Qed.

Lemma same_core_trans f1 f2 f3 : same_core f1 f2 -> same_core f2 f3 -> same_core f1 f3.
Proof.
  intros (A1 & B1 & C1 & D1 & E1 & F1) (A2 & B2 & C2 & D2 & E2 & F2).
  repeat split; congruence.
Qed.

Lemma chain_allocated st head olds b :
  chain st head olds -> In b olds -> (b < length (heap st))%nat.
Proof.
  induction 1 as [|a f rest Ha _ IH]; simpl; [done|].
  intros [<-|Hb]; [by apply lookup_lt_Some in Ha | auto].
Qed.

Lemma chain_frame st st' head olds :
  chain st head olds ->
  (forall b f, In b olds -> heap st !! b = Some f ->
     exists f', heap st' !! b = Some f' /\ sibling f' = sibling f) ->
  chain st' head olds.
Proof.
  induction 1 as [|a f rest Ha _ IH]; intros Hf; [constructor|].
  destruct (Hf a f ltac:(by left) Ha) as (f' & Ha' & Hs).
  econstructor; [exact Ha'|]. rewrite Hs. apply IH.
  intros b fb Hb. apply Hf. by right.
Qed.

Lemma sameNode_frame st st' a f f' e :
  heap st !! a = Some f -> heap st' !! a = Some f' -> same_core f f' ->
  (sameNode st' (Some a) e = None <-> sameNode st (Some a) e = None)
  /\ forall e', newFiberFor st' wipFiber (Some a) e' = newFiberFor st wipFiber (Some a) e'.
Proof.
  intros Ha Ha' (Ht & _ & _ & Hd & _). split.
  - unfold sameNode. rewrite Ha, Ha'. destruct e as [e|]; [|done]. rewrite Ht.
    by destruct (bool_decide _).
  - intros e'. unfold newFiberFor, sameNode. rewrite Ha, Ha', Ht.
    destruct (bool_decide _); [|done]. by rewrite Ht, Hd.
Qed.

Lemma unmatched_frame st st' olds es :
  (forall b f, In b olds -> heap st !! b = Some f ->
     exists f', heap st' !! b = Some f' /\ same_core f f') ->
  (forall b, In b olds -> is_Some (heap st !! b)) ->
  unmatched st' olds es = unmatched st olds es.
Proof.
  revert es. induction olds as [|a olds IH]; intros es Hf Hal; [done|].
  cbn [unmatched].
  destruct (Hal a ltac:(by left)) as [f Ha].
  destruct (Hf a f ltac:(by left) Ha) as (f' & Ha' & Hc).
  destruct (sameNode_frame st st' a f f' (head es) Ha Ha' Hc) as [Hn _].
  rewrite IH; [|intros; apply Hf; by try right|intros; apply Hal; by right].
  destruct (sameNode st' (Some a) (head es)) eqn:E1,
           (sameNode st (Some a) (head es)) eqn:E2; try done.
  - destruct Hn as [_ Hn]. by specialize (Hn eq_refl).
  - destruct Hn as [Hn _]. by specialize (Hn eq_refl).
Qed.

Lemma unmatched_subset st olds es b : In b (unmatched st olds es) -> In b olds.
Proof.
  revert es. induction olds as [|a olds IH]; intros es; cbn [unmatched]; [done|].
  destruct (sameNode st (Some a) (head es)).
  - intros H. right. eauto.
  - intros [<-|H]; [by left | right; eauto].
Qed.

Lemma fiber_ext f g :
  same_core f g -> effectTag g = effectTag f -> child g = child f ->
  sibling g = sibling f -> g = f.
Proof.
  destruct f, g. simpl. intros (? & ? & ? & ? & ? & ?) ? ? ?. simpl in *. congruence.
Qed.

Lemma chain_nil_inv st head : chain st head [] -> head = None.
Proof. by inversion 1. Qed.

Lemma chain_cons_inv st head a olds :
  chain st head (a :: olds) ->
  head = Some a /\ exists f, heap st !! a = Some f /\ chain st (sibling f) olds.
Proof. inversion 1; subst. eauto. Qed.

Lemma lookup_drop_head {A} (l : list A) i : head (drop i l) = l !! i.
Proof.
  revert i. induction l as [|x l IH]; intros [|i]; simpl; auto.
Qed.

Lemma drop_lookup_None {A} (l : list A) i : l !! i = None -> drop i l = [].
Proof. intros H. apply drop_ge. by apply lookup_ge_None. Qed.

Lemma drop_lookup_Some {A} (l : list A) i x :
  l !! i = Some x -> drop i l = x :: drop (S i) l.
Proof.
  revert i. induction l as [|y l IH]; intros [|i]; simpl; try done.
  - by intros [= ->].
  - apply IH.
Qed.

Ltac solve_fiber :=
  repeat case_decide; simplify_eq; cbn;
  eexists; (split; [reflexivity|]); cbn;
  repeat case_bool_decide;
  repeat match goal with
         | H : _ ∈ [_] |- _ => apply list_elem_of_singleton in H
         | H : ¬ (_ ∈ [_]) |- _ => rewrite list_elem_of_singleton in H
         end;
  simplify_eq; repeat split; try congruence; try done.

(** The loop entered past the end of the array with at most one old
    child left. *)
Lemma reconcile_loop_tail index olds oldFiber prevSibling st fuel :
  elements !! index = None ->
  chain st oldFiber olds ->
  (length olds <= 1)%nat ->
  (index <> 0%nat -> is_Some prevSibling) ->
  (length olds <= fuel)%nat ->
  exists st',
    reconcile_loop fuel wipFiber elements index oldFiber prevSibling st = Ret st'
    /\ reconciledFrom wipFiber elements index olds prevSibling st st'.
Proof.
  intros He Hch Hlen Hprev Hfuel.
  assert (Hn : Nat.ltb index (length elements) = false).
  { apply Nat.ltb_ge. by apply lookup_ge_None in He. }
  assert (Hnone : forall j, elements !! (index + j)%nat = None).
  { intros j. apply lookup_ge_None. apply lookup_ge_None in He. lia. }
  destruct olds as [|a [|? ?]]; [| |simpl in Hlen; lia].
  - apply chain_nil_inv in Hch as ->. exists st.
    split; [by apply reconcile_done|].
    unfold reconciledFrom. rewrite Hn, (drop_lookup_None _ _ He). cbn.
    split; [apply lookup_ge_None in He; lia|]. split; [by rewrite app_nil_r|].
    split.
    + intros b f Hb. exists f. split; [done|]. split; [apply same_core_refl|].
      rewrite bool_decide_eq_false_2 by apply not_elem_of_nil. done.
    + intros j e Hj. by rewrite Hnone in Hj.
  - apply chain_cons_inv in Hch as (-> & fa & Ha & Hrest).
    apply chain_nil_inv in Hrest.
    destruct fuel as [|fuel]; [simpl in Hfuel; lia|].
    rewrite (reconcile_step_old_only _ _ _ _ _ _ He Ha).
    destruct (linkFiber index wipFiber prevSibling None (tagDeleted a st))
      as [st3| |] eqn:Hlink.
    2,3: unfold linkFiber in Hlink; destruct (Nat.eqb index 0) eqn:E0;
      [discriminate|]; apply Nat.eqb_neq in E0; destruct (Hprev E0) as [p ->];
      discriminate.
    cbn. rewrite Hrest.
    assert (He' : elements !! S index = None).
    { apply lookup_ge_None. apply lookup_ge_None in He. lia. }
    rewrite (reconcile_done _ _ _ _ He'). exists st3. split; [done|].
    apply linkFiber_frame in Hlink as (Hl & Hd & Hh).
    unfold reconciledFrom. rewrite Hn, (drop_lookup_None _ _ He). cbn.
    rewrite Hl, length_tagDeleted, Hd, deletions_tagDeleted.
    split; [apply lookup_ge_None in He; lia|]. split; [done|]. split.
    + intros b f Hb. rewrite Hh, !heap_tagDeleted, Hb.
      destruct (Nat.eqb index 0) eqn:E0; cbn; solve_fiber.
    + intros j e Hj. by rewrite Hnone in Hj.
Qed.

(** One iteration at a position with a description: the state it leaves. *)
Lemma reconcile_iteration index oldFiber prevSibling st e :
  is_Some (heap st !! wipFiber) ->
  (forall a, oldFiber = Some a -> is_Some (heap st !! a)) ->
  (index <> 0%nat -> exists p, prevSibling = Some p /\ is_Some (heap st !! p)) ->
  let nf := newFiberFor st wipFiber oldFiber e in
  let st1 := (alloc nf st).2 in
  let st2 := match oldFiber with
             | Some a => if sameNode st oldFiber (Some e) is Some _ then st1
                         else tagDeleted a st1
             | None => st1
             end in
  exists st3,
    linkFiber index wipFiber prevSibling (Some (length (heap st))) st2 = Ret st3
    /\ length (heap st3) = S (length (heap st))
    /\ deletions st3
       = deletions st ++ match oldFiber with
                         | Some a => if sameNode st oldFiber (Some e) is Some _ then []
                                     else [a]
                         | None => []
                         end
    /\ heap st3 !! length (heap st) = Some nf
    /\ forall b f, heap st !! b = Some f ->
         exists f3, heap st3 !! b = Some f3 /\ same_core f f3
           /\ effectTag f3
              = (if bool_decide (oldFiber = Some b /\ sameNode st oldFiber (Some e) = None)
                 then Some DELETION else effectTag f)
           /\ child f3
              = (if Nat.eqb index 0 && bool_decide (b = wipFiber)
                 then Some (length (heap st)) else child f)
           /\ sibling f3
              = (if negb (Nat.eqb index 0) && bool_decide (prevSibling = Some b)
                 then Some (length (heap st)) else sibling f).
Proof.
  intros [w Hw] Hold Hprev nf st1 st2.
  assert (Hst2 : length (heap st2) = S (length (heap st))
                 /\ forall b, heap st2 !! b
                    = if decide (b = length (heap st)) then Some nf
                      else if bool_decide (oldFiber = Some b
                                           /\ sameNode st oldFiber (Some e) = None)
                           then set_effectTag (Some DELETION) <$> heap st !! b
                           else heap st !! b).
  { subst st2. destruct oldFiber as [a|].
    - destruct (sameNode st (Some a) (Some e)) eqn:Es.
      + split; [subst st1; simpl; rewrite length_app; simpl; lia|].
        intros b. subst st1. rewrite heap_alloc. case_decide; [done|].
        rewrite bool_decide_eq_false_2; [done|]. intros [_ ?]. done.
      + split; [rewrite length_tagDeleted; subst st1; simpl; rewrite length_app;
                simpl; lia|].
        intros b. rewrite heap_tagDeleted. subst st1. rewrite heap_alloc.
        destruct (Hold a eq_refl) as [fa Ha].
        assert (a <> length (heap st)) by (apply lookup_lt_Some in Ha; lia).
        destruct (decide (b = a)) as [->|Hba].
        * rewrite bool_decide_eq_true_2
            by (split; [reflexivity | assumption || reflexivity]).
          repeat case_decide; done.
        * rewrite bool_decide_eq_false_2 by (intros [[= ->] _]; done).
          repeat case_decide; done.
    - split; [subst st1; simpl; rewrite length_app; simpl; lia|].
      intros b. subst st1. rewrite heap_alloc. case_decide; [done|].
      rewrite bool_decide_eq_false_2; [done|]. intros [? _]. done. }
  destruct Hst2 as [Hlen2 Hheap2].
  assert (Hdel2 : deletions st2
                  = deletions st ++ match oldFiber with
                                    | Some a =>
                                        if sameNode st oldFiber (Some e) is Some _ then []
                                        else [a]
                                    | None => []
                                    end).
  { subst st2. destruct oldFiber as [a|]; [|by rewrite app_nil_r].
    destruct (sameNode st (Some a) (Some e)); [by rewrite app_nil_r|].
    by rewrite deletions_tagDeleted. }
  destruct (linkFiber index wipFiber prevSibling (Some (length (heap st))) st2)
    as [st3| |] eqn:Hlink.
  2,3: unfold linkFiber in Hlink; destruct (Nat.eqb index 0) eqn:E0;
    [discriminate|]; apply Nat.eqb_neq in E0; destruct (Hprev E0) as (p & -> & _);
    discriminate.
  exists st3. split; [done|].
  pose proof Hlink as Hlink'.
  apply linkFiber_frame in Hlink as (Hl & Hd & Hh).
  split; [congruence|]. split; [congruence|].
  assert (Hwip : wipFiber <> length (heap st)) by (apply lookup_lt_Some in Hw; lia).
  split.
  - rewrite Hh, Hheap2. destruct (Nat.eqb index 0) eqn:E0.
    + rewrite decide_False by done. by rewrite decide_True.
    + apply Nat.eqb_neq in E0. destruct (Hprev E0) as (p & -> & [fp Hp]).
      rewrite decide_False; [by rewrite decide_True|].
      intros [= ->]. apply lookup_lt_Some in Hp. lia.
  - intros b f Hb.
    assert (b <> length (heap st)) by (apply lookup_lt_Some in Hb; lia).
    rewrite Hh, !Hheap2, Hb. rewrite !(decide_False (P := b = length (heap st))) by done.
    destruct (Nat.eqb index 0); cbn [andb negb];
      repeat case_decide; repeat case_bool_decide; simplify_eq; cbn;
      eexists; (split; [reflexivity|]); repeat split; try done;
      try (exfalso; naive_solver).
Qed.

Lemma chain_head st oldFiber olds : chain st oldFiber olds -> oldFiber = head olds.
Proof. by destruct 1. Qed.

Lemma unmatched_step st olds es index e :
  es !! index = Some e ->
  unmatched st olds (drop index es)
  = match head olds with
    | Some a =>
        (if sameNode st (head olds) (Some e) is Some _ then [] else [a])
          ++ unmatched st (tail olds) (drop (S index) es)
    | None => []
    end.
Proof.
  intros He. rewrite (drop_lookup_Some _ _ _ He).
  destruct olds as [|a olds]; [done|]. cbn [unmatched head tail].
  by destruct (sameNode st (Some a) (Some e)).
Qed.

Lemma deletion_tag_cases {A} (b : nat) (ho : option nat) (sn : option A)
    (rest : list nat) (t : option effect) :
  (ho = None -> rest = []) ->
  (if bool_decide (b ∈ rest) then Some DELETION
   else if bool_decide (ho = Some b /\ sn = None) then Some DELETION else t)
  = (if bool_decide (b ∈ match ho with
                         | Some a => (if sn is Some _ then [] else [a]) ++ rest
                         | None => []
                         end)
     then Some DELETION else t).
Proof.
  intros Hnone.
  assert (Hiff : b ∈ match ho with
                     | Some a => (if sn is Some _ then [] else [a]) ++ rest
                     | None => []
                     end
                 <-> b ∈ rest \/ (ho = Some b /\ sn = None)).
  { destruct ho as [a|]; [destruct sn|]; cbn [app].
    - split; [by left | by intros [?|[_ ?]]].
    - rewrite elem_of_cons. split.
      + intros [->|?]; [right|left]; done.
      + intros [?|[[= ->] _]]; [by right | by left].
    - rewrite Hnone by done.
      split; [by intros ?%elem_of_nil | intros [?%elem_of_nil|[? _]]; done]. }
  rewrite (bool_decide_ext _ _ Hiff), bool_decide_or.
  by destruct (bool_decide (b ∈ rest)), (bool_decide (ho = Some b /\ sn = None)).
Qed.

(** An iteration followed by the rest of the loop. *)
Lemma reconciled_compose index olds prevSibling st st3 st' e :
  elements !! index = Some e ->
  NoDup olds ->
  (forall b, In b olds -> is_Some (heap st !! b)) ->
  length (heap st3) = S (length (heap st)) ->
  deletions st3
  = deletions st ++ match head olds with
                    | Some a => if sameNode st (head olds) (Some e) is Some _ then []
                                else [a]
                    | None => []
                    end ->
  heap st3 !! length (heap st) = Some (newFiberFor st wipFiber (head olds) e) ->
  (forall b f, heap st !! b = Some f ->
     exists f3, heap st3 !! b = Some f3 /\ same_core f f3
       /\ effectTag f3
          = (if bool_decide (head olds = Some b /\ sameNode st (head olds) (Some e) = None)
             then Some DELETION else effectTag f)
       /\ child f3
          = (if Nat.eqb index 0 && bool_decide (b = wipFiber)
             then Some (length (heap st)) else child f)
       /\ sibling f3
          = (if negb (Nat.eqb index 0) && bool_decide (prevSibling = Some b)
             then Some (length (heap st)) else sibling f)) ->
  reconciledFrom wipFiber elements (S index) (tail olds) (Some (length (heap st))) st3 st' ->
  reconciledFrom wipFiber elements index olds prevSibling st st'.
Proof.
  intros He Hnd Hal Hl3 Hd3 Hnf Hframe (P1 & P2 & P3 & P4).
  assert (Hlt : (index < length elements)%nat) by (by apply lookup_lt_Some in He).
  assert (Hltb : Nat.ltb index (length elements) = true) by (by apply Nat.ltb_lt).
  (* the old children keep their type and host node through the iteration *)
  assert (Htail : forall b, In b (tail olds) -> In b olds).
  { destruct olds; simpl; auto. }
  assert (HU : unmatched st3 (tail olds) (drop (S index) elements)
               = unmatched st (tail olds) (drop (S index) elements)).
  { apply unmatched_frame.
    - intros b f Hb Hf. destruct (Hframe b f Hf) as (f3 & ? & ? & _). eauto.
    - intros b Hb. auto. }
  rewrite HU in P2, P3.
  assert (Hfresh : forall b, In b olds -> b <> length (heap st)).
  { intros b Hb. destruct (Hal b Hb) as [f Hf]. apply lookup_lt_Some in Hf. lia. }
  assert (Hhead : forall a, head olds = Some a ->
            ~ In a (unmatched st (tail olds) (drop (S index) elements))).
  { intros a Ha Hin. apply unmatched_subset in Hin.
    destruct olds as [|a' olds]; [done|]. simpl in Ha, Hin. injection Ha as ->.
    apply NoDup_cons in Hnd as [Hnd _]. apply Hnd. by apply list_elem_of_In. }
  unfold reconciledFrom. rewrite Hltb. cbn [orb andb].
  rewrite (unmatched_step st olds elements index e He).
  split; [rewrite P1, Hl3; lia|].
  split.
  { rewrite P2, Hd3, <- app_assoc. f_equal.
    by destruct olds. }
  split.
  - intros b f Hb.
    destruct (Hframe b f Hb) as (f3 & Hb3 & Hc3 & He3 & Hch3 & Hs3).
    destruct (P3 b f3 Hb3) as (f' & Hb' & Hc' & He' & Hch' & Hs').
    exists f'. split; [exact Hb'|]. split; [eauto using same_core_trans|].
    assert (Hbne : Some (length (heap st)) <> Some b).
    { intros [= <-]. apply lookup_lt_Some in Hb. lia. }
    rewrite andb_false_r in Hch'. cbn [andb] in Hch'.
    rewrite (bool_decide_eq_false_2 _ Hbne), andb_false_r in Hs'.
    split; [|split; congruence].
    rewrite He', He3. apply deletion_tag_cases. by destruct olds.
  - intros [|j] e' Hj.
    + rewrite Nat.add_0_r in Hj |- *. assert (e' = e) as -> by congruence.
      rewrite <- head_lookup.
      destruct (P3 _ _ Hnf) as (f' & Hb' & Hc' & He' & Hch' & Hs').
      rewrite Hb'. f_equal. apply fiber_ext.
      * exact Hc'.
      * cbn. rewrite He'. rewrite bool_decide_eq_false_2; [done|].
        intros Hin. apply list_elem_of_In, unmatched_subset, Htail, Hfresh in Hin. done.
      * cbn. rewrite Hch'. by rewrite andb_false_r.
      * cbn [sibling set_sibling]. rewrite Hs'. cbn [negb Nat.eqb andb].
        rewrite (bool_decide_eq_true_2 (Some (length (heap st)) = Some (length (heap st))))
          by done.
        rewrite andb_true_r, Hl3, ?Nat.add_0_r.
        replace (length (heap st) + 1)%nat with (S (length (heap st))) by lia.
        destruct (Nat.ltb (S index) (length elements)); cbn [orb]; [done|].
        destruct (bool_decide (tail olds = [])); cbn; [|done].
        unfold newFiberFor. by destruct (sameNode _ _ _) as [[? ?]|].
    + replace (index + S j)%nat with (S index + j)%nat in * by lia.
      pose proof (P4 j e' Hj) as Q. rewrite Hl3 in Q.
      replace (length (heap st) + S j)%nat with (S (length (heap st)) + j)%nat by lia.
      rewrite Q. f_equal. f_equal.
      * replace (S (length (heap st)) + S j)%nat
          with (length (heap st) + S (S j))%nat by lia. done.
      * replace (olds !! S j) with (tail olds !! j) by (by destruct olds).
        destruct (tail olds !! j) as [a'|] eqn:Ea; [|done].
        assert (Hin : In a' olds).
        { apply Htail, list_elem_of_In, list_elem_of_lookup. eauto. }
        destruct (Hal a' Hin) as [fa' Hfa'].
        destruct (Hframe a' fa' Hfa') as (f3 & Hf3 & Hc3 & _).
        apply (sameNode_frame st st3 a' fa' f3 None Hfa' Hf3 Hc3).
Qed.

(** The old children still to visit stay chained through an iteration. *)
Lemma chain_after_iteration index olds prevSibling st st3 :
  chain st (head olds) olds ->
  (index <> 0%nat -> exists p, prevSibling = Some p /\ ~ In p olds) ->
  (forall b f, heap st !! b = Some f ->
     exists f3, heap st3 !! b = Some f3
       /\ sibling f3
          = (if negb (Nat.eqb index 0) && bool_decide (prevSibling = Some b)
             then Some (length (heap st)) else sibling f)) ->
  exists next,
    chain st3 next (tail olds)
    /\ forall old, match head olds with
                   | Some a => heap st !! a = Some old
                   | None => True
                   end ->
         match head olds with Some _ => sibling old | None => None end = next.
Proof.
  intros Hch Hprev Hframe. destruct olds as [|a olds'].
  - exists None. split; [constructor|done].
  - apply chain_cons_inv in Hch as (_ & fa & Hfa & Hch').
    exists (sibling fa). split; [|cbn; intros old Hold; congruence].
    apply (chain_frame st); [exact Hch'|].
    intros b f Hb Hf. destruct (Hframe b f Hf) as (f3 & Hf3 & Hs3).
    exists f3. split; [exact Hf3|]. rewrite Hs3.
    destruct (Nat.eqb index 0) eqn:E0; [done|]. cbn [negb andb].
    rewrite bool_decide_eq_false_2; [done|].
    intros ->. apply Nat.eqb_neq in E0.
    destruct (Hprev E0) as (p & [= <-] & Hp). apply Hp. by right.
Qed.

(** The loop on the domain where it returns: at most one old child more
    than there are descriptions left. *)
Lemma reconcile_loop_spec : forall k index olds oldFiber prevSibling st fuel,
  (length elements - index = k)%nat ->
  is_Some (heap st !! wipFiber) ->
  chain st oldFiber olds -> NoDup olds ->
  (length olds <= k + 1)%nat ->
  (index <> 0%nat ->
   exists p, prevSibling = Some p /\ is_Some (heap st !! p) /\ ~ In p olds) ->
  (Nat.max k (length olds) <= fuel)%nat ->
  exists st',
    reconcile_loop fuel wipFiber elements index oldFiber prevSibling st = Ret st'
    /\ reconciledFrom wipFiber elements index olds prevSibling st st'.
Proof.
  induction k as [|k IH];
    intros index olds oldFiber prevSibling st fuel Hk Hw Hch Hnd Hlen Hprev Hfuel.
  { apply reconcile_loop_tail; auto; try lia.
    - apply lookup_ge_None. lia.
    - intros H0. destruct (Hprev H0) as (p & -> & _). eauto. }
  assert (He : exists e, elements !! index = Some e).
  { apply lookup_lt_is_Some. lia. }
  destruct He as [e He].
  destruct fuel as [|fuel]; [lia|].
  assert (Hal : forall b, In b olds -> is_Some (heap st !! b)).
  { intros b Hb. apply lookup_lt_is_Some. eauto using chain_allocated. }
  pose proof (chain_head _ _ _ Hch) as ->.
  destruct (reconcile_iteration index (head olds) prevSibling st e Hw) as
    (st3 & Hlink & Hl3 & Hd3 & Hnf & Hframe).
  { intros a Ha. apply Hal. destruct olds; [done|]. injection Ha as ->. by left. }
  { intros H0. destruct (Hprev H0) as (p & ? & ? & _). eauto. }
  destruct (chain_after_iteration index olds prevSibling st st3 Hch) as
    (next & Hch3 & Hnext).
  { intros H0. destruct (Hprev H0) as (p & ? & _ & ?). eauto. }
  { intros b f Hf. destruct (Hframe b f Hf) as (f3 & ? & _ & _ & _ & ?). eauto. }
  assert (Hold : exists old, match head olds with
                             | Some a => heap st !! a = Some old
                             | None => True
                             end).
  { destruct olds as [|a olds']; [destruct Hw as [w _]; by exists w|].
    destruct (Hal a) as [fa Hfa]; [by left|]. by exists fa. }
  destruct Hold as [old Hold].
  rewrite (reconcile_step_element fuel index (head olds) prevSibling st e old He Hold).
  cbn zeta. rewrite Hlink, bind_Ret, (Hnext old Hold).
  destruct (IH (S index) (tail olds) next (Some (length (heap st))) st3 fuel)
    as (st' & Hrun & Hpost).
  - lia.
  - destruct Hw as [w Hw]. destruct (Hframe _ _ Hw) as (f3 & -> & _). eauto.
  - exact Hch3.
  - destruct olds; [done|]. by apply NoDup_cons in Hnd as [_ ?].
  - destruct olds; simpl in *; lia.
  - intros _. exists (length (heap st)). split; [done|]. split.
    + rewrite Hnf. eauto.
    + intros Hin. assert (Hin' : In (length (heap st)) olds) by (destruct olds; simpl; auto).
      destruct (Hal _ Hin') as [f Hf]. apply lookup_lt_Some in Hf. lia.
  - destruct olds; simpl in *; lia.
  - exists st'. split; [exact Hrun|].
    eapply reconciled_compose; eauto.
Qed.

(** The loop outside that domain: with two old children more than there
    are descriptions left, the iteration after the first extra old child
    runs with [prevSibling = null] and [index > 0], and throws. *)
Lemma reconcile_loop_throws : forall k index olds oldFiber prevSibling st fuel,
  (length elements - index = k)%nat ->
  is_Some (heap st !! wipFiber) ->
  chain st oldFiber olds ->
  (k + 2 <= length olds)%nat ->
  (index <> 0%nat ->
   exists p, prevSibling = Some p /\ is_Some (heap st !! p) /\ ~ In p olds) ->
  (k + 2 <= fuel)%nat ->
  reconcile_loop fuel wipFiber elements index oldFiber prevSibling st = Throw TypeError.
Proof.
  induction k as [|k IH];
    intros index olds oldFiber prevSibling st fuel Hk Hw Hch Hlen Hprev Hfuel.
  - assert (He : elements !! index = None) by (apply lookup_ge_None; lia).
    assert (He' : elements !! S index = None) by (apply lookup_ge_None; lia).
    destruct olds as [|a [|a' rest]]; simpl in Hlen; try lia.
    apply chain_cons_inv in Hch as (-> & fa & Hfa & Hch).
    apply chain_cons_inv in Hch as (Hsib & fa' & Hfa' & _).
    destruct fuel as [|[|fuel]]; try lia.
    rewrite (reconcile_step_old_only _ index a prevSibling st fa He Hfa), Hsib.
    assert (Hlink : exists st3,
              linkFiber index wipFiber prevSibling None (tagDeleted a st) = Ret st3
              /\ length (heap st3) = length (heap st)).
    { unfold linkFiber. destruct (Nat.eqb index 0) eqn:E0.
      - eexists. split; [done|]. by rewrite length_update_fiber, length_tagDeleted.
      - apply Nat.eqb_neq in E0. destruct (Hprev E0) as (p & -> & _).
        eexists. split; [done|]. by rewrite length_update_fiber, length_tagDeleted. }
    destruct Hlink as (st3 & -> & Hl3). rewrite bind_Ret.
    assert (Hold : is_Some (heap st3 !! a')).
    { apply lookup_lt_is_Some. rewrite Hl3. by apply lookup_lt_Some in Hfa'. }
    destruct Hold as [old' Hold'].
    by rewrite (reconcile_step_old_only _ (S index) a' None st3 old' He' Hold').
  - assert (He : exists e, elements !! index = Some e).
    { apply lookup_lt_is_Some. lia. }
    destruct He as [e He].
    destruct fuel as [|fuel]; [lia|].
    assert (Hal : forall b, In b olds -> is_Some (heap st !! b)).
    { intros b Hb. apply lookup_lt_is_Some. eauto using chain_allocated. }
    pose proof (chain_head _ _ _ Hch) as ->.
    destruct (reconcile_iteration index (head olds) prevSibling st e Hw) as
      (st3 & Hlink & Hl3 & Hd3 & Hnf & Hframe).
    { intros a Ha. apply Hal. destruct olds; [done|]. injection Ha as ->. by left. }
    { intros H0. destruct (Hprev H0) as (p & ? & ? & _). eauto. }
    destruct (chain_after_iteration index olds prevSibling st st3 Hch) as
      (next & Hch3 & Hnext).
    { intros H0. destruct (Hprev H0) as (p & ? & _ & ?). eauto. }
    { intros b f Hf. destruct (Hframe b f Hf) as (f3 & ? & _ & _ & _ & ?). eauto. }
    assert (Hold : exists old, match head olds with
                               | Some a => heap st !! a = Some old
                               | None => True
                               end).
    { destruct olds as [|a olds']; [destruct Hw as [w _]; by exists w|].
      destruct (Hal a) as [fa Hfa]; [by left|]. by exists fa. }
    destruct Hold as [old Hold].
    rewrite (reconcile_step_element fuel index (head olds) prevSibling st e old He Hold).
    cbn zeta. rewrite Hlink, bind_Ret, (Hnext old Hold).
    apply (IH (S index) (tail olds)); try lia.
    + destruct Hw as [w Hw]. destruct (Hframe _ _ Hw) as (f3 & -> & _). eauto.
    + exact Hch3.
    + destruct olds; simpl in *; lia.
    + intros _. exists (length (heap st)). split; [done|]. split.
      * rewrite Hnf. eauto.
      * intros Hin.
        assert (Hin' : In (length (heap st)) olds) by (destruct olds; simpl; auto).
        destruct (Hal _ Hin') as [f Hf]. apply lookup_lt_Some in Hf. lia.
Qed.

(** X1. [reconcileChildren] as a whole.  [olds] is the chain of
    children of the previous generation of [wipFiber].  With at most one
    old child more than there are descriptions the call returns, and the
    heap is as [reconciledFrom] says: one new fiber per description, in
    order, tagged [UPDATE] (reusing the old host node, pointing at the
    old fiber) where the old child at the position has the same type and
    [PLACEMENT] otherwise; these fibers linked as the new child chain of
    [wipFiber]; every unmatched old child tagged [DELETION] and queued;
    nothing else changed. *)
Lemma reconcileChildren_spec st w oldFiber olds fuel :
  heap st !! wipFiber = Some w ->
  match alternate w with
  | Some a => exists o, heap st !! a = Some o /\ child o = oldFiber
  | None => oldFiber = None
  end ->
  chain st oldFiber olds -> NoDup olds ->
  (length olds <= length elements + 1)%nat ->
  (Nat.max (length elements) (length olds) <= fuel)%nat ->
  exists st',
    reconcileChildren fuel wipFiber elements st = Ret st'
    /\ reconciledFrom wipFiber elements 0 olds None st st'.
Proof.
  intros Hw Halt Hch Hnd Hlen Hfuel.
  unfold reconcileChildren.
  replace (fiber_at st wipFiber) with (Ret w) by (unfold fiber_at; by rewrite Hw).
  rewrite bind_Ret.
  assert (Hold : match alternate w with
                 | Some a => o ← fiber_at st a; Ret (child o)
                 | None => Ret None
                 end = Ret oldFiber).
  { destruct (alternate w) as [a|]; [|by subst].
    destruct Halt as (o & Ho & <-). unfold fiber_at. by rewrite Ho. }
  rewrite Hold, bind_Ret.
  apply (reconcile_loop_spec (length elements)); eauto; try lia; done.
Qed.

(** X2. With two or more old children in excess of the descriptions,
    [reconcileChildren] throws a [TypeError]: the iteration that follows
    the first extra old child runs [prevSibling.sibling = newFiber] with
    [prevSibling] being [null]. *)
Lemma reconcileChildren_throws st w oldFiber olds fuel :
  heap st !! wipFiber = Some w ->
  match alternate w with
  | Some a => exists o, heap st !! a = Some o /\ child o = oldFiber
  | None => oldFiber = None
  end ->
  chain st oldFiber olds ->
  (length elements + 2 <= length olds)%nat ->
  (length elements + 2 <= fuel)%nat ->
  reconcileChildren fuel wipFiber elements st = Throw TypeError.
Proof.
  intros Hw Halt Hch Hlen Hfuel.
  unfold reconcileChildren.
  replace (fiber_at st wipFiber) with (Ret w) by (unfold fiber_at; by rewrite Hw).
  rewrite bind_Ret.
  assert (Hold : match alternate w with
                 | Some a => o ← fiber_at st a; Ret (child o)
                 | None => Ret None
                 end = Ret oldFiber).
  { destruct (alternate w) as [a|]; [|by subst].
    destruct Halt as (o & Ho & <-). unfold fiber_at. by rewrite Ho. }
  rewrite Hold, bind_Ret.
  apply (reconcile_loop_throws (length elements) 0 olds); eauto; try lia; done.
Qed.

End Reconcile.

(** The previous generation has the children [a] and [b]; the new
    descriptions are [<a id='1'/>] and [<c/>]. *)
Lemma reconcileChildren_spec_witness :
  exists st',
    reconcileChildren 16 3 [Element "a" [("id", VStr "1")] []; Element "c" [] []]
      two_old_children = Ret st'
    /\ reconciledFrom 3 [Element "a" [("id", VStr "1")] []; Element "c" [] []] 0
         [1; 2]%nat None two_old_children st'.
Proof.
  eapply (reconcileChildren_spec 3 _ two_old_children _ (Some 1%nat) [1; 2]%nat).
  - reflexivity.
  - cbn. eexists. split; reflexivity.
  - econstructor; [reflexivity|]. econstructor; [reflexivity|]. constructor.
  - apply NoDup_cons. split; [intros [=]%list_elem_of_singleton|].
    apply NoDup_cons. split; [by intros ?%elem_of_nil | constructor].
  - simpl. lia.
  - simpl. lia.
Defined.

(** The chain of old children is [1; 2] under an empty description
    array. *)
Lemma reconcileChildren_throws_witness :
  reconcileChildren 16 3 [] two_old_children = Throw TypeError.
Proof.
  eapply (reconcileChildren_throws 3 [] two_old_children _ (Some 1%nat) [1; 2]%nat).
  - reflexivity.
  - cbn. eexists. split; reflexivity.
  - econstructor; [reflexivity|]. econstructor; [reflexivity|]. constructor.
  - simpl. lia.
  - simpl. lia.
Defined.

End DidactFacts.

(** ** The fiber engine *)

Section MainFacts.
Import Host Fiber Dom Main Examples.

(** [commitRoot] of the entry module never moves [root.current]: the
    finished tree is stored on the container instead. *)
Lemma commitRoot_keeps_root_current fuel m m' :
  Main.commitRoot fuel m = Ret m' ->
  root_current m' = root_current m
  /\ exists cur finishedWork,
       fibers (st m) !! root_current m = Some cur
       /\ alternate cur = Some finishedWork
       /\ container_current m' = Some finishedWork.
Proof.
  unfold Main.commitRoot, fiber_at, deref.
  destruct (fibers (st m) !! root_current m) as [cur|] eqn:Hc; [|discriminate]. cbn.
  destruct (alternate cur) as [fw|] eqn:Ha; [|discriminate].
  destruct (fibers (st m) !! fw); [|discriminate]. cbn.
  destruct (commitFirstHost _ _ _ _) as [s1| |]; [|discriminate..]. cbn.
  intros [= <-]. simpl. split; [done|]. exists cur, fw. auto.
Qed.

(** C4. The entry module after initialisation and [render()] of the
    class component of the source: the finished work tree is the fiber
    at address 1 (the alternate of the host root fiber, address 0), the
    [workInProgress] cursor is [null], and [commitRoot] has stored the
    finished tree in [container.current] -- [root.current] is still the
    initial host root fiber, so the finished tree was not promoted. *)
Theorem entry_commitRoot_does_not_promote_finished_work :
  exists m tr cur,
    app_rendered = Ret (m, tr)
    /\ workInProgress m = None
    /\ fibers (st m) !! root_current m = Some cur
    /\ alternate cur = Some 1%nat
    /\ container_current m = Some 1%nat
    /\ root_current m = 0%nat.
Proof.
  do 3 eexists. split; [vm_compute; reflexivity|]. repeat split.
Qed.


(** *** Text children *)

Lemma setInitialProp_extends d h k v :
  (String.eqb k "style" = true -> is_object v = true) ->
  exists h', setInitialProp d h (k, v) = Ret h' /\ extends h h'
    /\ (String.eqb k "children" = true -> is_primitive_text v = true ->
        In (SetProp d "textContent" v) (calls h')).
Proof.
  intros Hv. unfold setInitialProp.
  destruct (String.eqb k "style") eqn:Es.
  - destruct (is_object_inv _ (Hv eq_refl)) as (r & fs & ->). cbn.
    eexists. split; [reflexivity|]. split.
    + apply extends_fold. intros. apply extends_setStyle.
    + apply String.eqb_eq in Es. subst k. discriminate.
  - destruct (String.eqb k "children") eqn:Ec.
    + eexists. split; [reflexivity|]. split.
      * destruct (is_primitive_text v); [apply extends_setProp | apply extends_refl].
      * intros _ ->. unfold setProp, log. simpl. apply in_or_app. right. by left.
    + eexists. split; [reflexivity|]. split; [apply extends_setProp | discriminate].
Qed.

Lemma setInitialProps_loop d props :
  style_ok props = true ->
  forall h, exists h',
    foldM (setInitialProp d) props h = Ret h' /\ extends h h'
    /\ (forall v, In ("children", v) props -> is_primitive_text v = true ->
          In (SetProp d "textContent" v) (calls h')).
Proof.
  induction props as [|[k v] props IH]; intros Hok h.
  - exists h. split; [done|]. split; [apply extends_refl | intros ? []].
  - apply style_ok_cons in Hok as [Hv Hok].
    destruct (setInitialProp_extends d h k v Hv) as (h1 & E1 & X1 & T1).
    destruct (IH Hok h1) as (h' & E2 & X2 & T2).
    exists h'. cbn [foldM]. rewrite E1. cbn. split; [exact E2|].
    split; [eauto using extends_trans|].
    intros v0 [[= -> ->] | Hin] Hp.
    + eapply extends_In; [exact X2|]. by apply T1.
    + by apply T2.
Qed.



(** *** The pending update queue of a class component *)

Lemma mergeUpdates_ring us pendingState a l :
  ring us pendingState a l ->
  forall fuel acc, (length l <= fuel)%nat ->
  mergeUpdates fuel us pendingState a acc = Ret (foldUpdates l acc).
Proof.
  induction 1 as [u Hu | a u n l Hne Hu Hn _ IH]; intros fuel acc Hf.
  - destruct fuel as [|fuel]; [simpl in Hf; lia|].
    cbn [mergeUpdates]. unfold deref. rewrite Hu. cbn.
    by rewrite Nat.eqb_refl.
  - destruct fuel as [|fuel]; [simpl in Hf; lia|].
    cbn [mergeUpdates]. unfold deref. rewrite Hu. cbn.
    apply Nat.eqb_neq in Hne. rewrite Hne, Hn.
    rewrite IH by (simpl in Hf; lia). reflexivity.
Qed.

(** C8. A class-component fiber on a later render ([current] not null)
    whose pending list is a ring through the entry the queue refers to:
    [beginWork] returns (the loop needs no more steps than the ring has
    entries), the entries met from [pendingState.next] up to and
    including [pendingState] are shallow-merged into the instance's state
    in exactly that order, the traversal stopping at [pendingState], and
    [render()] is then evaluated on the merged state to give the child
    description that is attached. *)
Theorem beginWork_folds_pending_updates :
  forall (C : components) (fuel : nat) (cur wip : nat) (s : store)
         (w curf : FiberNode) (i : nat) (inst : instance)
         (pendingState first : nat) (p : update) (l : list update),
    fibers s !! wip = Some w ->
    tag w = Some ClassComponent ->
    stateNode w = Some (SInst i) ->
    instances s !! i = Some inst ->
    fibers s !! cur = Some curf ->
    queues s !! updateQueue curf = Some (Some pendingState) ->
    updates s !! pendingState = Some p ->
    next p = Some first ->
    ring (updates s) pendingState first l ->
    (length l <= fuel)%nat ->
    let merged := foldUpdates l (own_fields (i_state inst)) in
    beginWork C fuel (Some cur) wip s
    = attachChild wip
        (render_method C (i_class inst) (i_props inst) (VObj (fresh s) merged))
        (storeState i inst merged s)
    /\ last l = Some p.
Proof.
  intros C fuel cur wip s w curf i inst pendingState first p l
         Hw Ht Hs Hi Hc Hq Hp Hn Hr Hf merged.
  split.
  - unfold beginWork, fiber_at, deref. rewrite Hw. cbn. rewrite Ht, Hs, Hi. cbn.
    rewrite Hc. cbn. rewrite Hq. cbn. rewrite Hp. cbn. rewrite Hn.
    rewrite (mergeUpdates_ring _ _ _ _ Hr) by exact Hf. reflexivity.
  - clear -Hr Hp. induction Hr as [u Hu | a u n l Hne Hu Hn' Hr IH].
    + simpl. congruence.
    + destruct l as [|u' l]; [inversion Hr|]. exact IH.
Qed.

(** Three calls of [setState] on the counter: the state after
    [beginWork] is the original state overwritten by the three payloads,
    oldest first, and the child fiber carries what [render] made of it. *)
Lemma beginWork_folds_pending_updates_witness :
  exists c s',
    beginWork Counter 3 (Some 0%nat) 1 counter_store = Ret (Some c, s')
    /\ (i_state <$> instances s' !! 0%nat)
       = Some (VObj 10 [("count", VNum 2); ("name", VStr "y"); ("seen", VBool true)])
    /\ (pendingProps <$> fibers s' !! c)
       = Some (VObj 61 [("state", VObj 10 [("count", VNum 2); ("name", VStr "y");
                                           ("seen", VBool true)])]).
Proof.
  pose proof (beginWork_folds_pending_updates Counter 3 0 1 counter_store
    _ _ 0%nat _ 2%nat 0%nat _
    [mkUpdate (VObj 3 [("count", VNum 1)]) (Some 1%nat);
     mkUpdate (VObj 4 [("count", VNum 2); ("seen", VBool true)]) (Some 2%nat);
     mkUpdate (VObj 5 [("name", VStr "y")]) (Some 0%nat)]
    eq_refl eq_refl eq_refl eq_refl eq_refl eq_refl eq_refl eq_refl) as H.
  destruct H as [H _].
  - apply ring_step with (n := 1%nat); [lia | reflexivity | reflexivity |].
    apply ring_step with (n := 2%nat); [lia | reflexivity | reflexivity |].
    apply ring_last. reflexivity.
  - simpl. lia.
  - rewrite H. do 2 eexists. split; [vm_compute; reflexivity|].
    split; reflexivity.
Defined.

(** *** The order of the render loop *)

Section RenderOrder.

Abbreviation memoize w :=
  (update_fiber w (fun x => set_memoizedProps (pendingProps x) x)).
Abbreviation loop := (renderLoop followChild completeNothing).

Lemma tree_ind' (P : tree -> Prop) :
  (forall a ks, Forall P ks -> P (Node a ks)) -> forall t, P t.
Proof.
  intros H. fix IH 1. intros [a ks]. apply H.
  induction ks as [|k ks IHks]; constructor; [apply IH | exact IHks].
Qed.

Lemma same_links_refl s : same_links s s.
Proof. by intros a. Qed.

Lemma same_links_trans s1 s2 s3 :
  same_links s1 s2 -> same_links s2 s3 -> same_links s1 s3.
Proof. intros H1 H2 a. by rewrite H1. Qed.

Lemma same_links_memoize w s : same_links s (memoize w s).
Proof.
  intros a. unfold update_fiber.
  destruct (fibers s !! w) as [n|] eqn:Hw; [|done]. simpl.
  destruct (decide (a = w)) as [->|Hne].
  - rewrite list_lookup_insert_eq by (by apply lookup_lt_Some in Hw).
    by rewrite Hw.
  - by rewrite list_lookup_insert_ne.
Qed.

Lemma same_links_lookup s s' a n :
  same_links s s' -> fibers s !! a = Some n ->
  exists n', fibers s' !! a = Some n'
    /\ return_ n' = return_ n /\ child n' = child n /\ sibling n' = sibling n.
Proof.
  intros H Hn. specialize (H a). rewrite Hn in H.
  destruct (fibers s' !! a) as [n'|]; [|discriminate].
  exists n'. injection H as H1 H2 H3. auto.
Qed.

Lemma laid_same_links s s' parent head ts :
  same_links s s' -> laid s parent head ts -> laid s' parent head ts.
Proof.
  intros H. induction 1 as [|parent a n ks rest Hn Hr _ IHk _ IHr].
  - constructor.
  - destruct (same_links_lookup _ _ _ _ H Hn) as (n' & Hn' & E1 & E2 & E3).
    rewrite <- E3 in IHr. rewrite <- E2 in IHk.
    econstructor; eauto. congruence.
Qed.

Lemma loop_done fuel d s tr : loop fuel d None s tr = Ret (s, tr).
Proof. by destruct fuel. Qed.

Lemma loop_begin fuel w s tr n :
  fibers s !! w = Some n ->
  loop (S fuel) true (Some w) s tr
  = match child n with
    | Some c => loop fuel true (Some c) (memoize w s) (tr ++ [Begin w])
    | None => loop fuel false (Some w) (memoize w s) (tr ++ [Begin w])
    end.
Proof.
  intros Hn. cbn [renderLoop]. unfold followChild, fiber_at, deref.
  rewrite Hn. reflexivity.
Qed.

Lemma loop_complete fuel w s tr n :
  fibers s !! w = Some n ->
  loop (S fuel) false (Some w) s tr
  = match sibling n with
    | Some sb => loop fuel true (Some sb) s (tr ++ [Complete w])
    | None => loop fuel false (return_ n) s (tr ++ [Complete w])
    end.
Proof.
  intros Hn. cbn [renderLoop]. unfold completeNothing, fiber_at, deref.
  cbn. rewrite Hn. reflexivity.
Qed.

Lemma forest_size_cons a ks rest :
  forest_size (Node a ks :: rest) = S (forest_size ks + forest_size rest).
Proof. reflexivity. Qed.

Lemma laid_nil_inv s parent head : laid s parent head [] -> head = None.
Proof. by inversion 1. Qed.

Lemma laid_cons_inv s parent head a ks rest :
  laid s parent head (Node a ks :: rest) ->
  head = Some a
  /\ exists n, fibers s !! a = Some n /\ return_ n = parent
       /\ laid s (Some a) (child n) ks /\ laid s parent (sibling n) rest.
Proof. inversion 1; subst. eauto 10. Qed.

(** Started at the head of a sibling chain, the loop walks the whole
    forest and arrives at the completion of the parent. *)
Lemma loop_walks_forest : forall N ts,
  (forest_size ts <= N)%nat ->
  forall s parent a, laid s parent (Some a) ts ->
  forall k tr, exists s',
    same_links s s'
    /\ loop (2 * forest_size ts + k) true (Some a) s tr
       = loop k false parent s' (tr ++ flat_map walk ts).
Proof.
  induction N as [|N IH]; intros ts Hsz s parent a0 Hl k tr.
  { destruct ts as [|[a ks] rest]; [by apply laid_nil_inv in Hl|].
    rewrite forest_size_cons in Hsz. lia. }
  destruct ts as [|[a ks] rest]; [by apply laid_nil_inv in Hl|].
  apply laid_cons_inv in Hl as ([= ->] & n & Hn & Hret & Hks & Hrest).
  rewrite forest_size_cons in Hsz |- *.
  replace (2 * S (forest_size ks + forest_size rest) + k)%nat
    with (S (2 * forest_size ks + S (2 * forest_size rest + k)))%nat by lia.
  rewrite (loop_begin _ _ _ _ _ Hn).
  pose proof (same_links_memoize a s) as Hm.
  (* the children *)
  assert (exists s3, same_links s s3
            /\ match child n with
               | Some c => loop (2 * forest_size ks + S (2 * forest_size rest + k)) true
                             (Some c) (memoize a s) (tr ++ [Begin a])
               | None => loop (2 * forest_size ks + S (2 * forest_size rest + k)) false
                           (Some a) (memoize a s) (tr ++ [Begin a])
               end
               = loop (S (2 * forest_size rest + k)) false (Some a) s3
                   (tr ++ Begin a :: flat_map walk ks)) as (s3 & H3 & ->).
  { destruct ks as [|[c kc] ks'].
    - apply laid_nil_inv in Hks as ->.
      exists (memoize a s). split; [exact Hm|]. reflexivity.
    - pose proof (laid_cons_inv _ _ _ _ _ _ Hks) as (Hc & _). rewrite Hc in Hks |- *.
      destruct (IH (Node c kc :: ks') ltac:(lia) (memoize a s) (Some a) c
                  (laid_same_links _ _ _ _ _ Hm Hks)
                  (S (2 * forest_size rest + k)) (tr ++ [Begin a]))
        as (s3 & Hs3 & ->).
      exists s3. split; [eauto using same_links_trans|].
      by rewrite <- app_assoc. }
  (* the node itself, then its siblings *)
  destruct (same_links_lookup _ _ _ _ H3 Hn) as (n3 & Hn3 & E1 & E2 & E3).
  rewrite (loop_complete _ _ _ _ _ Hn3), E3, E1, Hret.
  pose proof (laid_same_links _ _ _ _ _ H3 Hrest) as Hrest3.
  destruct rest as [|[b kb] rest'].
  - apply laid_nil_inv in Hrest3 as ->.
    exists s3. split; [exact H3|]. cbn [flat_map walk forest_size map list_sum].
    replace (2 * 0 + k)%nat with k by lia.
    rewrite app_nil_r. f_equal. rewrite <- !app_assoc. cbn [app].
    rewrite <- ?app_assoc. reflexivity.
  - pose proof (laid_cons_inv _ _ _ _ _ _ Hrest3) as (Hb & _).
    rewrite Hb in Hrest3 |- *.
    destruct (IH (Node b kb :: rest') ltac:(lia) s3 parent b Hrest3 k
                ((tr ++ Begin a :: flat_map walk ks) ++ [Complete a]))
      as (s4 & Hs4 & ->).
    exists s4. split; [eauto using same_links_trans|].
    f_equal. cbn [flat_map walk]. rewrite <- !app_assoc. cbn [app].
    rewrite <- !app_assoc. reflexivity.
Qed.

Lemma begun_app l1 l2 : begun (l1 ++ l2) = begun l1 ++ begun l2.
Proof. apply omap_app. Qed.

Lemma completed_app l1 l2 : completed (l1 ++ l2) = completed l1 ++ completed l2.
Proof. apply omap_app. Qed.

Lemma begun_walk t : begun (walk t) = preorder t.
Proof.
  induction t as [a ks IH] using tree_ind'. cbn [walk preorder].
  change (begun (Begin a :: ?l)) with (a :: begun l).
  rewrite begun_app. cbn. rewrite app_nil_r. f_equal.
  induction IH as [|k ks Hk _ IHks]; [done|].
  cbn [flat_map]. by rewrite begun_app, Hk, IHks.
Qed.

Lemma completed_walk t : completed (walk t) = postorder t.
Proof.
  induction t as [a ks IH] using tree_ind'. cbn [walk postorder].
  change (completed (Begin a :: ?l)) with (completed l).
  rewrite completed_app. cbn. f_equal.
  induction IH as [|k ks Hk _ IHks]; [done|].
  cbn [flat_map]. by rewrite completed_app, Hk, IHks.
Qed.

Lemma walk_has_every_step t :
  forall x, In x (preorder t) -> In (Begin x) (walk t) /\ In (Complete x) (walk t).
Proof.
  induction t as [a ks IH] using tree_ind'. intros x. cbn [walk preorder].
  intros [<- | Hx].
  - split; [by left|]. right. apply in_or_app. right. by left.
  - apply in_flat_map in Hx as (k & Hk & Hx).
    rewrite Forall_forall in IH.
    destruct (IH k ltac:(by apply list_elem_of_In) x Hx) as [HB HC].
    split; right; apply in_or_app; left; apply in_flat_map; eauto.
Qed.

Lemma forest_has_every_step ks x :
  In x (flat_map preorder ks) ->
  In (Begin x) (flat_map walk ks) /\ In (Complete x) (flat_map walk ks).
Proof.
  intros Hx. apply in_flat_map in Hx as (k & Hk & Hx).
  destruct (walk_has_every_step k x Hx).
  split; apply in_flat_map; eauto.
Qed.

Lemma walk_subtree u t :
  subtree u t -> exists pre post, walk t = pre ++ walk u ++ post.
Proof.
  induction 1 as [|a ks k Hk _ (pre & post & IH)].
  - exists [], []. by rewrite app_nil_r.
  - apply in_split in Hk as (l1 & l2 & ->).
    exists (Begin a :: flat_map walk l1 ++ pre), (post ++ flat_map walk l2 ++ [Complete a]).
    cbn [walk]. rewrite flat_map_app. cbn [flat_map]. rewrite IH.
    rewrite <- !app_assoc. cbn [app]. rewrite <- !app_assoc. reflexivity.
Qed.



End RenderOrder.

(** *** Where [appendChildren] does attach every nearest host node *)

Section AppendChildren.
Variables dom wip : nat.

Lemma appended_app ds1 ds2 s :
  appended dom ds2 (appended dom ds1 s) = appended dom (ds1 ++ ds2) s.
Proof. unfold appended. simpl. by rewrite fold_left_app. Qed.

Lemma appended_nil s : appended dom [] s = with_host s (host s).
Proof. reflexivity. Qed.

Lemma with_host_same s : with_host s (host s) = s.
Proof. by destruct s. Qed.

Lemma laid_appended ds s parent head ts :
  laid s parent head ts -> laid (appended dom ds s) parent head ts.
Proof. apply laid_same_links. by intros a. Qed.

Lemma attachable_cons fs t ts :
  forallb (attachable fs) (t :: ts) = true ->
  attachable fs t = true /\ forallb (attachable fs) ts = true.
Proof. simpl. intros H. by apply andb_true_iff in H. Qed.

Lemma climb_sibling f s c n sb :
  fibers s !! c = Some n -> sibling n = Some sb ->
  climb (S f) s wip c = Ret (Some sb).
Proof. intros Hn Hs. cbn [climb]. unfold fiber_at, deref. by rewrite Hn; cbn; rewrite Hs. Qed.

Lemma climb_up f s c n p :
  fibers s !! c = Some n -> sibling n = None -> return_ n = Some p ->
  climb (S f) s wip c = if Nat.eqb p wip then Ret None else climb f s wip p.
Proof.
  intros Hn Hs Hr. cbn [climb]. unfold fiber_at, deref.
  by rewrite Hn; cbn; rewrite Hs, Hr.
Qed.

(** The forest below [p], then whatever follows at [p]. *)
Lemma appendChildren_forest : forall N ts,
  (forest_size ts <= N)%nat ->
  forall s p a,
    laid s (Some p) (Some a) ts ->
    forallb (attachable (fibers s)) ts = true ->
    ~ In wip (flat_map preorder ts) ->
    forall res M,
      (forall F f, (M <= F)%nat -> (M <= f)%nat ->
         climbFrom dom wip F f p (appended dom (flat_map (hostDoms (fibers s)) ts) s)
         = Ret res) ->
      forall F, (M + 2 * forest_size ts <= F)%nat ->
        appendChildren_loop F dom wip (Some a) s = Ret res.
Proof.
  induction N as [|N IH]; intros ts Hsz s p a0 Hl Hat Hwip res M Hk F HF.
  { destruct ts as [|[a ks] rest]; [by apply laid_nil_inv in Hl|].
    rewrite forest_size_cons in Hsz. lia. }
  destruct ts as [|[a ks] rest]; [by apply laid_nil_inv in Hl|].
  apply laid_cons_inv in Hl as ([= ->] & n & Hn & Hret & Hks & Hrest).
  rewrite forest_size_cons in Hsz, HF.
  apply attachable_cons in Hat as [Ha Hrest_at].
  cbn [flat_map preorder] in Hwip. rewrite in_app_iff in Hwip. simpl in Hwip.
  assert (Hne : a <> wip) by (intros ->; apply Hwip; left; by left).
  assert (Hwip_ks : ~ In wip (flat_map preorder ks)).
  { intros H. apply Hwip. left. by right. }
  assert (Hwip_rest : ~ In wip (flat_map preorder rest)).
  { intros H. apply Hwip. by right. }
  cbn [attachable] in Ha. rewrite Hn in Ha.
  cbn [flat_map hostDoms] in Hk. rewrite Hn in Hk.
  destruct F as [|F]; [lia|].
  cbn [appendChildren_loop]. unfold fiber_at, deref. rewrite Hn. cbn.
  destruct (is_host_tag (tag n)) eqn:Htag.
  - (* a host fiber: its node is appended, the climb starts here *)
    destruct (stateNode n) as [[d| |]|] eqn:Hsn; try discriminate.
    cbn. apply Nat.eqb_neq in Hne. rewrite Hne.
    change (with_host s (Host.appendChild dom d (host s))) with (appended dom [d] s).
    destruct F as [|f]; [lia|].
    destruct rest as [|[b kb] rest'].
    + apply laid_nil_inv in Hrest.
      rewrite (climb_up _ (appended dom [d] s) _ _ _ Hn Hrest Hret).
      specialize (Hk (S f) f ltac:(lia) ltac:(lia)).
      cbn [flat_map] in Hk. rewrite app_nil_r in Hk.
      unfold climbFrom in Hk. destruct (Nat.eqb p wip); [exact Hk | exact Hk].
    + pose proof (laid_cons_inv _ _ _ _ _ _ Hrest) as (Hb & _).
      rewrite (climb_sibling _ (appended dom [d] s) _ _ _ Hn Hb), bind_Ret.
      rewrite Hb in Hrest.
      apply (IH (Node b kb :: rest') ltac:(lia) (appended dom [d] s) p b
               (laid_appended _ _ _ _ _ Hrest) Hrest_at Hwip_rest res M); [|lia].
      intros F' f' HF' Hf'. rewrite appended_app. by apply Hk.
  - (* a component-tag fiber: down to its first child *)
    destruct ks as [|[c kc] ks']; [discriminate|].
    pose proof (laid_cons_inv _ _ _ _ _ _ Hks) as (Hc & _). rewrite Hc in Hks |- *.
    apply (IH (Node c kc :: ks') ltac:(lia) s a c Hks Ha Hwip_ks res
             (M + 2 * forest_size rest + 1)%nat); [|lia].
    intros F' f' HF' Hf'.
    set (s2 := appended dom (flat_map (hostDoms (fibers s)) (Node c kc :: ks')) s) in *.
    unfold climbFrom. apply Nat.eqb_neq in Hne. rewrite Hne.
    destruct f' as [|f']; [lia|].
    destruct rest as [|[b kb] rest'].
    + apply laid_nil_inv in Hrest.
      rewrite (climb_up _ s2 _ _ _ Hn Hrest Hret).
      specialize (Hk F' f' ltac:(lia) ltac:(lia)).
      cbn [flat_map] in Hk. rewrite app_nil_r in Hk. fold s2 in Hk.
      unfold climbFrom in Hk. destruct (Nat.eqb p wip); [exact Hk | exact Hk].
    + pose proof (laid_cons_inv _ _ _ _ _ _ Hrest) as (Hb & _).
      rewrite (climb_sibling _ s2 _ _ _ Hn Hb), bind_Ret.
      rewrite Hb in Hrest.
      apply (IH (Node b kb :: rest') ltac:(lia) s2 p b
               (laid_appended _ _ _ _ _ Hrest) Hrest_at Hwip_rest res M); [|lia].
      intros F'' f'' HF'' Hf''. subst s2. rewrite appended_app. by apply Hk.
Qed.

(** X6. When every component-tag fiber below [workInProgress] has a child
    and every host fiber met is completed, [appendChildren] returns and
    has appended, in order, the host nodes of the nearest host-bearing
    descendants and nothing else. *)
Lemma appendChildren_attaches_nearest_hosts (s : store) (w : FiberNode)
    (ts : list tree) (fuel : nat) :
  fibers s !! wip = Some w ->
  laid s (Some wip) (child w) ts ->
  forallb (attachable (fibers s)) ts = true ->
  ~ In wip (flat_map preorder ts) ->
  (2 * forest_size ts <= fuel)%nat ->
  appendChildren fuel dom wip s
  = Ret (appended dom (flat_map (hostDoms (fibers s)) ts) s).
Proof.
  intros Hw Hl Hat Hwip Hf. unfold appendChildren, fiber_at, deref. rewrite Hw. cbn.
  destruct ts as [|[a ks] rest].
  - apply laid_nil_inv in Hl as ->.
    rewrite appended_nil, with_host_same. by destruct fuel.
  - pose proof (laid_cons_inv _ _ _ _ _ _ Hl) as (Ha & _). rewrite Ha in Hl |- *.
    apply (appendChildren_forest _ _ (le_n _) s wip a Hl Hat Hwip _ 0%nat); [|lia].
    intros F f _ _. unfold climbFrom. by rewrite Nat.eqb_refl.
Qed.

End AppendChildren.

(** Below the host fiber 1 of [completed_children], the text node and
    the host node rendered by the function component are attached. *)
Lemma appendChildren_attaches_nearest_hosts_witness :
  appendChildren 8 0 1 completed_children
  = Ret (appended 0 [1%nat; 2%nat] completed_children).
Proof.
  apply (appendChildren_attaches_nearest_hosts 0 1 completed_children _
           [Node 3 []; Node 4 [Node 5 []]] 8 eq_refl).
  - eapply laid_cons; [reflexivity | reflexivity | apply laid_nil |].
    eapply laid_cons; [reflexivity | reflexivity | | apply laid_nil].
    eapply laid_cons; [reflexivity | reflexivity | apply laid_nil | apply laid_nil].
  - reflexivity.
  - simpl. lia.
  - simpl. lia.
Defined.

End MainFacts.

(** ** Event delegation *)

Section EventFacts.
Import Host Fiber Main Events Examples.

Lemma accumulateLoop_ancestry s name start path :
  ancestry s start path ->
  forall cs fuel acc,
    Forall2 (fun n c => listenerOf name n = Ret c) path cs ->
    (length path <= fuel)%nat ->
    accumulateLoop fuel s name start acc = Ret (acc ++ omap id cs).
Proof.
  induction 1 as [|a n l Ha _ IH]; intros cs fuel acc HF Hlen.
  - inversion HF; subst. destruct fuel; simpl; by rewrite app_nil_r.
  - inversion HF as [|? c ? cs' Hc HF']; subst.
    destruct fuel as [|fuel]; [simpl in Hlen; lia|].
    cbn [accumulateLoop]. unfold fiber_at, deref. rewrite Ha. cbn. rewrite Hc. cbn.
    rewrite (IH cs' fuel) by (auto; simpl in Hlen; lia).
    destruct c; simpl; [by rewrite <- app_assoc | done].
Qed.

Lemma hasHandler_listenerOf name h n :
  hasHandler name h n -> listenerOf name n = Ret (Some (VFun h)).
Proof.
  intros (Ht & [x Hs] & r & props & Hm & Hg). unfold listenerOf.
  rewrite Ht, Hs, Hm. cbn. by rewrite Hg.
Qed.

Lemma omap_none {A} (l : list A) cs (f : A -> outcome (option jsval)) :
  Forall (fun n => f n = Ret None) l ->
  Forall2 (fun n c => f n = Ret c) l cs -> omap id cs = [].
Proof.
  intros H. revert cs. induction H as [|n l Hn _ IH]; intros cs HF; inversion HF; subst.
  - done.
  - simpl. assert (y = None) as -> by congruence. simpl. auto.
Qed.

Lemma Forall2_listeners name (l : list FiberNode) :
  Forall (fun n => listenerOf name n = Ret None) l ->
  Forall2 (fun n c => listenerOf name n = Ret c) l (map (fun _ => None) l).
Proof. induction 1; simpl; constructor; auto. Qed.

Lemma omap_id_nones {A B} (l : list A) : omap id (map (fun _ => @None B) l) = [].
Proof. induction l; simpl; auto. Qed.

(** C9. [b] is the fiber of the event's target node and carries [h2];
    an ancestor [a] carries [h1]; no other fiber on the way from [b] to
    the root contributes a handler for the event.  Then [dispatchEvent]
    walks the [return] links from [b] to the root and calls exactly [h2]
    and then [h1], both with the one synthetic event built from the
    native event.  A native [click] is looked up as [onClick].  In the
    tree of the source (a [div] with [h1] around an [h2] element with
    [h2]), a click on the inner node calls [h2], then [h1]. *)
Theorem dispatchEvent_calls_inner_then_outer :
  forall (fuel r : nat) (s : store) (e : event) (tgt : domnode) (name : string)
         (b : nat) (fb fa : FiberNode) (between above : list FiberNode) (h1 h2 : nat),
    nodes (host s) !! target e = Some tgt ->
    d_internalFiber tgt = Some b ->
    reactEventName (ev_type e) = Ret name ->
    ancestry s (Some b) (fb :: between ++ fa :: above) ->
    hasHandler name h2 fb ->
    hasHandler name h1 fa ->
    Forall (fun n => listenerOf name n = Ret None) between ->
    Forall (fun n => listenerOf name n = Ret None) above ->
    (length (fb :: between ++ fa :: above) <= fuel)%nat ->
    dispatchEvent fuel r s e
    = Ret [mkCall h2 (newSyntheticEvent r e); mkCall h1 (newSyntheticEvent r e)]
    /\ reactEventName "click" = Ret "onClick"
    /\ (exists m tr,
          app_rendered = Ret (m, tr)
          /\ dispatchEvent 8 100 (st m) (mkEvent 1 "click" [])
             = Ret [mkCall 2 (newSyntheticEvent 100 (mkEvent 1 "click" []));
                    mkCall 1 (newSyntheticEvent 100 (mkEvent 1 "click" []))]).
Proof.
  intros fuel r s e tgt name b fb fa between above h1 h2
         Ht Hi Hn Hanc Hb Ha Hbetween Habove Hlen.
  split; [|split; [reflexivity|]].
  - unfold dispatchEvent. rewrite Hn. cbn. rewrite Ht. cbn. rewrite Hi.
    unfold accumulateListeners.
    rewrite (accumulateLoop_ancestry s name _ _ Hanc
               (Some (VFun h2) :: map (fun _ => None) between
                  ++ Some (VFun h1) :: map (fun _ => None) above)); [| |exact Hlen].
    + cbn. rewrite omap_app. cbn. rewrite !omap_id_nones. reflexivity.
    + constructor; [by apply hasHandler_listenerOf|].
      apply Forall2_app; [by apply Forall2_listeners|].
      constructor; [by apply hasHandler_listenerOf | by apply Forall2_listeners].
  - do 2 eexists. split; vm_compute; reflexivity.
Qed.

(** The tree of the source, built by the engine itself: the fiber of the
    inner node is at address 4, below the [div] (address 3), the class
    component (address 2) and the root (address 1). *)
Lemma dispatchEvent_calls_inner_then_outer_witness :
  exists m tr,
    app_rendered = Ret (m, tr)
    /\ dispatchEvent 4 100 (st m) (mkEvent 1 "click" [("detail", VNum 1)])
       = Ret [mkCall 2 (newSyntheticEvent 100 (mkEvent 1 "click" [("detail", VNum 1)]));
              mkCall 1 (newSyntheticEvent 100 (mkEvent 1 "click" [("detail", VNum 1)]))].
Proof.
  destruct app_rendered as [[m tr]| |] eqn:E; try (vm_compute in E; discriminate).
  exists m, tr. split; [reflexivity|].
  vm_compute in E. injection E as <- <-.
  eapply proj1.
  eapply dispatchEvent_calls_inner_then_outer
    with (name := "onClick") (b := 4%nat) (between := []).
  - reflexivity.
  - reflexivity.
  - reflexivity.
  - apply ancestry_step with (a := 4%nat); [reflexivity|].
    apply ancestry_step with (a := 3%nat); [reflexivity|].
    apply ancestry_step with (a := 2%nat); [reflexivity|].
    apply ancestry_step with (a := 1%nat); [reflexivity|].
    apply ancestry_root.
  - repeat split; eauto.
  - repeat split; eauto.
  - constructor.
  - repeat constructor.
  - simpl. lia.
Defined.

End EventFacts.

(** ** The render phase of the work-loop renderer *)

Section RenderPhase.
Import Host Didact Examples.

Lemma renders_offscreen_refl h : renders_offscreen h h.
Proof.
  split; [|split; [done|lia]]. exists []. by rewrite app_nil_r.
Qed.

Lemma offscreen_mono n m c : (n <= m)%nat -> offscreen m c = true -> offscreen n c = true.
Proof.
  intros Hle. destruct c; simpl; try done; rewrite !Nat.leb_le; lia.
Qed.

Lemma renders_offscreen_trans h1 h2 h3 :
  renders_offscreen h1 h2 -> renders_offscreen h2 h3 -> renders_offscreen h1 h3.
Proof.
  intros ((e1 & E1 & F1) & N1 & L1) ((e2 & E2 & F2) & N2 & L2).
  split; [|split; [|lia]].
  - exists (e1 ++ e2). rewrite E2, E1, app_assoc. split; [done|].
    rewrite forallb_app, F1. simpl.
    rewrite forallb_forall in F2 |- *. intros c Hc.
    eapply offscreen_mono; [exact L1 | auto].
  - intros d Hd. rewrite N2, N1 by lia. done.
Qed.

(** Property writes on a node created since. *)
Lemma setProp_offscreen n d k v h :
  (n <= d)%nat -> (n <= length (nodes h))%nat ->
  (exists ext, calls (setProp d k v h) = calls h ++ ext /\ forallb (offscreen n) ext = true)
  /\ (forall b, (b < n)%nat -> nodes (setProp d k v h) !! b = nodes h !! b)
  /\ length (nodes (setProp d k v h)) = length (nodes h).
Proof.
  intros Hd Hn. unfold setProp, log, update_node. simpl.
  destruct (nodes h !! d) as [x|] eqn:E; simpl.
  - split; [|split].
    + exists [SetProp d k v]. split; [done|]. simpl. by rewrite (proj2 (Nat.leb_le n d) Hd).
    + intros b Hb. rewrite list_lookup_insert_ne by lia. done.
    + by rewrite length_insert.
  - split; [|split; [done|done]].
    exists [SetProp d k v]. split; [done|]. simpl. by rewrite (proj2 (Nat.leb_le n d) Hd).
Qed.

Lemma setProps_offscreen n d (f : string -> jsval) ks : forall h,
  (n <= d)%nat -> (n <= length (nodes h))%nat ->
  let h' := fold_left (fun h name => setProp d name (f name) h) ks h in
  (exists ext, calls h' = calls h ++ ext /\ forallb (offscreen n) ext = true)
  /\ (forall b, (b < n)%nat -> nodes h' !! b = nodes h !! b)
  /\ length (nodes h') = length (nodes h).
Proof.
  induction ks as [|k ks IH]; intros h Hd Hn; simpl.
  - split; [|done]. exists []. by rewrite app_nil_r.
  - destruct (setProp_offscreen n d k (f k) h Hd Hn) as ((e1 & E1 & F1) & N1 & L1).
    destruct (IH (setProp d k (f k) h) Hd) as ((e2 & E2 & F2) & N2 & L2); [lia|].
    split; [|split].
    + exists (e1 ++ e2). rewrite E2, E1, app_assoc. split; [done|].
      by rewrite forallb_app, F1, F2.
    + intros b Hb. by rewrite N2, N1.
    + by rewrite L2, L1.
Qed.

Lemma createDom_offscreen n h :
  renders_offscreen h (createDom n h).2.
Proof.
  unfold createDom.
  set (made := match type n with Some t => _ | None => _ end).
  assert (Hmade : exists c call,
            made = (length (nodes h),
                    mkHost (nodes h ++ [mkDom c [] [] None]) (calls h ++ [call]))
            /\ offscreen (length (nodes h)) call = true).
  { subst made. destruct (type n) as [t|]; [destruct (String.eqb t "TEXT_ELEMENT")|];
      do 2 eexists; (split; [reflexivity|]); simpl; apply Nat.leb_refl. }
  destruct Hmade as (c & call & -> & Hcall). cbn [snd].
  set (h1 := mkHost _ _).
  destruct (setProps_offscreen (length (nodes h)) (length (nodes h)) (get (props n))
              (List.filter (fun k => negb (String.eqb k "children")) (keys (props n))) h1)
    as ((e & E & F) & N & L); [lia | subst h1; simpl; rewrite length_app; lia |].
  split; [|split].
  - exists (call :: e). rewrite E. subst h1. simpl. rewrite <- app_assoc. split; [done|].
    simpl. by rewrite F, Hcall.
  - intros b Hb. rewrite N by done. subst h1. simpl. by rewrite lookup_app_l.
  - rewrite L. subst h1. simpl. rewrite length_app. lia.
Qed.

Lemma host_update_fiber a g st : host (update_fiber a g st) = host st.
Proof. unfold update_fiber. by destruct (heap st !! a). Qed.

Lemma reconcile_loop_host fuel wipFiber elements :
  forall index oldFiber prevSibling st st',
    reconcile_loop fuel wipFiber elements index oldFiber prevSibling st = Ret st' ->
    host st' = host st.
Proof.
  induction fuel as [|fuel IH]; intros index oldFiber prevSibling st st';
    cbn [reconcile_loop];
    destruct (negb (Nat.ltb index (length elements) || bool_decide (is_Some oldFiber)));
    try (by intros [= <-]); try discriminate.
  set (old := match oldFiber with Some a => _ | None => _ end).
  destruct old as [old| |]; [|discriminate..]. cbn.
  set (new := match old, elements !! index with
              | Some o, Some e => _ | None, Some e => _ | _, None => _ end).
  assert (Hnew : host new.2 = host st).
  { subst new. destruct old as [o|], (elements !! index) as [e|]; try done.
    by destruct (bool_decide _). }
  destruct new as [newFiber st1]. simpl in Hnew.
  set (st2 := match oldFiber with Some a => _ | None => _ end).
  assert (H2 : host st2 = host st).
  { subst st2. destruct oldFiber as [a|]; [|done].
    destruct (match old with Some o => _ | None => _ end); [done|].
    simpl. by rewrite host_update_fiber. }
  destruct (Nat.eqb index 0).
  - cbn. intros H. apply IH in H. by rewrite H, host_update_fiber.
  - destruct prevSibling as [p|]; [|discriminate]. cbn. intros H. apply IH in H.
    by rewrite H, host_update_fiber.
Qed.

Lemma performUnitOfWork_offscreen fuel a st nx st' :
  performUnitOfWork fuel a st = Ret (nx, st') ->
  renders_offscreen (host st) (host st').
Proof.
  unfold performUnitOfWork. destruct (fiber_at st a) as [n| |]; [|discriminate..]. cbn.
  set (st1 := match dom n with Some _ => st | None => _ end).
  assert (H1 : renders_offscreen (host st) (host st1)).
  { subst st1. destruct (dom n); [apply renders_offscreen_refl|].
    pose proof (createDom_offscreen n (host st)) as H.
    destruct (createDom n (host st)) as [d h]. by rewrite host_update_fiber. }
  unfold reconcileChildren.
  destruct (fiber_at st1 a) as [w| |]; [|discriminate..]. cbn.
  destruct (match alternate w with Some x => _ | None => _ end) as [oldFiber| |];
    [|discriminate..]. cbn.
  destruct (reconcile_loop _ _ _ _ _ _ _) as [st2| |] eqn:E; [|discriminate..]. cbn.
  apply reconcile_loop_host in E.
  destruct (fiber_at st2 a) as [n2| |]; [|discriminate..]. cbn.
  destruct (child n2).
  - intros [= _ <-]. by rewrite E.
  - destruct (next_sibling_up _ _ _); [|discriminate..]. cbn.
    intros [= _ <-]. by rewrite E.
Qed.

Lemma work_units_offscreen fuel more : forall st st',
  work_units fuel more st = Ret st' -> renders_offscreen (host st) (host st').
Proof.
  induction more as [|more IH]; intros st st'; cbn [work_units];
    (destruct (nextUnitOfWork st) as [a|]; [|intros [= <-]; apply renders_offscreen_refl]);
    destruct (performUnitOfWork fuel a st) as [[nx st1]| |] eqn:E; try discriminate;
    cbn; apply performUnitOfWork_offscreen in E.
  - by intros [= <-].
  - intros H. apply IH in H. simpl in H. eauto using renders_offscreen_trans.
Qed.

(** X7. The render phase works off screen.  Whatever number of units an
    idle callback runs, the units create host nodes and write properties
    on the nodes they created, and nothing else: no node is appended or
    removed, no listener is touched, and the nodes the host had before
    are left as they were.  An idle callback that ends with work still to
    do ([nextUnitOfWork] not [null]) has done only that: the commit is
    the one place where the document changes. *)
Theorem render_phase_is_offscreen fuel more st st' :
  (work_units fuel more st = Ret st' -> renders_offscreen (host st) (host st'))
  /\ (workLoop fuel more st = Ret st' -> is_Some (nextUnitOfWork st') ->
      renders_offscreen (host st) (host st')).
Proof.
  split; [apply work_units_offscreen|].
  unfold workLoop.
  destruct (work_units fuel more st) as [st1| |] eqn:E; [|discriminate..]. cbn.
  apply work_units_offscreen in E.
  destruct (nextUnitOfWork st1) as [u|] eqn:En.
  - by intros [= <-].
  - destruct (wipRoot st1); [|by intros [= <-]].
    intros Hc [u Hu]. exfalso.
    unfold commitRoot in Hc.
    destruct (commitDeletions fuel (deletions st1) st1) as [s2| |] eqn:E2; [|discriminate..].
    cbn in Hc. apply commitDeletions_only_host in E2 as (_ & Hn2 & _).
    destruct (wipRoot s2); [|discriminate].
    destruct (fiber_at s2 _) as [w| |]; [|discriminate..]. cbn in Hc.
    destruct (commitWork fuel (child w) s2) as [s3| |] eqn:E3; [|discriminate..].
    cbn in Hc. apply commitWork_only_host in E3 as (_ & Hn3 & _).
    injection Hc as <-. simpl in Hu. congruence.
Qed.

(** Two units of the first pass over the element of the source. *)
Lemma render_phase_is_offscreen_witness :
  exists st',
    workLoop 64 1 (render div_a_b 0 (init host0)) = Ret st'
    /\ is_Some (nextUnitOfWork st')
    /\ renders_offscreen host0 (host st').
Proof.
  destruct (workLoop 64 1 (render div_a_b 0 (init host0))) as [st'| |] eqn:E;
    try (vm_compute in E; discriminate).
  exists st'.
  assert (Hn : is_Some (nextUnitOfWork st')).
  { vm_compute in E. injection E as <-. simpl. eauto. }
  split; [reflexivity|]. split; [exact Hn|].
  exact (proj2 (render_phase_is_offscreen 64 1 (render div_a_b 0 (init host0)) st') E Hn).
Defined.

End RenderPhase.

(** ** Host properties and props in the work-loop renderer *)

Section HostProperties.
Import Host Didact Examples.

Lemma lookup_key_set k v (o : object) k' :
  lookup_key k' (set k v o) = if String.eqb k' k then Some v else lookup_key k' o.
Proof.
  induction o as [|[k0 v0] o IH]; simpl.
  - by destruct (String.eqb k' k).
  - destruct (String.eqb k k0) eqn:E; simpl.
    + apply String.eqb_eq in E. subst k0. by destruct (String.eqb k' k).
    + rewrite IH. destruct (String.eqb k' k0) eqn:E0; [|done].
      apply String.eqb_eq in E0. subst k0.
      rewrite String.eqb_sym in E. by rewrite E.
Qed.

Lemma get_set k v (o : object) k' :
  get (set k v o) k' = if String.eqb k' k then v else get o k'.
Proof. unfold get. rewrite lookup_key_set. by destruct (String.eqb k' k). Qed.

(** A run of property writes on the node [d], seen on the node. *)
Lemma setProps_node d (f : string -> jsval) ks : forall h x,
  nodes h !! d = Some x ->
  exists x',
    nodes (fold_left (fun h name => setProp d name (f name) h) ks h) !! d = Some x'
    /\ d_kind x' = d_kind x /\ d_style x' = d_style x
    /\ (forall k, In k ks -> get (d_attrs x') k = f k)
    /\ (forall k, ~ In k ks -> get (d_attrs x') k = get (d_attrs x) k)
    /\ (forall b, b <> d ->
          nodes (fold_left (fun h name => setProp d name (f name) h) ks h) !! b
          = nodes h !! b).
Proof.
  induction ks as [|k0 ks IH]; intros h x Hx; simpl.
  - exists x. repeat split; auto. intros k [].
  - set (h1 := setProp d k0 (f k0) h).
    assert (H1 : nodes h1 !! d
                 = Some (mkDom (d_kind x) (set k0 (f k0) (d_attrs x)) (d_style x)
                               (d_internalFiber x))).
    { subst h1. unfold setProp, update_node. rewrite Hx. simpl.
      apply list_lookup_insert_eq. by apply lookup_lt_Some in Hx. }
    assert (N1 : forall b, b <> d -> nodes h1 !! b = nodes h !! b).
    { intros b Hb. subst h1. unfold setProp, update_node. rewrite Hx. simpl.
      by apply list_lookup_insert_ne. }
    destruct (IH h1 _ H1) as (x' & Hx' & Hk & Hs & Hin & Hout & Hfr).
    exists x'. split; [exact Hx'|]. split; [exact Hk|]. split; [exact Hs|].
    split; [|split].
    + intros k [<-|Hk0]; [|auto].
      destruct (in_dec String.string_dec k0 ks) as [Hi|Hn]; [auto|].
      rewrite (Hout k0 Hn). simpl. by rewrite get_set, String.eqb_refl.
    + intros k Hk0. rewrite Hout by tauto. simpl. rewrite get_set.
      destruct (String.eqb k k0) eqn:E; [|done].
      apply String.eqb_eq in E. subst. tauto.
    + intros b Hb. by rewrite Hfr, N1.
Qed.

Lemma listeners_nodes {A} (g : Host.host -> A -> Host.host) (l : list A) :
  (forall h a, nodes (g h a) = nodes h) ->
  forall h, nodes (fold_left g l h) = nodes h.
Proof.
  intros Hg. induction l as [|a l IH]; intros h; simpl; [done|]. by rewrite IH, Hg.
Qed.

Lemma strict_eq_undef_r v : strict_eq v VUndef = true -> v = VUndef.
Proof. by destruct v. Qed.

Lemma same_value_strict a b c :
  same_value a b -> strict_eq b c = true -> same_value a c.
Proof.
  intros [->|H] Hbc; [by right|]. right.
  destruct a, b; try discriminate; destruct c; try discriminate; simpl in *;
    rewrite ?Z.eqb_eq, ?String.eqb_eq, ?Nat.eqb_eq in *; try congruence.
  destruct b0, b, b1; done.
Qed.

Lemma keys_has k (o : object) : In k (keys o) <-> has o k = true.
Proof.
  unfold has, keys. induction o as [|[k0 v0] o IH]; simpl; [split; [tauto|done]|].
  destruct (String.eqb k k0) eqn:E.
  - apply String.eqb_eq in E. subst. tauto.
  - apply String.eqb_neq in E. rewrite <- IH. split; [intros [?|?]; congruence || done | tauto].
Qed.

Lemma get_absent k (o : object) : has o k = false -> get o k = VUndef.
Proof. unfold has, get. by destruct (lookup_key k o). Qed.

(** X8. The properties of a host node follow the props of its fiber.
    [createDom] makes a node that mirrors the fiber's props (every key
    but [children], handlers included, is written as a property).
    [updateDom], on a node that mirrors the old props, leaves it
    mirroring the new props: a property whose value changed is written,
    one that is gone from the new props is set to the empty string, and
    the other nodes, the kind and the style of the node are left alone. *)
Theorem host_properties_mirror_props :
  (forall (n : fiber) (h : Host.host),
     exists x, nodes (createDom n h).2 !! (createDom n h).1 = Some x
       /\ (createDom n h).1 = length (nodes h)
       /\ mirrors (d_attrs x) (props n)
       /\ forall k, In k (keys (props n)) -> k <> "children" ->
            get (d_attrs x) k = get (props n) k)
  /\ (forall (d : nat) (prevProps nextProps : object) (h : Host.host) (x : domnode),
        nodes h !! d = Some x ->
        mirrors (d_attrs x) prevProps ->
        exists x',
          nodes (updateDom d prevProps nextProps h) !! d = Some x'
          /\ mirrors (d_attrs x') nextProps
          /\ (forall k, isProperty k = true -> has prevProps k = true ->
                has nextProps k = false -> get (d_attrs x') k = VStr "")
          /\ d_kind x' = d_kind x /\ d_style x' = d_style x
          /\ forall b, b <> d ->
               nodes (updateDom d prevProps nextProps h) !! b = nodes h !! b).
Proof.
  split.
  - intros n h. unfold createDom.
    set (made := match type n with Some t => _ | None => _ end).
    assert (Hmade : exists c call,
              made = (length (nodes h),
                      mkHost (nodes h ++ [mkDom c [] [] None]) (calls h ++ [call]))).
    { subst made. destruct (type n) as [t|]; [destruct (String.eqb t "TEXT_ELEMENT")|];
        do 2 eexists; reflexivity. }
    destruct Hmade as (c & call & ->). cbn [fst snd].
    set (h1 := mkHost _ _).
    destruct (setProps_node (length (nodes h)) (get (props n))
                (List.filter (fun k => negb (String.eqb k "children")) (keys (props n)))
                h1 (mkDom c [] [] None)) as (x & Hx & _ & _ & Hin & _ & _).
    { subst h1. simpl. by rewrite lookup_app_r, Nat.sub_diag. }
    exists x. split; [exact Hx|]. split; [reflexivity|].
    assert (Hall : forall k, In k (keys (props n)) -> k <> "children" ->
                     get (d_attrs x) k = get (props n) k).
    { intros k Hk Hc. apply Hin. apply filter_In. split; [done|].
      apply negb_true_iff. by apply String.eqb_neq. }
    split; [|exact Hall].
    intros k Hp Hv. left. apply Hall.
    + apply keys_has. destruct (has (props n) k) eqn:E; [done|].
      by apply get_absent in E.
    + intros ->. discriminate.
  - intros d prev nxt h x Hx Hm. unfold updateDom.
    set (gone := List.filter (isGone prev nxt) (List.filter isProperty (keys prev))).
    set (new := List.filter (isNew prev nxt) (List.filter isProperty (keys nxt))).
    destruct (setProps_node d (fun _ => VStr "") gone h x Hx)
      as (x1 & Hx1 & K1 & S1 & In1 & Out1 & F1).
    destruct (setProps_node d (get nxt) new _ x1 Hx1)
      as (x2 & Hx2 & K2 & S2 & In2 & Out2 & F2).
    set (h2 := fold_left _ new _) in *.
    set (h3 := fold_left _ _ h2).
    assert (N3 : nodes h3 = nodes h2) by (subst h3; by apply listeners_nodes).
    set (h4 := fold_left _ _ h3).
    assert (N4 : nodes h4 = nodes h2) by (subst h4; by rewrite listeners_nodes).
    exists x2. rewrite N4. split; [exact Hx2|].
    assert (Hgone : forall k, In k gone <->
              isProperty k = true /\ has prev k = true /\ has nxt k = false).
    { intros k. subst gone. rewrite !filter_In, keys_has. unfold isGone.
      rewrite negb_true_iff. tauto. }
    assert (Hnew : forall k, In k new <->
              isProperty k = true /\ has nxt k = true /\ isNew prev nxt k = true).
    { intros k. subst new. rewrite !filter_In, keys_has. tauto. }
    split; [|split; [|split; [congruence|split; [congruence|]]]].
    + intros k Hp Hv.
      assert (Hh : has nxt k = true).
      { destruct (has nxt k) eqn:E; [done|]. by apply get_absent in E. }
      destruct (isNew prev nxt k) eqn:En.
      * left. apply In2, Hnew. auto.
      * rewrite Out2 by (rewrite Hnew; intros (_ & _ & ?); congruence).
        rewrite Out1 by (rewrite Hgone; intros (_ & _ & ?); congruence).
        unfold isNew in En. apply negb_false_iff in En.
        apply same_value_strict with (b := get prev k); [|exact En].
        apply Hm; [done|]. intros Hu. rewrite Hu in En. simpl in En.
        destruct (get nxt k); done.
    + intros k Hp Hhp Hhn.
      rewrite Out2 by (rewrite Hnew; intros (_ & ? & _); congruence).
      apply In1, Hgone. auto.
    + intros b Hb. by rewrite F2, F1.
Qed.

(** A node made for [{ id: 'foo', title: 't' }], then updated to
    [{ id: 'bar' }]. *)
Lemma host_properties_mirror_props_witness :
  exists x',
    nodes (updateDom 1 [("id", VStr "foo"); ("title", VStr "t")] [("id", VStr "bar")]
             (createDom (mkFiber (Some "div") [("id", VStr "foo"); ("title", VStr "t")] []
                                 None None None None None None) host0).2) !! 1%nat
    = Some x'
    /\ mirrors (d_attrs x') [("id", VStr "bar")]
    /\ get (d_attrs x') "title" = VStr "".
Proof.
  pose (n := mkFiber (Some "div") [("id", VStr "foo"); ("title", VStr "t")] []
                     None None None None None None).
  destruct (proj1 host_properties_mirror_props n host0) as (x & Hx & _ & Hm & _).
  destruct (proj2 host_properties_mirror_props 1%nat (props n) [("id", VStr "bar")]
              (createDom n host0).2 x Hx Hm) as (x' & Hx' & Hm' & Hg & _).
  exists x'. split; [exact Hx'|]. split; [exact Hm'|].
  apply Hg; reflexivity.
Defined.

End HostProperties.

(** ** Handlers in the work-loop renderer *)

Section Handlers.
Import Host Didact Examples.

Lemma setProps_calls d (f : string -> jsval) ks : forall h,
  List.filter is_listener_call
    (calls (fold_left (fun h name => setProp d name (f name) h) ks h))
  = List.filter is_listener_call (calls h).
Proof.
  induction ks as [|k ks IH]; intros h; simpl; [done|].
  rewrite IH. unfold setProp, log. simpl.
  rewrite List.filter_app. simpl. rewrite app_nil_r.
  unfold update_node. by destruct (nodes h !! d).
Qed.

Lemma createDom_no_listener n h :
  List.filter is_listener_call (calls (createDom n h).2)
  = List.filter is_listener_call (calls h).
Proof.
  unfold createDom.
  set (made := match type n with Some t => _ | None => _ end).
  assert (Hmade : List.filter is_listener_call (calls made.2)
                  = List.filter is_listener_call (calls h)).
  { subst made. destruct (type n) as [t|]; [destruct (String.eqb t "TEXT_ELEMENT")|];
      simpl; rewrite List.filter_app; simpl; by rewrite app_nil_r. }
  destruct made as [d h1]. cbn [snd] in *. by rewrite setProps_calls.
Qed.

Lemma updateDom_same_handlers d p q h :
  same_handlers p q ->
  List.filter is_listener_call (calls (updateDom d p q h))
  = List.filter is_listener_call (calls h).
Proof.
  intros Hs. unfold updateDom.
  rewrite (filter_none (fun k => negb (has q k) || isNew p q k)).
  - rewrite (filter_none (isNew p q) (List.filter isEvent (keys q))).
    + simpl. by rewrite !setProps_calls.
    + intros k Hk. apply filter_In in Hk as [Hk He].
      destruct (Hs k He) as [Hh Hv]. apply keys_has in Hk.
      unfold isNew. rewrite Hv by congruence. done.
  - intros k Hk. apply filter_In in Hk as [Hk He].
    destruct (Hs k He) as [Hh Hv]. apply keys_has in Hk.
    unfold isNew. rewrite Hh, Hk, (Hv Hk). done.
Qed.

(** X9. A handler is registered only when it changes.  [createDom]
    writes the [on...] props as plain properties of the new node and
    registers nothing; [updateDom] adds or removes a listener only for a
    handler that differs from the one of the previous props.  So through
    any number of updates that keep the handlers of the first props, no
    [addEventListener] and no [removeEventListener] is ever issued: the
    handlers a node is created with are not registered as listeners. *)
Theorem unchanged_handlers_are_never_registered :
  forall (n : fiber) (nexts : list object) (h : Host.host),
    keeps_handlers (props n) nexts ->
    List.filter is_listener_call
      (calls (runUpdates (createDom n h).1 (props n) nexts (createDom n h).2))
    = List.filter is_listener_call (calls h).
Proof.
  intros n nexts h Hall. rewrite <- (createDom_no_listener n h).
  generalize (createDom n h).2 as h1. generalize (createDom n h).1 as d.
  revert Hall. generalize (props n) as p.
  induction nexts as [|q qs IH]; intros p Hall d h1; simpl; [done|].
  destruct Hall as [Hq Hqs].
  rewrite (IH q Hqs). by apply updateDom_same_handlers.
Qed.

(** A button created with a handler, then re-rendered twice with the
    same handler and another title. *)
Lemma unchanged_handlers_are_never_registered_witness :
  List.filter is_listener_call
    (calls (runUpdates 1 [("onClick", VFun 7); ("title", VStr "a")]
              [[("onClick", VFun 7); ("title", VStr "b")];
               [("onClick", VFun 7); ("title", VStr "c")]]
              (createDom (mkFiber (Some "button") [("onClick", VFun 7); ("title", VStr "a")]
                                  [] None None None None None None) host0).2))
  = [].
Proof.
  apply (unchanged_handlers_are_never_registered
           (mkFiber (Some "button") [("onClick", VFun 7); ("title", VStr "a")]
                    [] None None None None None None)
           [[("onClick", VFun 7); ("title", VStr "b")];
            [("onClick", VFun 7); ("title", VStr "c")]] host0).
  assert (H : forall t u, same_handlers [("onClick", VFun 7); ("title", VStr t)]
                                        [("onClick", VFun 7); ("title", VStr u)]).
  { intros t u k Hk. unfold has, get. simpl.
    destruct (String.eqb k "onClick"); [done|].
    destruct (String.eqb k "title") eqn:E; [|done].
    apply String.eqb_eq in E. subst. discriminate. }
  simpl. auto.
Defined.

End Handlers.

(** ** Changed props in [diffProperties] *)

Section DiffChanged.
Import Dom.

Lemma diff_old_pair newProps payload su k v :
  (String.eqb k "style" = true -> is_object v = true) ->
  is_object su = true ->
  exists ext su',
    diff_old newProps (payload, su) (k, v) = Ret (payload ++ ext, su')
    /\ is_object su' = true /\ pair_or_nothing ext.
Proof.
  intros Hv Hsu. unfold diff_old.
  destruct (truthy (get newProps k)) eqn:Et.
  { exists [], su. rewrite app_nil_r. repeat split; auto. by left. }
  destruct (String.eqb k "style") eqn:Es.
  { destruct (entries_object v (Hv eq_refl)) as (es & ->). simpl.
    destruct (style_loop_object (fun su e => set_member su e.1 (VStr "")) es) with (su := su)
      as (su' & -> & Hsu'); auto.
    { intros. by apply set_member_object. }
    simpl. exists [], su'. rewrite app_nil_r. repeat split; auto. by left. }
  destruct (startsWith "on" k) eqn:Eo; simpl.
  { exists [], su. rewrite app_nil_r. repeat split; auto. by left. }
  destruct (String.eqb k "children").
  { exists [], su. rewrite app_nil_r. repeat split; auto. by left. }
  exists [VStr k; VNull], su. repeat split; auto. right. eauto.
Qed.

Lemma app_same_head {A} (l ext : list A) : l = l ++ ext -> ext = [].
Proof.
  intros H. rewrite <- (app_nil_r l) in H at 1. by apply app_inv_head in H.
Qed.

Lemma diff_new_pair oldProps payload su k v :
  style_ok oldProps = true ->
  (String.eqb k "style" = true -> is_object v = true) ->
  is_object su = true ->
  exists ext su',
    diff_new oldProps (payload, su) (k, v) = Ret (payload ++ ext, su')
    /\ is_object su' = true /\ pair_or_nothing ext
    /\ (strict_eq v (get oldProps k) = false -> String.eqb k "style" = false ->
        startsWith "on" k = false ->
        (String.eqb k "children" = true -> is_primitive_text v = true) ->
        ext = [VStr k; v]).
Proof.
  intros Hold Hv Hsu.
  destruct (diff_new_step oldProps payload su k v Hold Hv Hsu)
    as (ext & su' & Hstep & Hsu' & _).
  exists ext, su'. split; [exact Hstep|]. split; [exact Hsu'|].
  revert Hstep. unfold diff_new.
  destruct (strict_eq v (get oldProps k)) eqn:Eq.
  { intros [= H _]. apply app_same_head in H as ->. split; [by left|congruence]. }
  destruct (String.eqb k "style") eqn:Es.
  { assert (Hnil : forall su0, @Ret diff_state (payload, su0) = Ret (payload ++ ext, su') ->
                       pair_or_nothing ext
                       /\ (false = false -> true = false -> startsWith "on" k = false ->
                           (String.eqb k "children" = true -> is_primitive_text v = true) ->
                           ext = [VStr k; v])).
    { intros su0 [= H _]. apply app_same_head in H as ->. split; [by left|congruence]. }
    destruct (truthy (get oldProps k)); [|apply Hnil].
    destruct (entries (get oldProps k)) as [les| |]; [|discriminate..]. cbn.
    destruct (foldM _ les su) as [su1| |]; [|discriminate..]. cbn.
    destruct (entries v) as [ves| |]; [|discriminate..]. cbn.
    destruct (foldM _ ves su1) as [su2| |]; [|discriminate..]. cbn.
    apply Hnil. }
  destruct (String.eqb k "children") eqn:Ec.
  { apply String.eqb_eq in Ec. subst k.
    destruct (is_primitive_text v) eqn:Ep; intros [= H _].
    - apply app_inv_head in H as <-. split; [right; eauto|done].
    - apply app_same_head in H as ->. split; [by left|].
      intros _ _ _ Hc. by specialize (Hc eq_refl). }
  destruct (startsWith "on" k) eqn:Eo.
  { intros [= H _]. apply app_same_head in H as ->. split; [by left|congruence]. }
  intros [= H _]. apply app_inv_head in H as <-. split; [right; eauto|done].
Qed.

Lemma names_app (p ext : list jsval) :
  Nat.Even (length p) -> names (p ++ ext) = names p ++ names ext.
Proof.
  intros [n Hn]. revert p Hn. induction n as [|n IH]; intros p Hn.
  - destruct p; [done|simpl in Hn; lia].
  - destruct p as [|x [|y p]]; simpl in Hn; try lia.
    simpl. f_equal. apply IH. lia.
Qed.

Lemma plain_names_app p ext :
  plain_names p -> pair_or_nothing ext -> plain_names (p ++ ext).
Proof.
  intros [Hev Hn] Hext. split.
  - apply Even_app_length; [done|].
    destruct Hext as [->|(k & v & -> & _)]; [by exists 0%nat | by exists 1%nat].
  - rewrite names_app by done. apply Forall_app. split; [done|].
    destruct Hext as [->|(k & v & -> & Hk)]; simpl; [constructor|].
    constructor; [eauto|constructor].
Qed.

Lemma diff_old_plain newProps oldProps :
  style_ok oldProps = true ->
  forall payload su, is_object su = true -> plain_names payload ->
  exists payload' su',
    foldM (diff_old newProps) oldProps (payload, su) = Ret (payload', su')
    /\ is_object su' = true /\ plain_names payload'.
Proof.
  induction oldProps as [|[k v] old IH]; intros Hok payload su Hsu Hp.
  - exists payload, su. simpl. auto.
  - apply style_ok_cons in Hok as [Hv Hok].
    destruct (diff_old_pair newProps payload su k v Hv Hsu)
      as (ext & su1 & Hstep & Hsu1 & Hext).
    destruct (IH Hok (payload ++ ext) su1 Hsu1 (plain_names_app _ _ Hp Hext))
      as (payload' & su' & Hrest & Hsu' & Hp').
    exists payload', su'. cbn [foldM]. rewrite Hstep. cbn. rewrite Hrest. auto.
Qed.

Lemma diff_new_plain oldProps newProps :
  style_ok oldProps = true -> style_ok newProps = true ->
  forall payload su, is_object su = true -> plain_names payload ->
  exists payload' su',
    foldM (diff_new oldProps) newProps (payload, su) = Ret (payload', su')
    /\ is_object su' = true /\ plain_names payload'
    /\ (forall k v, schedules k v payload -> schedules k v payload')
    /\ (forall k v, In (k, v) newProps ->
          strict_eq v (get oldProps k) = false -> String.eqb k "style" = false ->
          startsWith "on" k = false ->
          (String.eqb k "children" = true -> is_primitive_text v = true) ->
          schedules k v payload').
Proof.
  intros Hold. induction newProps as [|[k v] new IH]; intros Hok payload su Hsu Hp.
  - exists payload, su. simpl. repeat split; auto; try apply Hp. intros k v [].
  - apply style_ok_cons in Hok as [Hv Hok].
    destruct (diff_new_pair oldProps payload su k v Hold Hv Hsu)
      as (ext & su1 & Hstep & Hsu1 & Hext & Hchanged).
    destruct (IH Hok (payload ++ ext) su1 Hsu1 (plain_names_app _ _ Hp Hext))
      as (payload' & su' & Hrest & Hsu' & Hp' & Hkeep & Hall).
    exists payload', su'. cbn [foldM]. rewrite Hstep. cbn. rewrite Hrest.
    split; [done|]. split; [done|]. split; [done|]. split.
    + intros k0 v0 Hs. apply Hkeep. by apply schedules_app.
    + intros k0 v0 [[= <- <-]|Hin] Hne Hs Ho Hc.
      * apply Hkeep. rewrite (Hchanged Hne Hs Ho Hc).
        exists payload, []. rewrite app_nil_r. split; [done|apply Hp].
      * by apply Hall.
Qed.

(** X10. What [diffProperties] schedules for the new props.  Every
    entry of [newProps] whose value differs ([!==]) from the one of
    [oldProps] is scheduled with its new value -- for [children] only a
    string or a number, and never [style] as such nor a handler.  The
    payload is a flat array of name/value pairs, every name a string
    that is not the name of a handler.  Props are taken with their
    [style] entries being objects. *)
Theorem diffProperties_schedules_changed_keys :
  forall (r : nat) (oldProps newProps : object),
    style_ok oldProps = true -> style_ok newProps = true ->
    exists result,
      diffProperties r oldProps newProps = Ret result
      /\ (forall k v, In (k, v) newProps ->
            strict_eq v (get oldProps k) = false -> String.eqb k "style" = false ->
            startsWith "on" k = false ->
            (String.eqb k "children" = true -> is_primitive_text v = true) ->
            exists updatePayload,
              result = Some updatePayload /\ schedules k v updatePayload)
      /\ (forall updatePayload, result = Some updatePayload -> plain_names updatePayload).
Proof.
  intros r oldProps newProps Hold Hnew. unfold diffProperties.
  assert (H0 : plain_names []) by (split; [by exists 0%nat | constructor]).
  destruct (diff_old_plain newProps oldProps Hold [] (VObj r []) eq_refl H0)
    as (p1 & su1 & -> & Hsu1 & Hp1).
  cbn.
  destruct (diff_new_plain oldProps newProps Hold Hnew p1 su1 Hsu1 Hp1)
    as (p2 & su2 & -> & Hsu2 & Hp2 & _ & Hall).
  cbn. destruct (entries_object su2 Hsu2) as (ks & ->). cbn.
  set (p3 := if (0 <? length ks)%nat then p2 ++ [VStr "style"; su2] else p2).
  assert (Hp3 : plain_names p3).
  { subst p3. destruct (0 <? length ks)%nat; [|done].
    apply plain_names_app; [done|]. right. eauto. }
  exists (if (0 <? length p3)%nat then Some p3 else None). split; [reflexivity|]. split.
  - intros k v Hin Hne Hs Ho Hc.
    assert (Hk : schedules k v p3).
    { subst p3. destruct (0 <? length ks)%nat; [apply schedules_app|]; eauto. }
    exists p3. split; [|done]. by rewrite (schedules_nonempty _ _ _ Hk).
  - intros p. destruct (0 <? length p3)%nat; [|discriminate]. by intros [= <-].
Qed.

Lemma diffProperties_schedules_changed_keys_witness :
  exists result,
    diffProperties 0 [("id", VStr "a"); ("onClick", VFun 1)]
                     [("id", VStr "b"); ("onClick", VFun 2); ("children", VNum 3)]
    = Ret result
    /\ (exists updatePayload,
          result = Some updatePayload /\ schedules "id" (VStr "b") updatePayload)
    /\ (forall updatePayload, result = Some updatePayload -> plain_names updatePayload).
Proof.
  destruct (diffProperties_schedules_changed_keys 0
              [("id", VStr "a"); ("onClick", VFun 1)]
              [("id", VStr "b"); ("onClick", VFun 2); ("children", VNum 3)]
              eq_refl eq_refl) as (result & Hr & Hc & Hp).
  exists result. split; [exact Hr|]. split; [|exact Hp].
  apply Hc; try reflexivity. by left.
Defined.

End DiffChanged.

(** ** [setInitialProps]: what it writes and when it throws *)

Section InitialProps.
Import Host Fiber Dom.

Lemma setInitialProp_node d k v h x :
  nodes h !! d = Some x ->
  negb (String.eqb k "style" && is_nullish v) = true ->
  exists h',
    setInitialProp d h (k, v) = Ret h'
    /\ nodes h' !! d
       = Some (mkDom (d_kind x) (written (propWrites [(k, v)]) (d_attrs x))
                     (written (styleWrites [(k, v)]) (d_style x)) (d_internalFiber x))
    /\ (forall b, b <> d -> nodes h' !! b = nodes h !! b)
    /\ List.filter is_listener_call (calls h') = List.filter is_listener_call (calls h).
Proof.
  intros Hx Hv. unfold setInitialProp, propWrites, styleWrites. simpl.
  destruct (String.eqb k "style") eqn:Es.
  - simpl in Hv.
    assert (He : exists es, entries v = Ret es).
    { destruct v; try discriminate; simpl; eauto. }
    destruct He as (es & ->). simpl. rewrite app_nil_r.
    eexists. split; [reflexivity|].
    clear Hv. revert h x Hx. induction es as [|[sk sv] es IH]; intros h x Hx; simpl.
    + split; [by destruct x|]. done.
    + set (h1 := setStyle d sk sv h).
      assert (H1 : nodes h1 !! d
                   = Some (mkDom (d_kind x) (d_attrs x) (set sk sv (d_style x))
                                 (d_internalFiber x))).
      { subst h1. unfold setStyle, update_node. rewrite Hx. simpl.
        apply list_lookup_insert_eq. by apply lookup_lt_Some in Hx. }
      destruct (IH h1 _ H1) as (E & F & L). simpl in E.
      split; [exact E|]. split.
      * intros b Hb. rewrite F by done. subst h1. unfold setStyle, update_node.
        rewrite Hx. simpl. by apply list_lookup_insert_ne.
      * rewrite L. subst h1. unfold setStyle, log, update_node. rewrite Hx. simpl.
        rewrite List.filter_app. simpl. by rewrite app_nil_r.
  - assert (Hset : forall k0 v0,
              nodes (setProp d k0 v0 h) !! d
              = Some (mkDom (d_kind x) (set k0 v0 (d_attrs x)) (d_style x)
                            (d_internalFiber x))
              /\ (forall b, b <> d -> nodes (setProp d k0 v0 h) !! b = nodes h !! b)
              /\ List.filter is_listener_call (calls (setProp d k0 v0 h))
                 = List.filter is_listener_call (calls h)).
    { intros k0 v0. unfold setProp, log, update_node. rewrite Hx. simpl. split; [|split].
      - apply list_lookup_insert_eq. by apply lookup_lt_Some in Hx.
      - intros b Hb. by apply list_lookup_insert_ne.
      - rewrite List.filter_app. simpl. by rewrite app_nil_r. }
    destruct (String.eqb k "children") eqn:Ec.
    + destruct (is_primitive_text v); eexists; (split; [reflexivity|]); simpl.
      * apply Hset.
      * split; [by destruct x|done].
    + eexists. split; [reflexivity|]. simpl. apply Hset.
Qed.

Lemma style_defined_cons k v p :
  style_defined ((k, v) :: p)
  = negb (String.eqb k "style" && is_nullish v) && style_defined p.
Proof. reflexivity. Qed.

Lemma written_app ws1 ws2 o : written (ws1 ++ ws2) o = written ws2 (written ws1 o).
Proof. unfold written. by rewrite fold_left_app. Qed.

Lemma propWrites_cons kv p : propWrites (kv :: p) = propWrites [kv] ++ propWrites p.
Proof. unfold propWrites. simpl. by rewrite app_nil_r. Qed.

Lemma styleWrites_cons kv p : styleWrites (kv :: p) = styleWrites [kv] ++ styleWrites p.
Proof. unfold styleWrites. simpl. by rewrite app_nil_r. Qed.

Lemma setInitialProps_node d props : forall h x,
  nodes h !! d = Some x ->
  style_defined props = true ->
  exists h',
    foldM (setInitialProp d) props h = Ret h'
    /\ nodes h' !! d
       = Some (mkDom (d_kind x) (written (propWrites props) (d_attrs x))
                     (written (styleWrites props) (d_style x)) (d_internalFiber x))
    /\ (forall b, b <> d -> nodes h' !! b = nodes h !! b)
    /\ List.filter is_listener_call (calls h') = List.filter is_listener_call (calls h).
Proof.
  induction props as [|[k v] props IH]; intros h x Hx Hd.
  - exists h. split; [done|]. split; [by destruct x|]. done.
  - rewrite style_defined_cons in Hd. apply andb_true_iff in Hd as [Hv Hd].
    destruct (setInitialProp_node d k v h x Hx Hv) as (h1 & E1 & N1 & F1 & L1).
    destruct (IH h1 _ N1 Hd) as (h' & E & N & F & L).
    exists h'. cbn [foldM]. rewrite E1, bind_Ret. split; [exact E|]. split; [|split].
    + rewrite N. cbn [d_kind d_attrs d_style d_internalFiber].
      rewrite (propWrites_cons (k, v) props), (styleWrites_cons (k, v) props), !written_app.
      reflexivity.
    + intros b Hb. by rewrite F, F1.
    + by rewrite L, L1.
Qed.

Lemma setInitialProps_throws d props : forall h,
  style_defined props = false ->
  foldM (setInitialProp d) props h = Throw TypeError.
Proof.
  induction props as [|[k v] props IH]; intros h Hd; [discriminate|].
  rewrite style_defined_cons in Hd. cbn [foldM].
  destruct (negb (String.eqb k "style" && is_nullish v)) eqn:Hv.
  - simpl in Hd.
    assert (He : exists h1, setInitialProp d h (k, v) = Ret h1).
    { unfold setInitialProp. destruct (String.eqb k "style"); [|destruct (String.eqb k "children"); eauto].
      simpl in Hv. destruct v; try discriminate; simpl; eauto. }
    destruct He as (h1 & ->). cbn. auto.
  - apply negb_false_iff, andb_true_iff in Hv as [Hs Hn].
    unfold setInitialProp. rewrite Hs. by destruct v.
Qed.

Lemma setInitialProps_returns d props : forall h,
  style_defined props = true -> exists h', foldM (setInitialProp d) props h = Ret h'.
Proof.
  induction props as [|[k v] props IH]; intros h Hd; [by exists h|].
  rewrite style_defined_cons in Hd. apply andb_true_iff in Hd as [Hv Hd].
  assert (He : exists h1, setInitialProp d h (k, v) = Ret h1).
  { unfold setInitialProp.
    destruct (String.eqb k "style"); [|destruct (String.eqb k "children"); eauto].
    simpl in Hv. destruct v; try discriminate; simpl; eauto. }
  destruct He as (h1 & E1). cbn [foldM]. rewrite E1, bind_Ret. auto.
Qed.

(** The last write to a key is what the object holds. *)
Lemma get_written_other ws : forall o k,
  ~ In k (keys ws) -> get (written ws o) k = get o k.
Proof.
  induction ws as [|[k0 v0] ws IH]; intros o k Hk; [done|].
  change (written ((k0, v0) :: ws) o) with (written ws (set k0 v0 o)).
  simpl in Hk. rewrite IH by tauto. rewrite get_set.
  destruct (String.eqb k k0) eqn:E; [|done]. apply String.eqb_eq in E. subst. tauto.
Qed.

Lemma get_written ws : forall o k v,
  NoDup (keys ws) -> In (k, v) ws -> get (written ws o) k = v.
Proof.
  induction ws as [|[k0 v0] ws IH]; intros o k v Hnd Hin; [done|].
  simpl in Hnd. apply NoDup_cons in Hnd as [Hk0 Hnd].
  change (written ((k0, v0) :: ws) o) with (written ws (set k0 v0 o)).
  destruct Hin as [[= -> ->]|Hin]; [|by apply IH].
  rewrite get_written_other by (by rewrite <- list_elem_of_In).
  by rewrite get_set, String.eqb_refl.
Qed.

Lemma In_propWrites k v p :
  In (k, v) p -> String.eqb k "style" = false -> String.eqb k "children" = false ->
  In (k, v) (propWrites p).
Proof.
  intros Hin Hs Hc. unfold propWrites. apply in_flat_map. exists (k, v).
  split; [done|]. simpl. rewrite Hs, Hc. by left.
Qed.

Lemma In_textContent v p :
  In ("children", v) p -> is_primitive_text v = true ->
  In ("textContent", v) (propWrites p).
Proof.
  intros Hin Hp. unfold propWrites. apply in_flat_map. exists ("children", v).
  split; [done|]. simpl. rewrite Hp. by left.
Qed.

Lemma In_styleWrites r fs sk sv p :
  In ("style", VObj r fs) p -> In (sk, sv) fs -> In (sk, sv) (styleWrites p).
Proof.
  intros Hin Hs. unfold styleWrites. apply in_flat_map. exists ("style", VObj r fs).
  split; [done|]. done.
Qed.





End InitialProps.

(** ** The two generations of a work node (fiber.js) *)

Section WorkInProgress.
Import Host Fiber.

Lemma fibers_update_fiber a g s b :
  fibers (update_fiber a g s) !! b
  = if decide (b = a) then g <$> fibers s !! b else fibers s !! b.
Proof.
  unfold update_fiber. destruct (fibers s !! a) as [n|] eqn:Ha; simpl.
  - destruct (decide (b = a)) as [->|Hne].
    + rewrite Ha. simpl. apply list_lookup_insert_eq. by apply lookup_lt_Some in Ha.
    + by apply list_lookup_insert_ne.
  - destruct (decide (b = a)) as [->|Hne]; [by rewrite Ha|done].
Qed.

Lemma length_fibers_update a g s : length (fibers (update_fiber a g s)) = length (fibers s).
Proof.
  unfold update_fiber. destruct (fibers s !! a); simpl; [by rewrite length_insert|done].
Qed.

(** X13. [createWorkInProgress] keeps two fibers for one node.  Called
    on a fiber without [alternate], it allocates the twin: same [tag],
    [key], [type], [child], [stateNode], lanes and the very [updateQueue]
    object of [current], the given [pendingProps], and the two fibers
    point at each other through [alternate]; no other fiber changes.
    Called again on [current] it allocates nothing and hands back the
    same twin with the new [pendingProps]; called on the twin it hands
    back [current]. *)
Theorem createWorkInProgress_reuses_the_twin :
  forall (current : nat) (cur : FiberNode) (props props' : jsval) (s : store),
    fibers s !! current = Some cur ->
    alternate cur = None ->
    exists s1 wn,
      createWorkInProgress current props s = Ret (length (fibers s), s1)
      /\ fibers s1 !! length (fibers s) = Some wn
      /\ fibers s1 !! current = Some (set_alternate (Some (length (fibers s))) cur)
      /\ alternate wn = Some current
      /\ pendingProps wn = props
      /\ tag wn = tag cur /\ key wn = key cur /\ type wn = type cur
      /\ child wn = child cur /\ stateNode wn = stateNode cur
      /\ updateQueue wn = updateQueue cur
      /\ lanes wn = lanes cur /\ childLanes wn = childLanes cur
      /\ length (fibers s1) = S (length (fibers s))
      /\ (forall b, b <> current -> (b < length (fibers s))%nat ->
            fibers s1 !! b = fibers s !! b)
      /\ (exists s2 wn',
            createWorkInProgress current props' s1 = Ret (length (fibers s), s2)
            /\ length (fibers s2) = length (fibers s1)
            /\ fibers s2 !! length (fibers s) = Some wn'
            /\ pendingProps wn' = props' /\ alternate wn' = Some current)
      /\ (exists s3,
            createWorkInProgress (length (fibers s)) props' s1 = Ret (current, s3)
            /\ length (fibers s3) = length (fibers s1)).
Proof.
  intros current cur props props' s Hcur Halt.
  assert (Hlt : (current < length (fibers s))%nat) by (by apply lookup_lt_Some in Hcur).
  set (w := length (fibers s)).
  set (fresh := mkFiber (tag cur) props (key cur) VNull None None None VNull
                        (length (queues s)) NoFlags NoLanes NoLanes None None).
  set (wn := refreshed cur (set_alternate (Some current) (set_stateNode (stateNode cur) fresh))).
  set (fs1 := <[current := set_alternate (Some w) cur]> (fibers s) ++ [wn]).
  assert (E1 : exists s1, createWorkInProgress current props s = Ret (w, s1)
                          /\ fibers s1 = fs1).
  { unfold createWorkInProgress, fiber_at, deref. rewrite Hcur. cbn. rewrite Halt.
    unfold createFiber. cbn. eexists. split; [reflexivity|].
    unfold update_fiber. cbn.
    rewrite lookup_app_r, Nat.sub_diag by done. cbn.
    rewrite insert_app_r_alt, Nat.sub_diag by done. cbn.
    rewrite lookup_app_l, Hcur by done. cbn.
    rewrite insert_app_l by done. cbn.
    rewrite lookup_app_r by (rewrite length_insert; done).
    rewrite length_insert, Nat.sub_diag. cbn.
    rewrite insert_app_r_alt by (rewrite length_insert; done).
    rewrite length_insert, Nat.sub_diag. cbn. reflexivity. }
  destruct E1 as (s1 & E1 & Hfs1).
  assert (Hw : fibers s1 !! w = Some wn).
  { rewrite Hfs1. subst fs1. rewrite lookup_app_r by (rewrite length_insert; done).
    by rewrite length_insert, Nat.sub_diag. }
  assert (Hc : fibers s1 !! current = Some (set_alternate (Some w) cur)).
  { rewrite Hfs1. subst fs1. rewrite lookup_app_l by (rewrite length_insert; done).
    by apply list_lookup_insert_eq. }
  exists s1, wn. split; [exact E1|]. split; [exact Hw|]. split; [exact Hc|].
  do 10 (split; [reflexivity|]).
  assert (Hlen : length (fibers s1) = S w).
  { rewrite Hfs1. subst fs1. rewrite length_app, length_insert. simpl. lia. }
  split; [exact Hlen|]. split; [|split].
  - intros b Hb Hbl. rewrite Hfs1. subst fs1.
    rewrite lookup_app_l by (rewrite length_insert; done).
    by apply list_lookup_insert_ne.
  - unfold createWorkInProgress, fiber_at, deref. rewrite Hc. cbn.
    eexists. exists (refreshed cur (set_pendingProps props' wn)).
    split; [reflexivity|]. split; [by rewrite !length_fibers_update|].
    split; [|done].
    rewrite !fibers_update_fiber. rewrite !decide_True by done. by rewrite Hw.
  - unfold createWorkInProgress, fiber_at, deref. rewrite Hw. cbn.
    eexists. split; [reflexivity|]. by rewrite !length_fibers_update.
Qed.

(** The host root fiber of the entry module and its first twin. *)
Lemma createWorkInProgress_reuses_the_twin_witness :
  exists s1 s2,
    createWorkInProgress 0 (VObj 1 []) (createHostRootFiber empty_store).2 = Ret (1%nat, s1)
    /\ createWorkInProgress 0 (VObj 2 []) s1 = Ret (1%nat, s2)
    /\ length (fibers s2) = 2%nat.
Proof.
  destruct (createWorkInProgress_reuses_the_twin 0
              (mkFiber (Some HostRoot) VNull VNull VNull None None None VNull 0
                       NoFlags NoLanes NoLanes None None)
              (VObj 1 []) (VObj 2 []) (createHostRootFiber empty_store).2 eq_refl eq_refl)
    as (s1 & wn & E1 & _ & _ & _ & _ & _ & _ & _ & _ & _ & _ & _ & _ & L1 & _
        & (s2 & wn' & E2 & L2 & _) & _).
  exists s1, s2. split; [exact E1|]. split; [exact E2|]. by rewrite L2, L1.
Defined.

End WorkInProgress.

(** ** A [children] array in the fiber engine *)

Section ChildrenArray.
Import Host Fiber Dom Main.

Lemma ends_with_digit_app pre s :
  s <> "" -> ends_with_digit (pre +:+ s) = ends_with_digit s.
Proof.
  intros Hs. induction pre as [|c pre IH]; [done|].
  simpl. rewrite IH. destruct (pre +:+ s) eqn:E; [|done].
  exfalso. destruct pre; simpl in E; [by apply Hs|discriminate].
Qed.

Lemma pretty_N_go_suffix x : forall s, exists pre, pretty_N_go x s = pre +:+ s.
Proof.
  induction (N.lt_wf_0 x) as [x _ IH]; intros s.
  destruct (decide (x = 0)%N) as [->|Hx].
  - exists "". by rewrite pretty_N_go_0.
  - rewrite pretty_N_go_step by lia.
    destruct (IH (x `div` 10)%N) with (s := String (pretty_N_char (x `mod` 10)) s)
      as (pre & Hpre); [apply N.div_lt; lia|].
    rewrite Hpre.
    exists (pre +:+ String (pretty_N_char (x `mod` 10)) "").
    generalize (pretty_N_char (x `mod` 10)) as c. clear. intros c.
    induction pre as [|c0 pre IHpre]; [done|].
    change (String c0 (pre +:+ String c s) = String c0 ((pre +:+ String c "") +:+ s)).
    by rewrite IHpre.
Qed.

Lemma pretty_N_char_digit x :
  ends_with_digit (String (pretty_N_char x) "") = true.
Proof.
  unfold pretty_N_char.
  repeat (match goal with |- context [match ?y with _ => _ end] => destruct y end);
    reflexivity.
Qed.

Lemma index_key_digit i : ends_with_digit (index_key i) = true.
Proof.
  unfold index_key, pretty, pretty_N.
  destruct (decide (N.of_nat i = 0)%N); [done|].
  rewrite pretty_N_go_step by lia.
  destruct (pretty_N_go_suffix (N.of_nat i `div` 10)
              (String (pretty_N_char (N.of_nat i `mod` 10)) "")) as (pre & Hpre).
  rewrite Hpre.
  rewrite ends_with_digit_app by done. apply pretty_N_char_digit.
Qed.

(** A name that is no index is not a property of an array. *)
Lemma get_indexed_name {A} (f : A -> jsval) k (l : list A) : forall i,
  ends_with_digit k = false ->
  lookup_key k (map (fun kv => (kv.1, f kv.2)) (indexed i l)) = None.
Proof.
  induction l as [|x l IH]; intros i Hk; simpl; [done|].
  destruct (String.eqb k (index_key i)) eqn:E; [|auto].
  apply String.eqb_eq in E. subst. by rewrite index_key_digit in Hk.
Qed.

Lemma get_array_name k (items : list jsval) :
  ends_with_digit k = false -> get (indexed 0 items) k = VUndef.
Proof.
  intros Hk. unfold get.
  pose proof (get_indexed_name id k items 0 Hk) as H.
  replace (map (fun kv => (kv.1, id kv.2)) (indexed 0 items)) with (indexed 0 items) in H.
  - by rewrite H.
  - clear. generalize 0%nat. induction items as [|x l IH]; intros i; simpl; [done|].
    by rewrite <- IH.
Qed.

(** X14. A [children] prop that is an array is not rendered.  The
    engine builds one child fiber from [nextChildren]; given an array
    (two or more children), [createFiberFromElement] reads no [type] on
    it and makes a fiber with tag [null], type and props [undefined].
    That fiber is a dead end: [beginWork] and [completeWork] do nothing
    on it, and [appendChildren] of the parent finds no host node below
    it, so nothing of the array reaches the host. *)
Theorem beginWork_leaves_a_children_array_unrendered :
  forall (C : components) (fuel fuel' : nat) (current : option nat) (wip : nat)
         (s : store) (w : FiberNode) (r : nat) (props : object)
         (ra : nat) (items : list jsval) (d : nat),
    fibers s !! wip = Some w ->
    tag w = Some HostComponent \/ tag w = Some HostRoot ->
    pendingProps w = VObj r props ->
    get props "children" = VArr ra items ->
    exists s1 cn,
      beginWork C fuel current wip s = Ret (Some (length (fibers s)), s1)
      /\ fibers s1 !! length (fibers s) = Some cn
      /\ tag cn = None /\ type cn = VUndef /\ pendingProps cn = VUndef
      /\ return_ cn = Some wip /\ child cn = None /\ sibling cn = None
      /\ (child <$> fibers s1 !! wip) = Some (Some (length (fibers s)))
      /\ host s1 = host s
      /\ beginWork C fuel' None (length (fibers s)) s1 = Ret (None, s1)
      /\ completeWork fuel' (length (fibers s)) s1 = Ret s1
      /\ appendChildren (S fuel') d wip s1 = Ret s1.
Proof.
  intros C fuel fuel' current wip s w r props ra items d Hw Ht Hp Hc.
  assert (Hlt : (wip < length (fibers s))%nat) by (by apply lookup_lt_Some in Hw).
  set (c := length (fibers s)).
  set (cn := mkFiber None VUndef VUndef VUndef (Some wip) None None VNull
                     (length (queues s)) NoFlags NoLanes NoLanes None None).
  set (s1 := mkStore (<[wip := set_child (Some c) w]> (fibers s) ++ [cn])
                     (queues s ++ [None]) (updates s) (instances s) (host s) (fresh s)).
  assert (Hattach : attachChild wip (VArr ra items) s = Ret (Some c, s1)).
  { unfold attachChild. cbn [truthy negb]. unfold createFiberFromElement. cbn [get_member].
    rewrite !get_array_name by reflexivity. cbn.
    unfold update_fiber. cbn.
    rewrite lookup_app_r, Nat.sub_diag by done. cbn.
    rewrite insert_app_r_alt, Nat.sub_diag by done. cbn.
    rewrite lookup_app_r, Nat.sub_diag by done. cbn.
    rewrite insert_app_r_alt, Nat.sub_diag by done. cbn.
    rewrite lookup_app_l, Hw by done. cbn.
    rewrite insert_app_l by done. reflexivity. }
  assert (Hbegin : beginWork C fuel current wip s = Ret (Some c, s1)).
  { unfold beginWork, fiber_at, deref. rewrite Hw. cbn.
    destruct Ht as [-> | ->]; rewrite Hp; cbn; rewrite Hc; cbn; exact Hattach. }
  assert (Hcn : fibers s1 !! c = Some cn).
  { subst s1. cbn. rewrite lookup_app_r by (rewrite length_insert; done).
    by rewrite length_insert, Nat.sub_diag. }
  assert (Hwn : fibers s1 !! wip = Some (set_child (Some c) w)).
  { subst s1. cbn. rewrite lookup_app_l by (rewrite length_insert; done).
    by apply list_lookup_insert_eq. }
  exists s1, cn. split; [exact Hbegin|]. split; [exact Hcn|].
  do 6 (split; [reflexivity|]). split; [by rewrite Hwn|]. split; [reflexivity|].
  split; [|split].
  - unfold beginWork, fiber_at, deref. by rewrite Hcn.
  - unfold completeWork, fiber_at, deref. by rewrite Hcn.
  - unfold appendChildren, fiber_at, deref. rewrite Hwn. cbn.
    unfold fiber_at, deref. rewrite Hcn. cbn. by destruct fuel'.
Qed.

(** [<div><a/><b/></div>]: the fiber of the [div] with its two children
    in an array. *)
Lemma beginWork_leaves_a_children_array_unrendered_witness :
  exists s1,
    beginWork Examples.AppClassComponent 0 None 0
      (mkStore [mkFiber (Some HostComponent)
                  (VObj 1 [("children",
                            VArr 2 [React.createElement 3 (VStr "a") VNull [];
                                    React.createElement 5 (VStr "b") VNull []])])
                  VNull (VStr "div") None None None VNull 0 0 0 0 None None]
               [None] [] [] Examples.host0 0) = Ret (Some 1%nat, s1)
    /\ completeWork 0 1 s1 = Ret s1
    /\ appendChildren 1 7 0 s1 = Ret s1.
Proof.
  destruct (beginWork_leaves_a_children_array_unrendered Examples.AppClassComponent
              0 0 None 0
              (mkStore [mkFiber (Some HostComponent)
                          (VObj 1 [("children",
                                    VArr 2 [React.createElement 3 (VStr "a") VNull [];
                                            React.createElement 5 (VStr "b") VNull []])])
                          VNull (VStr "div") None None None VNull 0 0 0 0 None None]
                       [None] [] [] Examples.host0 0)
              _ 1%nat _ 2%nat _ 7%nat eq_refl (or_introl eq_refl) eq_refl eq_refl)
    as (s1 & cn & E & _ & _ & _ & _ & _ & _ & _ & _ & _ & _ & Hc & Ha).
  exists s1. split; [exact E|]. split; [exact Hc | exact Ha].
Defined.

End ChildrenArray.

(** ** Descriptions made by [React.createElement] *)

Section Descriptions.
Import React.

Lemma lookup_key_delete k (o : object) k' :
  lookup_key k' (delete_key k o) = if String.eqb k' k then None else lookup_key k' o.
Proof.
  unfold delete_key. induction o as [|[k0 v0] o IH]; simpl.
  - by destruct (String.eqb k' k).
  - destruct (String.eqb k0 k) eqn:E0; simpl.
    + apply String.eqb_eq in E0. subst k0. rewrite IH.
      by destruct (String.eqb k' k).
    + rewrite IH. destruct (String.eqb k' k0) eqn:E1; [|done].
      apply String.eqb_eq in E1. subst k0. by rewrite E0.
Qed.

Lemma get_delete k (o : object) k' :
  get (delete_key k o) k' = if String.eqb k' k then VUndef else get o k'.
Proof. unfold get. rewrite lookup_key_delete. by destruct (String.eqb k' k). Qed.

Lemma has_delete k (o : object) k' :
  has (delete_key k o) k' = negb (String.eqb k' k) && has o k'.
Proof. unfold has. rewrite lookup_key_delete. by destruct (String.eqb k' k). Qed.

Lemma has_set k v (o : object) k' :
  has (set k v o) k' = String.eqb k' k || has o k'.
Proof. unfold has. rewrite lookup_key_set. by destruct (String.eqb k' k). Qed.

(** X15. The description [React.createElement] makes from a config
    object.  [key] and [ref] are taken out of the config -- a falsy
    [key] (0, the empty string) becomes [null] -- and the config object
    itself, stripped of the two, is the [props] of the description: no
    copy is made.  Every other prop keeps its value.  [children] is
    absent (or what the config had) without child arguments, the child
    itself for one, and an array for two or more. *)
Theorem createElement_takes_key_and_ref_out_of_props :
  forall (r : nat) (type : jsval) (rc : nat) (fs : object) (children : list jsval),
    exists props,
      React.createElement r type (VObj rc fs) children
      = VObj r [("type", type);
                ("key", if truthy (get fs "key") then get fs "key" else VNull);
                ("ref", if truthy (get fs "ref") then get fs "ref" else VNull);
                ("props", VObj rc props)]
      /\ has props "key" = false /\ has props "ref" = false
      /\ (forall k, k <> "key" -> k <> "ref" -> k <> "children" ->
            get props k = get fs k /\ has props k = has fs k)
      /\ get props "children"
         = match childrenProp r children with
           | Some c => c
           | None => get fs "children"
           end.
Proof.
  intros r type rc fs children.
  set (stripped := delete_key "ref" (delete_key "key" fs)).
  assert (Hs : forall k, get stripped k
                 = if String.eqb k "ref" then VUndef
                   else if String.eqb k "key" then VUndef else get fs k).
  { intros k. subst stripped. by rewrite !get_delete. }
  assert (Hh : forall k, has stripped k
                 = negb (String.eqb k "ref") && (negb (String.eqb k "key") && has fs k)).
  { intros k. subst stripped. by rewrite !has_delete. }
  exists (match childrenProp r children with
          | Some c => set "children" c stripped
          | None => stripped
          end).
  split; [by destruct children as [|c [|c' cs]]|].
  destruct (childrenProp r children) as [c|].
  - rewrite !has_set, !Hh, get_set. simpl. repeat split; try done.
    + rewrite get_set, Hs.
      destruct (String.eqb k "children") eqn:E1; [apply String.eqb_eq in E1; done|].
      destruct (String.eqb k "ref") eqn:E2; [apply String.eqb_eq in E2; done|].
      destruct (String.eqb k "key") eqn:E3; [apply String.eqb_eq in E3; done|]. done.
    + rewrite has_set, Hh.
      destruct (String.eqb k "children") eqn:E1; [apply String.eqb_eq in E1; done|].
      destruct (String.eqb k "ref") eqn:E2; [apply String.eqb_eq in E2; done|].
      destruct (String.eqb k "key") eqn:E3; [apply String.eqb_eq in E3; done|]. done.
  - rewrite !Hh, Hs. simpl. repeat split; try done.
    + rewrite Hs.
      destruct (String.eqb k "ref") eqn:E2; [apply String.eqb_eq in E2; done|].
      destruct (String.eqb k "key") eqn:E3; [apply String.eqb_eq in E3; done|]. done.
    + rewrite Hh.
      destruct (String.eqb k "ref") eqn:E2; [apply String.eqb_eq in E2; done|].
      destruct (String.eqb k "key") eqn:E3; [apply String.eqb_eq in E3; done|]. done.
Qed.

End Descriptions.

(** ** Dispatch along the [return] path *)

Section Dispatch.
Import Host Fiber Main Events Examples.

Lemma invokeAll_functions (hs : list nat) (e : SyntheticEvent) :
  invokeAll (map VFun hs) e = Ret (map (fun h => mkCall h e) hs).
Proof.
  unfold invokeAll.
  assert (H : forall acc,
            foldM (fun acc l => match l with
                                | VFun f => Ret (acc ++ [mkCall f e])
                                | _ => Throw TypeError
                                end) (map VFun hs) acc
            = Ret (acc ++ map (fun h => mkCall h e) hs)).
  { induction hs as [|h hs IH]; intros acc; simpl; [by rewrite app_nil_r|].
    rewrite IH, <- app_assoc. done. }
  apply (H []).
Qed.



End Dispatch.

(** ** Event names *)

Section EventNames.
Import Events Didact.

Lemma substring_all s : String.substring 0 (String.length s) s = s.
Proof. induction s as [|c s IH]; simpl; [done|]. by rewrite IH. Qed.

Lemma lower_upper c : lower_ascii (upper_ascii c) = lower_ascii c.
Proof. destruct c as [[] [] [] [] [] [] [] []]; reflexivity. Qed.

Lemma length_toLowerCase s : String.length (toLowerCase s) = String.length s.
Proof. induction s as [|c s IH]; simpl; [done|]. by rewrite IH. Qed.



End EventNames.

(** ** The commit of the entry module *)

Section EntryCommit.
Import Host Fiber Dom Main Examples.

Lemma commitFirstHost_firstHost container s k start r :
  firstHost s k start r ->
  forall fuel, (k <= fuel)%nat ->
  commitFirstHost fuel container start s
  = Ret (match r with
         | Some d => with_host s (appendChild container d (host s))
         | None => s
         end).
Proof.
  induction 1 as [|a n d Ha Ht Hs|a n k r Ha Hn _ IH]; intros fuel Hf.
  - by destruct fuel.
  - destruct fuel as [|fuel]; [lia|]. cbn [commitFirstHost].
    unfold fiber_at, deref. rewrite Ha. cbn. by rewrite Ht, Hs.
  - destruct fuel as [|fuel]; [lia|]. cbn [commitFirstHost].
    unfold fiber_at, deref. rewrite Ha. cbn.
    rewrite <- (IH fuel) by lia.
    destruct Hn as [Hn | ->].
    + by destruct (tag n) as [[]|].
    + by destruct (tag n) as [[]|].
Qed.

(** X18. [commitRoot] of the entry module attaches one host node at
    most.  Below the finished root it follows the [child] links only,
    and appends to the container the host node of the first
    primitive-host fiber that has one; when the chain ends without such
    a fiber nothing is appended.  In both cases the fibers are left as
    they are, [root.current] is not reassigned, and the finished root is
    stored on the container. *)
Theorem entry_commitRoot_appends_the_first_host_node :
  forall (fuel k : nat) (m : mstate) (cur fw : FiberNode) (finishedWork : nat)
         (r : option nat),
    fibers (st m) !! root_current m = Some cur ->
    alternate cur = Some finishedWork ->
    fibers (st m) !! finishedWork = Some fw ->
    firstHost (st m) k (child fw) r ->
    (k <= fuel)%nat ->
    exists m',
      commitRoot fuel m = Ret m'
      /\ calls (host (st m'))
         = calls (host (st m))
           ++ match r with Some d => [AppendChild (root_container m) d] | None => [] end
      /\ fibers (st m') = fibers (st m)
      /\ nodes (host (st m')) = nodes (host (st m))
      /\ root_current m' = root_current m
      /\ container_current m' = Some finishedWork.
Proof.
  intros fuel k m cur fw finishedWork r Hcur Halt Hfw Hfh Hk.
  unfold commitRoot, fiber_at, deref. rewrite Hcur. cbn. rewrite Halt, Hfw. cbn.
  rewrite (commitFirstHost_firstHost _ _ _ _ _ Hfh fuel Hk). cbn.
  eexists. split; [reflexivity|]. cbn.
  destruct r; cbn; rewrite ?app_nil_r; done.
Qed.

(** A finished root (address 1) over a function component (2) that
    rendered a completed host fiber (3, host node 1). *)
Lemma entry_commitRoot_appends_the_first_host_node_witness :
  exists m',
    commitRoot 2
      (mkMain (mkStore [set_alternate (Some 1%nat) (plain (Some HostRoot) None None None None);
                        set_alternate (Some 0%nat)
                          (plain (Some HostRoot) None (Some 2%nat) None None);
                        plain (Some FunctionComponent) (Some 1%nat) (Some 3%nat) None None;
                        plain (Some HostComponent) (Some 2%nat) None None (Some (SDom 1))]
                       [None] [] []
                       (Host.alloc (KElement (VStr "div")) host0).2 0)
              0 0 None None) = Ret m'
    /\ calls (host (st m')) = [AppendChild 0 1]
    /\ root_current m' = 0%nat
    /\ container_current m' = Some 1%nat.
Proof.
  destruct (entry_commitRoot_appends_the_first_host_node 2 2
              (mkMain (mkStore
                         [set_alternate (Some 1%nat) (plain (Some HostRoot) None None None None);
                          set_alternate (Some 0%nat)
                            (plain (Some HostRoot) None (Some 2%nat) None None);
                          plain (Some FunctionComponent) (Some 1%nat) (Some 3%nat) None None;
                          plain (Some HostComponent) (Some 2%nat) None None (Some (SDom 1))]
                         [None] [] []
                         (Host.alloc (KElement (VStr "div")) host0).2 0)
                      0 0 None None)
              _ _ 1%nat (Some 1%nat) eq_refl eq_refl eq_refl)
    as (m' & E & Hc & _ & _ & Hr & Hcc).
  - eapply firstHost_below; [reflexivity | by left |].
    eapply firstHost_here; reflexivity.
  - lia.
  - exists m'. split; [exact E|]. split; [exact Hc|]. split; [exact Hr | exact Hcc].
Defined.

End EntryCommit.

(** ** Lanes (constants.js) *)

Section Lanes.

Lemma toInt32_lanes a : is_lanes a -> toInt32 a = a.
Proof.
  unfold is_lanes, toInt32. intros H.
  rewrite Z.mod_small by lia. lia.
Qed.

Lemma lor_lanes a b : is_lanes a -> is_lanes b -> is_lanes (Z.lor a b).
Proof.
  unfold is_lanes. intros [Ha1 Ha2] [Hb1 Hb2]. split; [by apply Z.lor_nonneg|].
  destruct (decide (Z.lor a b = 0)) as [->|Hne]; [done|].
  apply Z.log2_lt_pow2; [pose proof (Z.lor_nonneg a b); lia|].
  rewrite Z.log2_lor by done.
  destruct (decide (a = 0)) as [->|Ha]; destruct (decide (b = 0)) as [->|Hb].
  - done.
  - rewrite Z.max_r by (simpl; apply Z.log2_nonneg). apply Z.log2_lt_pow2; lia.
  - rewrite Z.max_l by (simpl; apply Z.log2_nonneg). apply Z.log2_lt_pow2; lia.
  - apply Z.max_lub_lt; apply Z.log2_lt_pow2; lia.
Qed.

(** X19. Lanes are sets under [mergeLane] and [includesSomeLane].  On
    bit masks of 31 bits, [mergeLane] is the union: it stays a mask, is
    commutative, associative and idempotent, and has [NoLanes] as its
    unit; [includesSomeLane] tests a non-empty intersection: it is
    symmetric, never holds against [NoLanes], holds of a mask against
    itself unless the mask is empty, and a union meets [c] exactly when
    one of its two parts does. *)
Theorem lanes_are_sets :
  forall a b c : Z,
    is_lanes a -> is_lanes b -> is_lanes c ->
    is_lanes (mergeLane a b)
    /\ mergeLane a b = mergeLane b a
    /\ mergeLane (mergeLane a b) c = mergeLane a (mergeLane b c)
    /\ mergeLane a a = a
    /\ mergeLane a NoLanes = a
    /\ includesSomeLane a b = includesSomeLane b a
    /\ includesSomeLane a NoLanes = false
    /\ includesSomeLane a a = negb (a =? 0)
    /\ includesSomeLane (mergeLane a b) c
       = includesSomeLane a c || includesSomeLane b c.
Proof.
  intros a b c Ha Hb Hc.
  pose proof (lor_lanes a b Ha Hb) as Hab.
  pose proof (lor_lanes b c Hb Hc) as Hbc.
  assert (H0 : is_lanes 0) by (unfold is_lanes; lia).
  unfold mergeLane, includesSomeLane, NoLanes, NoLane.
  rewrite !(toInt32_lanes a), !(toInt32_lanes b), !(toInt32_lanes c),
    !(toInt32_lanes 0), !(toInt32_lanes (Z.lor a b)), !(toInt32_lanes (Z.lor b c))
    by done.
  split; [done|]. split; [apply Z.lor_comm|]. split; [by rewrite Z.lor_assoc|].
  split; [apply Z.lor_diag|]. split; [apply Z.lor_0_r|].
  split; [by rewrite Z.land_comm|]. split; [by rewrite Z.land_0_r|].
  split; [by rewrite Z.land_diag|].
  rewrite Z.land_lor_distr_l.
  destruct (Z.land a c =? 0) eqn:E1, (Z.land b c =? 0) eqn:E2; simpl;
    rewrite ?Z.eqb_eq, ?Z.eqb_neq in *.
  - apply negb_false_iff, Z.eqb_eq, Z.lor_eq_0_iff. done.
  - apply negb_true_iff, Z.eqb_neq. rewrite Z.lor_eq_0_iff. tauto.
  - apply negb_true_iff, Z.eqb_neq. rewrite Z.lor_eq_0_iff. tauto.
  - apply negb_true_iff, Z.eqb_neq. rewrite Z.lor_eq_0_iff. tauto.
Qed.

Lemma lanes_are_sets_witness :
  mergeLane SyncLane 4 = 5
  /\ includesSomeLane (mergeLane SyncLane 4) SyncLane = true.
Proof.
  assert (H : forall z, 0 <= z < 8 -> is_lanes z) by (unfold is_lanes; lia).
  destruct (lanes_are_sets SyncLane 4 SyncLane) as (_ & _ & _ & _ & _ & _ & _ & _ & Hu);
    try (apply H; unfold SyncLane; lia).
  split; [reflexivity|]. rewrite Hu. reflexivity.
Defined.

End Lanes.

(** ** The first pass of the work-loop renderer *)

Section FirstPass.
Import Host Didact Examples.

Lemma count_eq e : count e = S (below e).
Proof. by destruct e. Qed.

Lemma creations_eq d e :
  creations d e = createCalls d e ++ creations_forest (S d) (e_children e).
Proof. by destruct e. Qed.

Lemma placements_eq dp d e :
  placements dp d e = AppendChild dp d :: placements_forest d (S d) (e_children e).
Proof.
  destruct e as [t p cs]. cbn [placements e_children]. f_equal.
  generalize (S d). induction cs as [|c cs IH]; intros d'; simpl; [done|].
  by rewrite IH.
Qed.

Lemma layout_eq p a sib d L e :
  layout p a sib d L e
  = (a, placedFiber p sib d L e)
    :: layout_forest a L (S d) (L + length (e_children e)) (e_children e).
Proof.
  destruct e as [t pr cs]. cbn [layout e_children]. f_equal.
  generalize (L + length cs)%nat. generalize (S d). generalize L.
  induction cs as [|c cs IH]; intros a' d' L'; simpl; [done|].
  by rewrite IH.
Qed.

Lemma forest_count_cons e es : forest_count (e :: es) = (count e + forest_count es)%nat.
Proof. reflexivity. Qed.

Lemma forest_count_length es : (length es <= forest_count es)%nat.
Proof.
  induction es as [|e es IH]; [done|]. rewrite forest_count_cons, count_eq. simpl. lia.
Qed.

(** *** Where the fibers of a layout sit *)

Lemma layout_forest_addresses p es : forall a d L b f,
  In (b, f) (layout_forest p a d L es) ->
  (a <= b < a + length es)%nat \/ (L <= b < L + (forest_count es - length es))%nat.
Proof.
  assert (H : forall N es, (forest_count es <= N)%nat -> forall p a d L b f,
            In (b, f) (layout_forest p a d L es) ->
            (a <= b < a + length es)%nat
            \/ (L <= b < L + (forest_count es - length es))%nat).
  { clear. induction N as [|N IH]; intros es HN p a d L b f Hin.
    - destruct es as [|e es]; [done|]. rewrite forest_count_cons, count_eq in HN. lia.
    - destruct es as [|e es]; [done|].
      rewrite forest_count_cons, count_eq in HN.
      pose proof (forest_count_length es) as Hl.
      pose proof (forest_count_length (e_children e)) as Hlc.
      cbn [layout_forest] in Hin. rewrite layout_eq in Hin.
      rewrite forest_count_cons, count_eq. unfold below in *. cbn [length].
      apply in_app_or in Hin as [[[= <- <-]|Hin]|Hin].
      + left. lia.
      + apply IH in Hin; [|lia]. right. lia.
      + apply IH in Hin; [|lia]. rewrite count_eq in Hin. unfold below in Hin.
        destruct Hin as [Hin|Hin]; [left; lia | right; lia]. }
  intros a d L b f. by apply (H (forest_count es)).
Qed.

Lemma holds_app st l1 l2 : holds st (l1 ++ l2) <-> holds st l1 /\ holds st l2.
Proof. apply Forall_app. Qed.

Lemma holds_frame st st' l :
  holds st l -> (forall b f, In (b, f) l -> heap st' !! b = heap st !! b) -> holds st' l.
Proof.
  unfold holds. rewrite !Forall_forall. intros H Hf [b f] Hin.
  apply list_elem_of_In in Hin. simpl. rewrite (Hf b f Hin).
  apply (H (b, f)). by apply list_elem_of_In.
Qed.

Lemma freshChain_addresses p es : forall a b f,
  In (b, f) (freshChain p a es) -> (a <= b < a + length es)%nat.
Proof.
  induction es as [|e es IH]; intros a b f; simpl; [done|].
  intros [[= <- <-]|Hin]; [lia|]. apply IH in Hin. lia.
Qed.

(** *** One unit of work on a fresh fiber *)

Lemma setProps_log d (f : string -> jsval) ks : forall h,
  calls (fold_left (fun h name => setProp d name (f name) h) ks h)
  = calls h ++ map (fun k => SetProp d k (f k)) ks
  /\ length (nodes (fold_left (fun h name => setProp d name (f name) h) ks h))
     = length (nodes h).
Proof.
  induction ks as [|k ks IH]; intros h; simpl; [by rewrite app_nil_r|].
  destruct (IH (setProp d k (f k) h)) as [-> ->].
  unfold setProp, log, update_node. simpl.
  destruct (nodes h !! d); simpl; rewrite <- ?app_assoc, ?length_insert; done.
Qed.

Lemma createDom_fresh p sib e h :
  (createDom (freshFiber p sib e) h).1 = length (nodes h)
  /\ calls (createDom (freshFiber p sib e) h).2
     = calls h ++ createCalls (length (nodes h)) e
  /\ length (nodes (createDom (freshFiber p sib e) h).2) = S (length (nodes h)).
Proof.
  unfold createDom, createCalls. cbn [type props freshFiber].
  destruct (String.eqb (e_type e) "TEXT_ELEMENT"); cbn [createTextNode createElement Host.alloc];
    cbn [fst snd];
    match goal with
    | |- context [fold_left ?g ?ks ?h0] =>
        destruct (setProps_log (length (nodes h)) (get (e_props e)) ks h0) as [E1 E2]
    end; rewrite E1, E2; cbn; rewrite <- app_assoc, length_app; cbn;
    (split; [done|]); (split; [done|lia]).
Qed.

Lemma holds_freshChain st p es : forall H,
  (forall j e, es !! j = Some e ->
     heap st !! (H + j)%nat
     = Some (freshFiber p (if Nat.ltb (S j) (length es) then Some (H + S j)%nat else None) e)) ->
  holds st (freshChain p H es).
Proof.
  induction es as [|e es IH]; intros H Hall; [constructor|].
  cbn [freshChain]. constructor.
  - cbn [fst snd]. specialize (Hall 0%nat e eq_refl). rewrite Nat.add_0_r in Hall.
    rewrite Hall. f_equal. f_equal. cbn [length].
    destruct es; cbn; [done|]. f_equal. lia.
  - apply IH. intros j e' Hj. specialize (Hall (S j) e' Hj).
    replace (S H + j)%nat with (H + S j)%nat by lia. rewrite Hall.
    cbn [length]. f_equal. f_equal.
    change (S (S j) <? S (length es))%nat with (S j <? length es)%nat.
    destruct (S j <? length es)%nat; [|done]. f_equal. lia.
Qed.

(** [reconcileChildren] for a fiber that has no previous generation. *)
Lemma reconcile_first fuel a es st w :
  heap st !! a = Some w ->
  alternate w = None ->
  child w = None ->
  (length es <= fuel)%nat ->
  exists st',
    reconcileChildren fuel a es st = Ret st'
    /\ length (heap st') = (length (heap st) + length es)%nat
    /\ (forall b, (b < length (heap st))%nat -> b <> a -> heap st' !! b = heap st !! b)
    /\ heap st' !! a
       = Some (set_child (match es with [] => None | _ => Some (length (heap st)) end) w)
    /\ holds st' (freshChain a (length (heap st)) es)
    /\ host st' = host st /\ deletions st' = deletions st
    /\ currentRoot st' = currentRoot st /\ wipRoot st' = wipRoot st.
Proof.
  intros Hw Halt Hch Hfuel.
  destruct (reconcile_loop_spec a es (length es) 0 [] None None st fuel)
    as (st' & Hrun & Hlen & Hdel & Hold & Hnew);
    [lia | eauto | constructor | constructor | simpl; lia | done | simpl; lia |].
  exists st'.
  assert (Hrc : reconcileChildren fuel a es st = Ret st').
  { unfold reconcileChildren, fiber_at. rewrite Hw. cbn. rewrite Halt. cbn. exact Hrun. }
  split; [exact Hrc|]. split; [by rewrite Hlen, Nat.sub_0_r|].
  assert (Hb : forall b f, heap st !! b = Some f ->
            heap st' !! b
            = Some (if decide (b = a)
                    then set_child (match es with
                                    | [] => None
                                    | _ => Some (length (heap st))
                                    end) f
                    else f)).
  { intros b f Hf. destruct (Hold b f Hf) as (f' & Hf' & Hc & He & Hchild & Hsib).
    rewrite Hf'. f_equal. apply fiber_ext.
    - destruct (decide (b = a)); exact Hc.
    - rewrite He. cbn. destruct (decide (b = a)); done.
    - rewrite Hchild. cbn.
      destruct (decide (b = a)) as [->|Hne].
      + rewrite bool_decide_eq_true_2 by done.
        assert (f = w) as -> by congruence.
        destruct es; cbn; [by rewrite Hch|done].
      + rewrite bool_decide_eq_false_2 by done. by rewrite andb_false_r.
    - rewrite Hsib. rewrite andb_false_r. cbn. destruct (decide (b = a)); done. }
  split; [|split; [|split]].
  - intros b Hlt Hne. destruct (heap st !! b) as [f|] eqn:Hf.
    + rewrite (Hb b f Hf). by rewrite decide_False.
    + apply lookup_ge_None in Hf. lia.
  - rewrite (Hb a w Hw). by rewrite decide_True.
  - apply holds_freshChain. intros j e Hj.
    rewrite (Hnew j e) by done. cbn.
    unfold newFiberFor, sameNode. rewrite lookup_nil. reflexivity.
  - unfold reconcileChildren, fiber_at in Hrc. rewrite Hw in Hrc. cbn in Hrc.
    rewrite Halt in Hrc. cbn in Hrc.
    pose proof (reconcile_loop_host _ _ _ _ _ _ _ _ Hrc) as Hh.
    pose proof (reconcile_loop_keeps_roots _ _ _ _ _ _ _ _ Hrc) as (Hc & Hwr & _).
    rewrite Hdel. cbn. by rewrite app_nil_r.
Qed.

Lemma climbs_next st k p nx :
  climbs st k p nx -> forall fuel, (k <= fuel)%nat -> next_sibling_up fuel st p = Ret nx.
Proof.
  induction 1 as [|a f s Ha Hs|a f k nx Ha Hs _ IH]; intros fuel Hk.
  - by destruct fuel.
  - destruct fuel as [|fuel]; [lia|]. cbn. unfold fiber_at. rewrite Ha. cbn. by rewrite Hs.
  - destruct fuel as [|fuel]; [lia|]. cbn. unfold fiber_at. rewrite Ha. cbn. rewrite Hs.
    apply IH. lia.
Qed.

Lemma links_kept_refl st : links_kept st st.
Proof. intros b f Hf. eauto. Qed.

Lemma links_kept_trans s1 s2 s3 : links_kept s1 s2 -> links_kept s2 s3 -> links_kept s1 s3.
Proof.
  intros H1 H2 b f Hf. destruct (H1 b f Hf) as (f1 & Hf1 & A1 & B1).
  destruct (H2 b f1 Hf1) as (f2 & Hf2 & A2 & B2). exists f2. split; [done|]. split; congruence.
Qed.

Lemma climbs_kept st st' k p nx : climbs st k p nx -> links_kept st st' -> climbs st' k p nx.
Proof.
  intros H Hk. induction H as [|a f s Ha Hs|a f k nx Ha Hs _ IH].
  - constructor.
  - destruct (Hk a f Ha) as (f' & Hf' & A & B). eapply climbs_sibling; [exact Hf'|congruence].
  - destruct (Hk a f Ha) as (f' & Hf' & A & B).
    eapply climbs_parent; [exact Hf' | congruence | by rewrite B].
Qed.

(** The unit of work of a fresh fiber: a host node is made for it and
    its children get their fibers. *)
Lemma unit_fresh fuel st a p sib e k nxt :
  heap st !! a = Some (freshFiber p sib e) ->
  climbs st k (Some a) nxt ->
  (k <= fuel)%nat -> (length (e_children e) <= fuel)%nat ->
  exists st2,
    performUnitOfWork fuel a st
    = Ret (match e_children e with [] => nxt | _ => Some (length (heap st)) end, st2)
    /\ length (heap st2) = (length (heap st) + length (e_children e))%nat
    /\ (forall b, (b < length (heap st))%nat -> b <> a -> heap st2 !! b = heap st !! b)
    /\ heap st2 !! a
       = Some (placedFiber p sib (length (nodes (host st))) (length (heap st)) e)
    /\ holds st2 (freshChain a (length (heap st)) (e_children e))
    /\ calls (host st2) = calls (host st) ++ createCalls (length (nodes (host st))) e
    /\ length (nodes (host st2)) = S (length (nodes (host st)))
    /\ deletions st2 = deletions st
    /\ currentRoot st2 = currentRoot st /\ wipRoot st2 = wipRoot st
    /\ links_kept st st2.
Proof.
  intros Ha Hclimb Hk Hlen.
  assert (Hlt : (a < length (heap st))%nat) by (by apply lookup_lt_Some in Ha).
  destruct (createDom_fresh p sib e (host st)) as (Hd & Hcalls & Hnodes).
  set (st1 := update_fiber a (set_dom (Some (length (nodes (host st)))))
                (with_host st (createDom (freshFiber p sib e) (host st)).2)).
  assert (H1 : heap st1 !! a
               = Some (set_dom (Some (length (nodes (host st)))) (freshFiber p sib e))).
  { subst st1. rewrite heap_update_fiber, decide_True by done. cbn. by rewrite Ha. }
  assert (L1 : length (heap st1) = length (heap st)).
  { subst st1. by rewrite length_update_fiber. }
  assert (F1 : forall b, b <> a -> heap st1 !! b = heap st !! b).
  { intros b Hb. subst st1. by rewrite heap_update_fiber, decide_False. }
  destruct (reconcile_first fuel a (e_children e) st1 _ H1 eq_refl eq_refl Hlen)
    as (st2 & Hrc & L2 & F2 & A2 & C2 & Hh2 & Hdel2 & Hc2 & Hw2).
  assert (Hplaced : heap st2 !! a
                    = Some (placedFiber p sib (length (nodes (host st)))
                                        (length (heap st)) e)).
  { rewrite A2, L1. unfold placedFiber, set_child, set_dom, freshFiber. cbn.
    by destruct (e_children e). }
  assert (Hlinks : links_kept st st2).
  { intros b f Hf. destruct (decide (b = a)) as [->|Hne].
    - rewrite Hplaced. eexists. split; [done|].
      assert (f = freshFiber p sib e) as -> by congruence. done.
    - exists f. rewrite F2, F1 by (try done; rewrite L1; by apply lookup_lt_Some in Hf).
      done. }
  exists st2. split.
  { unfold performUnitOfWork, fiber_at. rewrite Ha. cbn [mbind outcome_bind obind].
    cbn [dom freshFiber].
    destruct (createDom (freshFiber p sib e) (host st)) as [d h1] eqn:Ecd.
    cbn [fst snd] in *. subst d. fold st1.
    cbn [children freshFiber]. rewrite Hrc. cbn [mbind outcome_bind obind].
    rewrite Hplaced, bind_Ret. unfold placedFiber. cbn [child].
    destruct (e_children e) as [|c cs]; [|done].
    rewrite (climbs_next st2 k (Some a) nxt (climbs_kept _ _ _ _ _ Hclimb Hlinks) fuel Hk).
    done. }
  rewrite L2, L1, Hh2, Hdel2, Hc2, Hw2. subst st1.
  rewrite !host_update_fiber, deletions_update_fiber. cbn [host with_host deletions].
  split; [done|]. split.
  { intros b Hb Hne. rewrite F2 by (rewrite ?length_update_fiber; done).
    by rewrite heap_update_fiber, decide_False. }
  split; [exact Hplaced|]. split; [by rewrite length_update_fiber in C2|].
  split; [exact Hcalls|]. split; [exact Hnodes|]. split; [done|].
  split; [|split; [|exact Hlinks]].
  - unfold update_fiber. by destruct (heap _ !! a).
  - unfold update_fiber. by destruct (heap _ !! a).
Qed.

Lemma work_units_unit fuel st a nx st1 m :
  nextUnitOfWork st = Some a ->
  performUnitOfWork fuel a st = Ret (nx, st1) ->
  work_units fuel (S m) st = work_units fuel m (with_next st1 nx).
Proof. intros Hn Hp. cbn [work_units]. by rewrite Hn, Hp. Qed.

Lemma links_kept_with_next st nx : links_kept st (with_next st nx).
Proof. intros b f Hf. eauto. Qed.

Lemma layout_addresses p a sib d L e b f :
  In (b, f) (layout p a sib d L e) -> b = a \/ (L <= b < L + below e)%nat.
Proof.
  rewrite layout_eq. intros [[= <- <-]|Hin]; [by left|]. right.
  apply layout_forest_addresses in Hin.
  pose proof (forest_count_length (e_children e)). unfold below. lia.
Qed.

(** The units of work of a chain of fresh fibers and of all that comes
    below them: pre-order, one host node per fiber. *)
Lemma render_forest : forall N es,
  (forest_count es <= N)%nat ->
  forall st p a k nxt fuel,
    es <> [] ->
    holds st (freshChain p a es) ->
    (a + length es <= length (heap st))%nat ->
    climbs st k (Some p) nxt ->
    (k + forest_count es <= fuel)%nat ->
    nextUnitOfWork st = Some a ->
    exists st',
      (forall m, work_units fuel (forest_count es + m) st = work_units fuel m st')
      /\ work_units fuel (forest_count es - 1) st = Ret st'
      /\ nextUnitOfWork st' = nxt
      /\ holds st' (layout_forest p a (length (nodes (host st))) (length (heap st)) es)
      /\ length (heap st') = (length (heap st) + (forest_count es - length es))%nat
      /\ (forall b, (b < length (heap st))%nat -> ~ (a <= b < a + length es)%nat ->
            heap st' !! b = heap st !! b)
      /\ calls (host st')
         = calls (host st) ++ creations_forest (length (nodes (host st))) es
      /\ length (nodes (host st')) = (length (nodes (host st)) + forest_count es)%nat
      /\ deletions st' = deletions st
      /\ currentRoot st' = currentRoot st /\ wipRoot st' = wipRoot st
      /\ links_kept st st'.
Proof.
  induction N as [|N IH]; intros es HN st p a k nxt fuel Hne Hfresh Hroom Hclimb Hfuel Hcur.
  { destruct es as [|e es]; [done|]. rewrite forest_count_cons, count_eq in HN. lia. }
  destruct es as [|e es]; [done|]. clear Hne.
  rewrite forest_count_cons, count_eq in HN, Hfuel.
  pose proof (forest_count_length es) as Hles.
  pose proof (forest_count_length (e_children e)) as Hlcs. fold (below e) in Hlcs.
  cbn [freshChain] in Hfresh. apply Forall_cons in Hfresh as [Ha Hrest].
  cbn [fst snd] in Ha. cbn [length] in Hroom.
  set (L := length (heap st)) in *. set (D := length (nodes (host st))) in *.
  set (sib := nextAddr a es) in *.
  (* the climb from the first fiber of the chain *)
  assert (Hka : exists ka nxa,
            climbs st ka (Some a) nxa /\ (ka + below e <= fuel)%nat
            /\ (ka <= fuel)%nat
            /\ match es with [] => nxa = nxt | _ => nxa = Some (S a) end).
  { destruct es as [|e' es'].
    - exists (S k), nxt. split; [|split; [lia|split; [lia|done]]].
      eapply climbs_parent; [exact Ha | done | exact Hclimb].
    - exists 1%nat, (Some (S a)). split; [|split; [lia|split; [lia|done]]].
      eapply climbs_sibling; [exact Ha | done]. }
  destruct Hka as (ka & nxa & Hclimba & Hfa & Hka & Hnxa).
  destruct (unit_fresh fuel st a p sib e ka nxa Ha Hclimba Hka ltac:(lia))
    as (st2 & Hunit & L2 & F2 & A2 & C2 & Hcalls2 & Hnodes2 & Hdel2 & Hc2 & Hw2 & Hk2).
  fold L in Hunit, L2, F2, A2, C2. fold D in A2, Hcalls2, Hnodes2.
  (* the tree below the first fiber *)
  assert (Htree : exists stT,
            (forall m, work_units fuel (count e + m) st = work_units fuel m stT)
            /\ work_units fuel (below e) st = Ret stT
            /\ nextUnitOfWork stT = nxa
            /\ holds stT (layout p a sib D L e)
            /\ length (heap stT) = (L + below e)%nat
            /\ (forall b, (b < L)%nat -> b <> a -> heap stT !! b = heap st !! b)
            /\ calls (host stT) = calls (host st) ++ creations D e
            /\ length (nodes (host stT)) = (D + count e)%nat
            /\ deletions stT = deletions st
            /\ currentRoot stT = currentRoot st /\ wipRoot stT = wipRoot st
            /\ links_kept st stT).
  { destruct (e_children e) as [|c cs] eqn:Ecs.
    - exists (with_next st2 nxa).
      assert (Hb : below e = 0%nat) by (unfold below; by rewrite Ecs).
      split.
      { intros m. rewrite count_eq, Hb. cbn [Nat.add].
        exact (work_units_unit fuel st a _ st2 _ Hcur Hunit). }
      split.
      { rewrite Hb. cbn [work_units]. by rewrite Hcur, Hunit. }
      split; [done|]. split.
      { rewrite layout_eq, Ecs. cbn [layout_forest]. by constructor. }
      cbn [heap with_next host deletions currentRoot wipRoot].
      rewrite L2, Hcalls2, Hnodes2, creations_eq, Ecs, count_eq, Hb. cbn [length creations_forest].
      rewrite app_nil_r.
      split; [lia|]. split; [exact F2|]. split; [done|]. split; [lia|].
      split; [done|]. split; [done|]. split; [done|].
      eapply links_kept_trans; [exact Hk2|apply links_kept_with_next].
    - assert (Hb : below e = forest_count (c :: cs)) by (unfold below; by rewrite Ecs).
      destruct (IH (e_children e) ltac:(unfold below in *; lia)
                  (with_next st2 (Some L)) a L ka nxa fuel)
        as (stT & Hrun & Hstop & Hcur' & Hlay & Hlen & Hfr & Hcalls & Hnodes & Hdel & Hc & Hw
            & Hk');
        rewrite ?Ecs; try done.
      + cbn [heap with_next length]. cbn [length] in L2. lia.
      + eapply climbs_kept; [exact Hclimba|].
        eapply links_kept_trans; [exact Hk2|apply links_kept_with_next].
      + lia.
      + cbn [heap with_next host nodes deletions currentRoot wipRoot] in *.
        rewrite Ecs in Hrun, Hstop, Hlay, Hlen, Hfr, Hcalls, Hnodes.
        exists stT. split.
        { intros m. rewrite count_eq, Hb.
          cbn [Nat.add].
          rewrite (work_units_unit fuel st a _ st2 _ Hcur Hunit). apply Hrun. }
        split.
        { rewrite Hb. pose proof (forest_count_length (c :: cs)) as Hpos. cbn [length] in Hpos.
          replace (forest_count (c :: cs)) with (S (forest_count (c :: cs) - 1)) by lia.
          rewrite (work_units_unit fuel st a _ st2 _ Hcur Hunit). exact Hstop. }
        split; [exact Hcur'|]. split.
        { rewrite layout_eq, Ecs. constructor.
          - cbn [fst snd]. rewrite Hfr; [exact A2 | lia | lia].
          - rewrite Hnodes2, L2 in Hlay. exact Hlay. }
        split; [rewrite Hlen, L2; cbn [length] in *; lia|].
        split.
        { intros b Hlt Hne. rewrite Hfr by lia. by apply F2. }
        split; [rewrite Hcalls, Hcalls2, Hnodes2, creations_eq, Ecs, <- app_assoc; done|].
        split; [rewrite Hnodes, Hnodes2, count_eq; lia|].
        split; [congruence|]. split; [congruence|]. split; [congruence|].
        eapply links_kept_trans; [exact Hk2|].
        eapply links_kept_trans; [apply links_kept_with_next|exact Hk']. }
  destruct Htree as (stT & Hrun & Hstop & Hcur' & Hlay & Hlen & Hfr & Hcalls & Hnodes & Hdel
                     & Hc & Hw & Hk').
  destruct es as [|e' es'].
  - (* the chain ends here *)
    subst nxa. exists stT. cbn [layout_forest creations_forest forest_count length].
    rewrite !app_nil_r, !forest_count_cons. change (forest_count []) with 0%nat.
    rewrite !Nat.add_0_r.
    split; [exact Hrun|].
    split; [by rewrite count_eq; cbn [Nat.sub]; rewrite Nat.sub_0_r|].
    split; [done|]. split; [exact Hlay|].
    split; [rewrite Hlen, count_eq; lia|]. split.
    { intros b Hb Hne. apply Hfr; [done|lia]. }
    repeat split; auto.
  - (* the rest of the chain *)
    subst nxa.
    destruct (IH (e' :: es') ltac:(lia) stT p (S a) k nxt fuel)
      as (st' & Hrun' & Hstop' & Hcur'' & Hlay' & Hlen' & Hfr' & Hcalls' & Hnodes' & Hdel'
          & Hc' & Hw' & Hk''); try done.
    + eapply holds_frame; [exact Hrest|].
      intros b f Hin. apply freshChain_addresses in Hin. apply Hfr; lia.
    + rewrite Hlen. lia.
    + eapply climbs_kept; eassumption.
    + lia.
    + exists st'. split.
      { intros m. rewrite forest_count_cons, <- Nat.add_assoc, Hrun. apply Hrun'. }
      split.
      { pose proof (forest_count_length (e' :: es')) as Hpos. cbn [length] in Hpos.
        rewrite (forest_count_cons e).
        replace (count e + forest_count (e' :: es') - 1)%nat
          with (count e + (forest_count (e' :: es') - 1))%nat by lia.
        rewrite Hrun. exact Hstop'. }
      split; [exact Hcur''|]. split.
      { cbn [layout_forest]. apply holds_app. split.
        - eapply holds_frame; [exact Hlay|].
          intros b f Hin. apply layout_addresses in Hin.
          apply Hfr'; [rewrite Hlen; lia|]. cbn [length] in *. lia.
        - rewrite Hnodes, Hlen in Hlay'.
          replace (count e - 1)%nat with (below e) by (rewrite count_eq; lia).
          exact Hlay'. }
      split.
      { rewrite Hlen', Hlen. rewrite !forest_count_cons, !count_eq. cbn [length].
        pose proof (forest_count_length es'). lia. }
      split.
      { intros b Hb Hne. rewrite Hfr' by (rewrite ?Hlen; cbn [length] in *; lia).
        apply Hfr; [done|]. cbn [length] in Hne. lia. }
      split.
      { cbn [creations_forest]. rewrite Hcalls', Hcalls, Hnodes, <- app_assoc. done. }
      split; [rewrite Hnodes', Hnodes, !forest_count_cons; lia|].
      split; [congruence|]. split; [congruence|]. split; [congruence|].
      eapply links_kept_trans; eassumption.
Qed.


Lemma fiber_at_Some st a f : heap st !! a = Some f -> fiber_at st a = Ret f.
Proof. unfold fiber_at. by intros ->. Qed.

(** The commit of the fibers of a finished first pass: one
    [appendChild] each, pre-order, to the node of the parent fiber. *)
Lemma commit_forest : forall N es,
  (forest_count es <= N)%nat ->
  forall st p a d L dp pf fuel,
    holds st (layout_forest p a d L es) ->
    heap st !! p = Some pf -> dom pf = Some dp ->
    (forest_count es <= fuel)%nat ->
    commitWork fuel (match es with [] => None | _ => Some a end) st
    = Ret (with_host st (mkHost (nodes (host st))
                           (calls (host st) ++ placements_forest dp d es))).
Proof.
  induction N as [|N IH]; intros es HN st p a d L dp pf fuel Hlay Hp Hdp Hfuel.
  { destruct es as [|e es]; [|rewrite forest_count_cons, count_eq in HN; lia].
    destruct fuel; cbn; rewrite app_nil_r; by destruct st as [? ? ? ? ? []]. }
  destruct es as [|e es].
  { destruct fuel; cbn; rewrite app_nil_r; by destruct st as [? ? ? ? ? []]. }
  rewrite forest_count_cons, count_eq in HN, Hfuel.
  destruct fuel as [|fuel]; [lia|].
  cbn [layout_forest] in Hlay. apply holds_app in Hlay as [Hhere Hrest].
  rewrite layout_eq in Hhere. apply Forall_cons in Hhere as [Ha Hbelow].
  cbn [fst snd] in Ha.
  cbn [commitWork]. rewrite (fiber_at_Some _ _ _ Ha), bind_Ret.
  cbn [parent placedFiber]. rewrite (fiber_at_Some _ _ _ Hp), !bind_Ret, Hdp.
  fold (placedFiber p (nextAddr a es) d L e).
  change (effectTag (placedFiber p (nextAddr a es) d L e)) with (Some PLACEMENT).
  change (dom (placedFiber p (nextAddr a es) d L e)) with (Some d).
  change (child (placedFiber p (nextAddr a es) d L e))
    with (match e_children e with [] => None | _ :: _ => Some L end).
  change (sibling (placedFiber p (nextAddr a es) d L e)) with (nextAddr a es).
  cbv iota. rewrite bind_Ret.
  set (st1 := with_host st (appendChild dp d (host st))).
  rewrite (IH (e_children e) ltac:(unfold below in *; lia) st1 a L (S d)
             (L + length (e_children e))%nat d
             (placedFiber p (nextAddr a es) d L e) fuel Hbelow Ha eq_refl
             ltac:(unfold below in *; lia)), bind_Ret.
  set (st2 := with_host st1 _).
  unfold nextAddr.
  rewrite (IH es ltac:(lia) st2 p (S a) (d + count e)%nat (L + (count e - 1))%nat dp pf fuel
             Hrest Hp Hdp ltac:(lia)).
  f_equal. subst st2 st1. unfold with_host, appendChild, log.
  cbn [heap nextUnitOfWork currentRoot wipRoot deletions host nodes calls placements_forest].
  rewrite placements_eq. f_equal. f_equal. rewrite <- !app_assoc. done.
Qed.

Lemma unit_root fuel e container h :
  (1 <= fuel)%nat ->
  exists st1,
    performUnitOfWork fuel 0 (render e container (init h)) = Ret (Some 1%nat, st1)
    /\ heap st1 !! 0%nat
       = Some (mkFiber None [] [e] (Some container) None None None (Some 1%nat) None)
    /\ length (heap st1) = 2%nat
    /\ holds st1 (freshChain 0 1 [e])
    /\ host st1 = h /\ deletions st1 = []
    /\ currentRoot st1 = None /\ wipRoot st1 = Some 0%nat.
Proof.
  intros Hfuel.
  set (root := mkFiber None [] [e] (Some container) None None None None None).
  set (st0 := render e container (init h)).
  destruct (reconcile_first fuel 0 [e] st0 root eq_refl eq_refl eq_refl Hfuel)
    as (st1 & Hrun & Hlen & _ & Hroot & Hchain & Hhost & Hdel & Hc & Hw).
  exists st1. unfold performUnitOfWork.
  change (fiber_at st0 0) with (Ret root). rewrite bind_Ret. cbn [dom root children].
  rewrite Hrun, bind_Ret. unfold fiber_at. rewrite Hroot. cbn.
  repeat split; done.
Qed.

Lemma work_units_idle fuel m st : nextUnitOfWork st = None -> work_units fuel m st = Ret st.
Proof. intros H. destruct m; cbn [work_units]; by rewrite H. Qed.

(** The state a first render ends in. *)
Lemma first_render_state e container h fuel more :
  (count e < fuel)%nat -> (count e <= more)%nat ->
  exists st',
    workLoop fuel more (render e container (init h)) = Ret st'
    /\ heap st' !! 0%nat
       = Some (mkFiber None [] [e] (Some container) None None None (Some 1%nat) None)
    /\ holds st' (layout 0 1 None (length (nodes h)) 2 e)
    /\ length (heap st') = S (count e)
    /\ calls (host st')
       = calls h ++ creations (length (nodes h)) e
                 ++ placements container (length (nodes h)) e
    /\ length (nodes (host st')) = (length (nodes h) + count e)%nat
    /\ nextUnitOfWork st' = None /\ wipRoot st' = None
    /\ currentRoot st' = Some 0%nat /\ deletions st' = [].
Proof.
  intros Hfuel Hmore.
  destruct (unit_root fuel e container h ltac:(lia))
    as (st1 & Hunit & Hroot & Hlen & Hchain & Hhost & Hdel & Hc & Hw).
  assert (Hone : forest_count [e] = count e).
  { rewrite forest_count_cons. change (forest_count []) with 0%nat. lia. }
  destruct (render_forest (count e) [e] ltac:(lia) (with_next st1 (Some 1%nat))
              0%nat 1%nat 1%nat None fuel)
    as (st2 & Hrun & Hstop & Hcur & Hlay & Hlen2 & Hfr & Hcalls & Hnodes & Hdel2 & Hc2 & Hw2
        & _);
    try done.
  { cbn [heap with_next length]. lia. }
  { eapply climbs_parent; [exact Hroot|done|]. constructor. }
  { lia. }
  cbn [heap with_next host deletions currentRoot wipRoot] in *.
  rewrite Hone in Hrun, Hstop, Hnodes, Hlen2. rewrite Hhost in *. rewrite Hlen in *.
  assert (Hunits : work_units fuel more (render e container (init h)) = Ret st2).
  { destruct (decide (more = count e)) as [->|Hne].
    - rewrite count_eq. rewrite count_eq in Hstop. cbn [Nat.sub] in Hstop.
      rewrite Nat.sub_0_r in Hstop.
      by rewrite (work_units_unit fuel (render e container (init h)) 0%nat _ st1 _ eq_refl
                    Hunit).
    - replace more with (S (count e + (more - S (count e))))%nat by lia.
      rewrite (work_units_unit fuel (render e container (init h)) 0%nat _ st1 _ eq_refl
                 Hunit), Hrun.
      by apply work_units_idle. }
  cbn [layout_forest creations_forest] in Hlay, Hcalls. rewrite app_nil_r in Hlay, Hcalls.
  assert (Hroot2 : heap st2 !! 0%nat
                   = Some (mkFiber None [] [e] (Some container) None None None
                             (Some 1%nat) None)).
  { rewrite Hfr; [exact Hroot | lia | cbn; lia]. }
  eexists. split.
  { unfold workLoop. rewrite Hunits, bind_Ret, Hcur, Hw2, Hw.
    unfold commitRoot. rewrite Hdel2, Hdel. cbn [commitDeletions foldM].
    unfold commitDeletions. cbn [foldM]. rewrite bind_Ret, Hw2, Hw.
    rewrite (fiber_at_Some _ _ _ Hroot2), bind_Ret. cbn [child].
    rewrite (commit_forest (count e) [e] ltac:(lia) st2 0%nat 1%nat (length (nodes h)) 2%nat
               container _ fuel ltac:(by cbn [layout_forest]; rewrite app_nil_r)
               Hroot2 eq_refl ltac:(lia)), bind_Ret.
    reflexivity. }
  cbn [heap with_host host nodes calls nextUnitOfWork wipRoot currentRoot deletions
       placements_forest].
  rewrite Hcalls, app_nil_r, <- app_assoc.
  split; [exact Hroot2|]. split; [exact Hlay|].
  split; [rewrite Hlen2, count_eq; cbn [length]; lia|].
  split; [done|]. split; [exact Hnodes|]. split; [exact Hcur|]. split; [done|].
  split; congruence.
Qed.

(** X20.  The first render of a description tree [e], when the idle
    period leaves room for all its units of work (one for the root and
    one for each description): [workLoop] creates one
    host node per description, in pre-order, writing the props of each
    node (all but [children]) right after creating it; only then does
    it attach the nodes, in pre-order again, each to the node of its
    parent and the topmost to the container.  The work in progress
    becomes the current root. *)
Theorem first_render_creates_then_attaches e container h fuel more :
  (count e < fuel)%nat -> (count e <= more)%nat ->
  exists st',
    workLoop fuel more (render e container (init h)) = Ret st'
    /\ calls (host st')
       = calls h ++ creations (length (nodes h)) e
                 ++ placements container (length (nodes h)) e
    /\ length (nodes (host st')) = (length (nodes h) + count e)%nat
    /\ nextUnitOfWork st' = None /\ wipRoot st' = None
    /\ currentRoot st' = Some 0%nat /\ deletions st' = [].
Proof.
  intros Hfuel Hmore.
  destruct (first_render_state e container h fuel more Hfuel Hmore)
    as (st' & Hrun & _ & _ & _ & Hcalls & Hnodes & Hrest).
  exists st'. split; [exact Hrun|]. split; [exact Hcalls|]. split; [exact Hnodes|].
  exact Hrest.
Qed.

Lemma first_render_creates_then_attaches_witness :
  exists st',
    workLoop 5 4 (render div_a_b 0 (init host0)) = Ret st'
    /\ calls (host st')
       = [CreateElement (VStr "div") 1; SetProp 1 "id" (VStr "foo");
          CreateElement (VStr "a") 2;
          CreateTextNode (VStr "") 3; SetProp 3 "nodeValue" (VStr "bar");
          CreateElement (VStr "b") 4;
          AppendChild 0 1; AppendChild 1 2; AppendChild 2 3; AppendChild 1 4]
    /\ length (nodes (host st')) = 5%nat
    /\ nextUnitOfWork st' = None /\ wipRoot st' = None
    /\ currentRoot st' = Some 0%nat /\ deletions st' = [].
Proof.
  exact (first_render_creates_then_attaches div_a_b 0 host0 5 4
           ltac:(vm_compute; lia) ltac:(vm_compute; lia)).
Defined.

End FirstPass.
(** ** A second pass of the work-loop renderer *)

Section SecondPass.
Import Host Didact Examples.

Lemma same_shape_eq e e' :
  same_shape e e'
  = String.eqb (e_type e) (e_type e')
    && same_shape_forest (e_children e) (e_children e').
Proof.
  by destruct e as [t p cs], e' as [t' p' cs'].
Qed.

Lemma updates_eq d e e' h :
  updates d e e' h
  = updates_forest (S d) (e_children e) (e_children e')
      (updateDom d (e_props e) (e_props e') h).
Proof.
  destruct e as [t p cs], e' as [t' p' cs']. cbn [updates e_props e_children].
  generalize (updateDom d p p' h). generalize (S d). revert cs'.
  induction cs as [|c cs IH]; intros [|c' cs'] d' h'; simpl; try done.
Qed.

Lemma relayout_eq p a oa sib d L oL e :
  relayout p a oa sib d L oL e
  = (a, updatedFiber p sib oa d L e)
    :: relayout_forest a L oL (S d) (L + length (e_children e))
         (oL + length (e_children e)) (e_children e).
Proof.
  destruct e as [t pr cs]. cbn [relayout e_children]. f_equal.
  generalize (oL + length cs)%nat. generalize (L + length cs)%nat.
  generalize (S d). generalize oL. generalize L.
  induction cs as [|c cs IH]; intros a' oa' d' L' oL'; simpl; [done|].
  by rewrite IH.
Qed.

Lemma same_shape_counts : forall N es es',
  (forest_count es <= N)%nat ->
  same_shape_forest es es' = true ->
  forest_count es' = forest_count es /\ length es' = length es.
Proof.
  induction N as [|N IH]; intros es es' HN Hs.
  { destruct es as [|e es]; [by destruct es'|].
    rewrite forest_count_cons, count_eq in HN. lia. }
  destruct es as [|e es], es' as [|e' es']; try done.
  cbn [same_shape_forest] in Hs. apply andb_prop in Hs as [Hs Hss].
  rewrite same_shape_eq in Hs. apply andb_prop in Hs as [_ Hs].
  rewrite forest_count_cons, count_eq in HN.
  destruct (IH (e_children e) (e_children e') ltac:(unfold below in HN; lia) Hs) as [E1 E2].
  destruct (IH es es' ltac:(lia) Hss) as [E3 E4].
  rewrite !forest_count_cons, !count_eq. unfold below. cbn [length]. lia.
Qed.

Lemma same_shape_count e e' : same_shape e e' = true -> count e' = count e.
Proof.
  intros Hs. destruct (same_shape_counts (forest_count [e]) [e] [e'] ltac:(lia)) as [E _].
  { cbn. by rewrite Hs. }
  rewrite !forest_count_cons in E. change (forest_count []) with 0%nat in E. lia.
Qed.

Lemma same_shape_forest_lookup es : forall es' j e e',
  same_shape_forest es es' = true -> es !! j = Some e -> es' !! j = Some e' ->
  same_shape e e' = true.
Proof.
  induction es as [|x es IH]; intros [|x' es'] j e e' Hs He He'; try done.
  cbn [same_shape_forest] in Hs. apply andb_prop in Hs as [Hx Hs].
  destruct j as [|j]; cbn in He, He'.
  - congruence.
  - eauto.
Qed.

Lemma same_shape_take es : forall es' j,
  same_shape_forest es es' = true ->
  forest_count (take j es') = forest_count (take j es).
Proof.
  induction es as [|x es IH]; intros [|x' es'] j Hs; try done.
  cbn [same_shape_forest] in Hs. apply andb_prop in Hs as [Hx Hs].
  destruct j as [|j]; [done|]. cbn [take]. rewrite !forest_count_cons.
  rewrite (same_shape_count _ _ Hx), (IH es' j Hs). done.
Qed.

(** *** The old fibers *)

Lemma layout_forest_root st p es : forall a d L j e,
  holds st (layout_forest p a d L es) -> es !! j = Some e ->
  exists L',
    heap st !! (a + j)%nat
    = Some (placedFiber p (nextAddr (a + j) (drop (S j) es))
              (d + forest_count (take j es)) L' e).
Proof.
  induction es as [|x es IH]; intros a d L j e Hh He; [done|].
  cbn [layout_forest] in Hh. apply holds_app in Hh as [Hx Hrest].
  destruct j as [|j]; cbn in He.
  - injection He as ->. rewrite layout_eq in Hx. apply Forall_cons in Hx as [Hx _].
    cbn [fst snd] in Hx. exists L. rewrite Nat.add_0_r. cbn [take drop].
    change (forest_count []) with 0%nat. by rewrite Nat.add_0_r.
  - destruct (IH _ _ _ j e Hrest He) as [L' HL']. exists L'.
    replace (a + S j)%nat with (S a + j)%nat by lia. rewrite HL'.
    cbn [take drop]. rewrite forest_count_cons. do 2 f_equal. lia.
Qed.

Lemma layout_chain st p es : forall a d L,
  holds st (layout_forest p a d L es) ->
  chain st (match es with [] => None | _ => Some a end) (seq a (length es)).
Proof.
  induction es as [|x es IH]; intros a d L Hh; [constructor|].
  cbn [layout_forest] in Hh. apply holds_app in Hh as [Hx Hrest].
  rewrite layout_eq in Hx. apply Forall_cons in Hx as [Hx _]. cbn [fst snd] in Hx.
  cbn [length seq]. econstructor; [exact Hx|].
  cbn [sibling placedFiber]. apply (IH (S a)) in Hrest. by destruct es.
Qed.

Lemma layout_forest_tag p es : forall a d L b f,
  In (b, f) (layout_forest p a d L es) -> effectTag f = Some PLACEMENT.
Proof.
  assert (H : forall N es, (forest_count es <= N)%nat -> forall p a d L b f,
            In (b, f) (layout_forest p a d L es) -> effectTag f = Some PLACEMENT).
  { clear. induction N as [|N IH]; intros es HN p a d L b f Hin.
    - destruct es as [|e es]; [done|]. rewrite forest_count_cons, count_eq in HN. lia.
    - destruct es as [|e es]; [done|].
      rewrite forest_count_cons, count_eq in HN.
      cbn [layout_forest] in Hin. rewrite layout_eq in Hin.
      apply in_app_or in Hin as [[[= <- <-]|Hin]|Hin].
      + done.
      + apply IH in Hin; [done|]. unfold below in HN. lia.
      + apply IH in Hin; [done|lia]. }
  intros a d L b f. by apply (H (forest_count es)).
Qed.

Lemma holds_pendingChain st p es : forall H oa d,
  (forall j e, es !! j = Some e ->
     heap st !! (H + j)%nat
     = Some (pendingFiber p (if Nat.ltb (S j) (length es) then Some (H + S j)%nat else None)
               (oa + j) (d + forest_count (take j es)) e)) ->
  holds st (pendingChain p H oa d es).
Proof.
  induction es as [|e es IH]; intros H oa d Hall; [constructor|].
  cbn [pendingChain]. constructor.
  - cbn [fst snd]. specialize (Hall 0%nat e eq_refl). rewrite !Nat.add_0_r in Hall.
    rewrite Hall. cbn [take]. change (forest_count []) with 0%nat. rewrite ?Nat.add_0_r.
    f_equal. f_equal. cbn [length].
    destruct es; cbn; [done|]. f_equal. lia.
  - apply IH. intros j e' Hj. specialize (Hall (S j) e' Hj).
    replace (S H + j)%nat with (H + S j)%nat by lia. rewrite Hall.
    cbn [length take]. rewrite forest_count_cons.
    replace (oa + S j)%nat with (S oa + j)%nat by lia.
    replace (d + (count e + forest_count (take j es)))%nat
      with (d + count e + forest_count (take j es))%nat by lia.
    f_equal. f_equal.
    change (S (S j) <? S (length es))%nat with (S j <? length es)%nat.
    destruct (S j <? length es)%nat; [|done]. f_equal. lia.
Qed.

Lemma pendingChain_addresses p es : forall a oa d b f,
  In (b, f) (pendingChain p a oa d es) ->
  (a <= b < a + length es)%nat /\ effectTag f = Some UPDATE.
Proof.
  induction es as [|e es IH]; intros a oa d b f; simpl; [done|].
  intros [[= <- <-]|Hin]; [split; [lia|done]|]. apply IH in Hin. split; [lia|tauto].
Qed.

Lemma unmatched_none st olds : forall es,
  (forall j a, olds !! j = Some a -> is_Some (sameNode st (Some a) (es !! j))) ->
  unmatched st olds es = [].
Proof.
  induction olds as [|a olds IH]; intros es Hall; [done|].
  cbn [unmatched]. destruct (Hall 0%nat a eq_refl) as [x Hx].
  rewrite <- head_lookup in Hx. rewrite Hx. apply IH.
  intros j b Hb. specialize (Hall (S j) b Hb). by destruct es.
Qed.

(** *** One unit of work on a fiber that has an old fiber of its shape *)

(** [reconcileChildren] against old children of the same types: every
    description gets an [UPDATE] fiber, nothing is deleted. *)
Lemma reconcile_update fuel a op oL d L0 es es' st w ow :
  heap st !! a = Some w -> alternate w = Some op -> child w = None ->
  heap st !! op = Some ow ->
  child ow = match es with [] => None | _ => Some oL end ->
  holds st (layout_forest op oL d L0 es) ->
  same_shape_forest es es' = true ->
  (length es' <= fuel)%nat ->
  exists st',
    reconcileChildren fuel a es' st = Ret st'
    /\ length (heap st') = (length (heap st) + length es')%nat
    /\ (forall b, (b < length (heap st))%nat -> b <> a -> heap st' !! b = heap st !! b)
    /\ heap st' !! a
       = Some (set_child (match es' with [] => None | _ => Some (length (heap st)) end) w)
    /\ holds st' (pendingChain a (length (heap st)) oL d es')
    /\ host st' = host st /\ deletions st' = deletions st
    /\ currentRoot st' = currentRoot st /\ wipRoot st' = wipRoot st.
Proof.
  intros Hw Halt Hch How Hoch Hold Hshape Hfuel.
  destruct (same_shape_counts _ _ _ (Nat.le_refl _) Hshape) as [Efc Elen].
  pose proof (layout_chain _ _ _ _ _ _ Hold) as Hchain. rewrite <- Hoch in Hchain.
  assert (Hsame : forall j e', es' !! j = Some e' ->
            exists e L',
              es !! j = Some e
              /\ heap st !! (oL + j)%nat
                 = Some (placedFiber op (nextAddr (oL + j) (drop (S j) es))
                           (d + forest_count (take j es)) L' e)
              /\ e_type e = e_type e').
  { intros j e' He'. assert (He : is_Some (es !! j)).
    { apply lookup_lt_is_Some. apply lookup_lt_Some in He'. lia. }
    destruct He as [e He]. destruct (layout_forest_root _ _ _ _ _ _ j e Hold He) as [L' HL'].
    exists e, L'. split; [done|]. split; [done|].
    pose proof (same_shape_forest_lookup _ _ _ _ _ Hshape He He') as Hs.
    rewrite same_shape_eq in Hs. apply andb_prop in Hs as [Hs _].
    by apply String.eqb_eq. }
  assert (Hunm : unmatched st (seq oL (length es)) es' = []).
  { apply unmatched_none. intros j b Hb. apply lookup_seq in Hb as [-> Hlt].
    assert (He' : is_Some (es' !! j)) by (apply lookup_lt_is_Some; lia).
    destruct He' as [e' He']. destruct (Hsame j e' He') as (e & L' & He & Hf & Ht).
    rewrite He'. unfold sameNode. rewrite Hf. cbn [type placedFiber].
    rewrite bool_decide_eq_true_2 by congruence. eauto. }
  destruct (reconcile_loop_spec a es' (length es') 0 (seq oL (length es)) (child ow) None
              st fuel)
    as (st' & Hrun & Hlen & Hdel & Hkeep & Hnew);
    [lia | eauto | exact Hchain | apply NoDup_seq | rewrite length_seq; lia | done
    | rewrite length_seq; lia |].
  change (drop 0 es') with es' in Hdel, Hkeep. rewrite Hunm in Hdel.
  rewrite app_nil_r in Hdel.
  exists st'.
  assert (Hrc : reconcileChildren fuel a es' st = Ret st').
  { unfold reconcileChildren. rewrite (fiber_at_Some _ _ _ Hw), bind_Ret, Halt.
    rewrite (fiber_at_Some _ _ _ How), !bind_Ret. exact Hrun. }
  split; [exact Hrc|]. split; [by rewrite Hlen, Nat.sub_0_r|].
  assert (Hb : forall b f, heap st !! b = Some f ->
            heap st' !! b
            = Some (if decide (b = a)
                    then set_child (match es' with
                                    | [] => None
                                    | _ => Some (length (heap st))
                                    end) f
                    else f)).
  { intros b f Hf. destruct (Hkeep b f Hf) as (f' & Hf' & Hc & He & Hchild & Hsib).
    rewrite Hf'. f_equal. apply fiber_ext.
    - destruct (decide (b = a)); exact Hc.
    - rewrite He. rewrite Hunm, bool_decide_eq_false_2 by apply not_elem_of_nil.
      destruct (decide (b = a)); done.
    - rewrite Hchild. cbn [Nat.eqb andb].
      destruct (decide (b = a)) as [->|Hne].
      + rewrite (bool_decide_eq_true_2 (a = a)) by done.
        assert (f = w) as -> by congruence.
        destruct es' as [|e' es'']; cbn [length Nat.ltb Nat.leb orb andb].
        * destruct es; [|done]. cbn. by rewrite Hch.
        * done.
      + rewrite (bool_decide_eq_false_2 (b = a)) by done. by rewrite !andb_false_r.
    - rewrite Hsib. cbn [Nat.eqb negb]. rewrite andb_false_r. cbn.
      destruct (decide (b = a)); done. }
  split; [|split; [|split]].
  - intros b Hlt Hne. destruct (heap st !! b) as [f|] eqn:Hf.
    + rewrite (Hb b f Hf). by rewrite decide_False.
    + apply lookup_ge_None in Hf. lia.
  - rewrite (Hb a w Hw). by rewrite decide_True.
  - apply holds_pendingChain. intros j e' Hj.
    rewrite (Hnew j e') by done. cbn [Nat.add].
    destruct (Hsame j e' Hj) as (e & L' & He & Hf & Ht).
    unfold newFiberFor, sameNode.
    assert (Hj' : seq oL (length es) !! j = Some (oL + j)%nat).
    { apply lookup_seq. split; [done|]. by apply lookup_lt_Some in He. }
    rewrite Hj'.
    rewrite Hf. cbn [type placedFiber]. rewrite bool_decide_eq_true_2 by congruence.
    cbn [dom set_sibling type props children parent alternate effectTag child].
    unfold pendingFiber, set_sibling, placedFiber.
    cbn [dom type props children parent alternate effectTag child].
    rewrite Ht, (same_shape_take _ _ j Hshape). reflexivity.
  - unfold reconcileChildren in Hrc.
    rewrite (fiber_at_Some _ _ _ Hw), bind_Ret, Halt, (fiber_at_Some _ _ _ How), !bind_Ret
      in Hrc.
    pose proof (reconcile_loop_host _ _ _ _ _ _ _ _ Hrc) as Hh.
    pose proof (reconcile_loop_keeps_roots _ _ _ _ _ _ _ _ Hrc) as (Hc & Hwr & _).
    done.
Qed.

Lemma relayout_forest_addresses p es : forall a oa d L oL b f,
  In (b, f) (relayout_forest p a oa d L oL es) ->
  (a <= b < a + length es)%nat \/ (L <= b < L + (forest_count es - length es))%nat.
Proof.
  assert (H : forall N es, (forest_count es <= N)%nat -> forall p a oa d L oL b f,
            In (b, f) (relayout_forest p a oa d L oL es) ->
            (a <= b < a + length es)%nat
            \/ (L <= b < L + (forest_count es - length es))%nat).
  { clear. induction N as [|N IH]; intros es HN p a oa d L oL b f Hin.
    - destruct es as [|e es]; [done|]. rewrite forest_count_cons, count_eq in HN. lia.
    - destruct es as [|e es]; [done|].
      rewrite forest_count_cons, count_eq in HN.
      pose proof (forest_count_length es) as Hl.
      pose proof (forest_count_length (e_children e)) as Hlc.
      cbn [relayout_forest] in Hin. rewrite relayout_eq in Hin.
      rewrite forest_count_cons, count_eq. unfold below in *. cbn [length].
      apply in_app_or in Hin as [[[= <- <-]|Hin]|Hin].
      + left. lia.
      + apply IH in Hin; [|lia]. right. lia.
      + apply IH in Hin; [|lia]. rewrite count_eq in Hin. unfold below in Hin.
        destruct Hin as [Hin|Hin]; [left; lia | right; lia]. }
  intros a oa d L oL b f. by apply (H (forest_count es)).
Qed.

(** The unit of work of a pending fiber: no host node is made, and its
    children get [UPDATE] fibers. *)
Lemma unit_update fuel st a oa p sib d e e' op osib oL L0 k nxt :
  heap st !! a = Some (pendingFiber p sib oa d e') ->
  heap st !! oa = Some (placedFiber op osib d oL e) ->
  holds st (layout_forest oa oL (S d) L0 (e_children e)) ->
  same_shape_forest (e_children e) (e_children e') = true ->
  climbs st k (Some a) nxt ->
  (k <= fuel)%nat -> (length (e_children e') <= fuel)%nat ->
  exists st2,
    performUnitOfWork fuel a st
    = Ret (match e_children e' with [] => nxt | _ => Some (length (heap st)) end, st2)
    /\ length (heap st2) = (length (heap st) + length (e_children e'))%nat
    /\ (forall b, (b < length (heap st))%nat -> b <> a -> heap st2 !! b = heap st !! b)
    /\ heap st2 !! a = Some (updatedFiber p sib oa d (length (heap st)) e')
    /\ holds st2 (pendingChain a (length (heap st)) oL (S d) (e_children e'))
    /\ host st2 = host st
    /\ deletions st2 = deletions st
    /\ currentRoot st2 = currentRoot st /\ wipRoot st2 = wipRoot st
    /\ links_kept st st2.
Proof.
  intros Ha Hoa Hold Hshape Hclimb Hk Hlen.
  destruct (reconcile_update fuel a oa oL (S d) L0 (e_children e) (e_children e') st _ _
              Ha eq_refl eq_refl Hoa eq_refl Hold Hshape Hlen)
    as (st2 & Hrc & L2 & F2 & A2 & C2 & Hh2 & Hdel2 & Hc2 & Hw2).
  assert (Hupd : heap st2 !! a = Some (updatedFiber p sib oa d (length (heap st)) e')).
  { rewrite A2. unfold updatedFiber, set_child, pendingFiber. cbn.
    by destruct (e_children e'). }
  assert (Hlinks : links_kept st st2).
  { intros b f Hf. destruct (decide (b = a)) as [->|Hne].
    - rewrite Hupd. eexists. split; [done|].
      assert (f = pendingFiber p sib oa d e') as -> by congruence. done.
    - exists f. rewrite F2 by (try done; by apply lookup_lt_Some in Hf). done. }
  exists st2. split.
  { unfold performUnitOfWork. rewrite (fiber_at_Some _ _ _ Ha), bind_Ret.
    cbn [dom children pendingFiber]. rewrite Hrc, bind_Ret.
    rewrite (fiber_at_Some _ _ _ Hupd), bind_Ret. unfold updatedFiber. cbn [child].
    destruct (e_children e') as [|c cs]; [|done].
    rewrite (climbs_next st2 k (Some a) nxt (climbs_kept _ _ _ _ _ Hclimb Hlinks) fuel Hk).
    done. }
  repeat (split; [done|]). exact Hlinks.
Qed.

(** The units of work of a chain of pending fibers and of all that
    comes below them. *)
Lemma update_forest : forall N es es',
  (forest_count es' <= N)%nat ->
  same_shape_forest es es' = true ->
  forall st p a op oa d oL k nxt fuel,
    es' <> [] ->
    holds st (layout_forest op oa d oL es) ->
    holds st (pendingChain p a oa d es') ->
    (a + length es' <= length (heap st))%nat ->
    climbs st k (Some p) nxt ->
    (k + forest_count es' <= fuel)%nat ->
    nextUnitOfWork st = Some a ->
    exists st',
      (forall m, work_units fuel (forest_count es' + m) st = work_units fuel m st')
      /\ work_units fuel (forest_count es' - 1) st = Ret st'
      /\ nextUnitOfWork st' = nxt
      /\ holds st' (relayout_forest p a oa d (length (heap st)) oL es')
      /\ length (heap st') = (length (heap st) + (forest_count es' - length es'))%nat
      /\ (forall b, (b < length (heap st))%nat -> ~ (a <= b < a + length es')%nat ->
            heap st' !! b = heap st !! b)
      /\ host st' = host st
      /\ deletions st' = deletions st
      /\ currentRoot st' = currentRoot st /\ wipRoot st' = wipRoot st
      /\ links_kept st st'.
Proof.
  induction N as [|N IH];
    intros es es' HN Hshape st p a op oa d oL k nxt fuel Hne Hold Hpend Hroom Hclimb Hfuel
      Hcur.
  { destruct es' as [|e' es']; [done|]. rewrite forest_count_cons, count_eq in HN. lia. }
  destruct es' as [|e' es']; [done|]. clear Hne.
  destruct es as [|e es]; [done|].
  cbn [same_shape_forest] in Hshape. apply andb_prop in Hshape as [Hs Hss].
  pose proof (same_shape_count _ _ Hs) as Hcount.
  rewrite same_shape_eq in Hs. apply andb_prop in Hs as [_ Hsc].
  destruct (same_shape_counts _ _ _ (Nat.le_refl _) Hsc) as [Efc Elen].
  rewrite forest_count_cons, count_eq in HN, Hfuel.
  pose proof (forest_count_length es') as Hles.
  pose proof (forest_count_length (e_children e')) as Hlcs. fold (below e') in Hlcs.
  cbn [pendingChain] in Hpend. apply Forall_cons in Hpend as [Ha Hrest].
  cbn [fst snd] in Ha. cbn [length] in Hroom.
  cbn [layout_forest] in Hold. apply holds_app in Hold as [Hold1 Holds].
  pose proof Hold1 as Hold1'.
  rewrite layout_eq in Hold1. apply Forall_cons in Hold1 as [Hoa Hochildren].
  cbn [fst snd] in Hoa.
  set (L := length (heap st)) in *.
  set (sib := nextAddr a es') in *.
  (* old fibers are not pending ones *)
  assert (Hnot : forall l b f, holds st l -> In (b, f) l ->
            effectTag f = Some PLACEMENT -> b <> a /\ (b < L)%nat).
  { intros l b f Hl Hin Htag. unfold holds in Hl. rewrite Forall_forall in Hl.
    specialize (Hl (b, f) ltac:(by apply list_elem_of_In)). cbn [fst snd] in Hl.
    split; [|by apply lookup_lt_Some in Hl]. intros ->. rewrite Ha in Hl.
    injection Hl as <-. discriminate. }
  (* the climb from the first fiber of the chain *)
  assert (Hka : exists ka nxa,
            climbs st ka (Some a) nxa /\ (ka + below e' <= fuel)%nat
            /\ (ka <= fuel)%nat
            /\ match es' with [] => nxa = nxt | _ => nxa = Some (S a) end).
  { destruct es' as [|e2 es2].
    - exists (S k), nxt. split; [|split; [lia|split; [lia|done]]].
      eapply climbs_parent; [exact Ha | done | exact Hclimb].
    - exists 1%nat, (Some (S a)). split; [|split; [lia|split; [lia|done]]].
      eapply climbs_sibling; [exact Ha | done]. }
  destruct Hka as (ka & nxa & Hclimba & Hfa & Hka & Hnxa).
  destruct (unit_update fuel st a oa p sib d e e' op _ oL _ ka nxa Ha Hoa Hochildren Hsc
              Hclimba Hka ltac:(lia))
    as (st2 & Hunit & L2 & F2 & A2 & C2 & Hh2 & Hdel2 & Hc2 & Hw2 & Hk2).
  fold L in Hunit, L2, F2, A2, C2.
  (* the tree below the first fiber *)
  assert (Htree : exists stT,
            (forall m, work_units fuel (count e' + m) st = work_units fuel m stT)
            /\ work_units fuel (below e') st = Ret stT
            /\ nextUnitOfWork stT = nxa
            /\ holds stT (relayout p a oa sib d L oL e')
            /\ length (heap stT) = (L + below e')%nat
            /\ (forall b, (b < L)%nat -> b <> a -> heap stT !! b = heap st !! b)
            /\ host stT = host st
            /\ deletions stT = deletions st
            /\ currentRoot stT = currentRoot st /\ wipRoot stT = wipRoot st
            /\ links_kept st stT).
  { destruct (e_children e') as [|c cs] eqn:Ecs.
    - exists (with_next st2 nxa).
      assert (Hb : below e' = 0%nat) by (unfold below; by rewrite Ecs).
      split.
      { intros m. rewrite count_eq, Hb. cbn [Nat.add].
        exact (work_units_unit fuel st a _ st2 _ Hcur Hunit). }
      split.
      { rewrite Hb. cbn [work_units]. by rewrite Hcur, Hunit. }
      split; [done|]. split.
      { rewrite relayout_eq, Ecs. cbn [relayout_forest]. by constructor. }
      cbn [heap with_next host deletions currentRoot wipRoot].
      rewrite L2, Hb. cbn [length].
      split; [lia|]. split; [exact F2|]. split; [done|]. split; [done|].
      split; [done|]. split; [done|].
      eapply links_kept_trans; [exact Hk2|apply links_kept_with_next].
    - assert (Hb : below e' = forest_count (c :: cs)) by (unfold below; by rewrite Ecs).
      destruct (IH (e_children e) (c :: cs) ltac:(lia) Hsc
                  (with_next st2 (Some L)) a L oa oL (S d)
                  (oL + length (e_children e))%nat ka nxa fuel)
        as (stT & Hrun & Hstop & Hcur' & Hlay & Hlen & Hfr & Hhost & Hdel & Hc & Hw
            & Hk'); try done.
      + eapply holds_frame; [exact Hochildren|].
        intros b f Hin. cbn [heap with_next].
        destruct (Hnot _ b f Hochildren Hin (layout_forest_tag _ _ _ _ _ _ _ Hin)).
        by apply F2.
      + cbn [heap with_next length]. cbn [length] in L2. lia.
      + eapply climbs_kept; [exact Hclimba|].
        eapply links_kept_trans; [exact Hk2|apply links_kept_with_next].
      + lia.
      + cbn [heap with_next host nodes deletions currentRoot wipRoot] in *.
        exists stT. split.
        { intros m. rewrite count_eq, Hb.
          cbn [Nat.add].
          rewrite (work_units_unit fuel st a _ st2 _ Hcur Hunit). apply Hrun. }
        split.
        { rewrite Hb. pose proof (forest_count_length (c :: cs)) as Hpos.
          cbn [length] in Hpos.
          replace (forest_count (c :: cs)) with (S (forest_count (c :: cs) - 1)) by lia.
          rewrite (work_units_unit fuel st a _ st2 _ Hcur Hunit). exact Hstop. }
        split; [exact Hcur'|]. split.
        { rewrite relayout_eq, Ecs. constructor.
          - cbn [fst snd]. rewrite Hfr; [exact A2 | lia | lia].
          - rewrite L2, <- Elen in Hlay. exact Hlay. }
        split; [rewrite Hlen, L2; cbn [length] in *; lia|].
        split.
        { intros b Hlt Hne. rewrite Hfr by lia. by apply F2. }
        split; [congruence|].
        split; [congruence|]. split; [congruence|]. split; [congruence|].
        eapply links_kept_trans; [exact Hk2|].
        eapply links_kept_trans; [apply links_kept_with_next|exact Hk']. }
  destruct Htree as (stT & Hrun & Hstop & Hcur' & Hlay & Hlen & Hfr & Hhost & Hdel
                     & Hc & Hw & Hk').
  destruct es' as [|e2 es2].
  - (* the chain ends here *)
    subst nxa. exists stT. cbn [relayout_forest forest_count length].
    rewrite !app_nil_r, !forest_count_cons. change (forest_count []) with 0%nat.
    rewrite !Nat.add_0_r.
    split; [exact Hrun|].
    split; [by rewrite count_eq; cbn [Nat.sub]; rewrite Nat.sub_0_r|].
    split; [done|]. split; [exact Hlay|].
    split; [rewrite Hlen, count_eq; lia|]. split.
    { intros b Hb Hne. apply Hfr; [done|lia]. }
    repeat split; auto.
  - (* the rest of the chain *)
    subst nxa.
    destruct (IH es (e2 :: es2) ltac:(lia) Hss stT p (S a) op (S oa) (d + count e')%nat
                (oL + (count e' - 1))%nat k nxt fuel)
      as (st' & Hrun' & Hstop' & Hcur'' & Hlay' & Hlen' & Hfr' & Hhost' & Hdel'
          & Hc' & Hw' & Hk''); try done.
    + rewrite Hcount. eapply holds_frame; [exact Holds|].
      intros b f Hin.
      destruct (Hnot _ b f Holds Hin (layout_forest_tag _ _ _ _ _ _ _ Hin)).
      by apply Hfr.
    + eapply holds_frame; [exact Hrest|].
      intros b f Hin. apply pendingChain_addresses in Hin as [Hin _]. apply Hfr; lia.
    + rewrite Hlen. lia.
    + eapply climbs_kept; eassumption.
    + lia.
    + exists st'. split.
      { intros m. rewrite forest_count_cons, <- Nat.add_assoc, Hrun. apply Hrun'. }
      split.
      { pose proof (forest_count_length (e2 :: es2)) as Hpos. cbn [length] in Hpos.
        rewrite (forest_count_cons e').
        replace (count e' + forest_count (e2 :: es2) - 1)%nat
          with (count e' + (forest_count (e2 :: es2) - 1))%nat by lia.
        rewrite Hrun. exact Hstop'. }
      split; [exact Hcur''|]. split.
      { cbn [relayout_forest]. apply holds_app. split.
        - eapply holds_frame; [exact Hlay|].
          intros b f Hin. rewrite relayout_eq in Hin.
          assert (Hb : b = a \/ (L <= b < L + below e')%nat).
          { destruct Hin as [[= <- <-]|Hin]; [by left|]. right.
            apply relayout_forest_addresses in Hin. unfold below in *. lia. }
          apply Hfr'; [rewrite Hlen; lia|]. cbn [length] in *. lia.
        - assert (Hce : (count e' - 1)%nat = below e') by (rewrite count_eq; lia).
          rewrite Hlen, Hce in Hlay'. rewrite Hce. exact Hlay'. }
      split.
      { rewrite Hlen', Hlen. rewrite !forest_count_cons, !count_eq. cbn [length].
        pose proof (forest_count_length es2). lia. }
      split.
      { intros b Hb Hne. rewrite Hfr' by (rewrite ?Hlen; cbn [length] in *; lia).
        apply Hfr; [done|]. cbn [length] in Hne. lia. }
      split; [congruence|].
      split; [congruence|]. split; [congruence|]. split; [congruence|].
      eapply links_kept_trans; eassumption.
Qed.

(** *** The commit of a second pass *)

Lemma with_host_host st : with_host st (host st) = st.
Proof. by destruct st. Qed.

Lemma commit_updates : forall N es es',
  (forest_count es' <= N)%nat ->
  same_shape_forest es es' = true ->
  forall st p a op oa d L oL pf fuel,
    holds st (relayout_forest p a oa d L oL es') ->
    holds st (layout_forest op oa d oL es) ->
    heap st !! p = Some pf ->
    (forest_count es' <= fuel)%nat ->
    commitWork fuel (match es' with [] => None | _ => Some a end) st
    = Ret (with_host st (updates_forest d es es' (host st))).
Proof.
  induction N as [|N IH]; intros es es' HN Hshape st p a op oa d L oL pf fuel Hnew Hold Hp
    Hfuel.
  { destruct es' as [|e' es']; [|rewrite forest_count_cons, count_eq in HN; lia].
    destruct es; [|done]. destruct fuel; cbn; by rewrite with_host_host. }
  destruct es' as [|e' es'].
  { destruct es; [|done]. destruct fuel; cbn; by rewrite with_host_host. }
  destruct es as [|e es]; [done|].
  cbn [same_shape_forest] in Hshape. apply andb_prop in Hshape as [Hs Hss].
  pose proof (same_shape_count _ _ Hs) as Hcount.
  rewrite same_shape_eq in Hs. apply andb_prop in Hs as [_ Hsc].
  destruct (same_shape_counts _ _ _ (Nat.le_refl _) Hsc) as [Efc Elen].
  rewrite forest_count_cons, count_eq in HN, Hfuel.
  destruct fuel as [|fuel]; [lia|].
  cbn [relayout_forest] in Hnew. apply holds_app in Hnew as [Hhere Hrest].
  rewrite relayout_eq in Hhere. apply Forall_cons in Hhere as [Ha Hbelow].
  cbn [fst snd] in Ha.
  cbn [layout_forest] in Hold. apply holds_app in Hold as [Hohere Horest].
  rewrite layout_eq in Hohere. apply Forall_cons in Hohere as [Hoa Hobelow].
  cbn [fst snd] in Hoa.
  cbn [commitWork]. rewrite (fiber_at_Some _ _ _ Ha), bind_Ret.
  cbn [parent updatedFiber]. rewrite (fiber_at_Some _ _ _ Hp), !bind_Ret.
  fold (updatedFiber p (nextAddr a es') oa d L e').
  change (effectTag (updatedFiber p (nextAddr a es') oa d L e')) with (Some UPDATE).
  change (dom (updatedFiber p (nextAddr a es') oa d L e')) with (Some d).
  change (alternate (updatedFiber p (nextAddr a es') oa d L e')) with (Some oa).
  change (child (updatedFiber p (nextAddr a es') oa d L e'))
    with (match e_children e' with [] => None | _ :: _ => Some L end).
  change (sibling (updatedFiber p (nextAddr a es') oa d L e')) with (nextAddr a es').
  change (props (updatedFiber p (nextAddr a es') oa d L e')) with (e_props e').
  cbv iota. rewrite (fiber_at_Some _ _ _ Hoa), !bind_Ret.
  change (props (placedFiber op (nextAddr oa es) d oL e)) with (e_props e).
  set (st1 := with_host st (updateDom d (e_props e) (e_props e') (host st))).
  rewrite Elen in Hbelow.
  rewrite (IH (e_children e) (e_children e') ltac:(unfold below in *; lia) Hsc st1 a L oa oL
             (S d) (L + length (e_children e))%nat (oL + length (e_children e))%nat
             (updatedFiber p (nextAddr a es') oa d L e') fuel Hbelow Hobelow Ha
             ltac:(unfold below in *; lia)), bind_Ret.
  set (st2 := with_host st1 _).
  unfold nextAddr. rewrite <- Hcount in Horest.
  rewrite (IH es es' ltac:(lia) Hss st2 p (S a) op (S oa) (d + count e')%nat
             (L + (count e' - 1))%nat (oL + (count e' - 1))%nat pf fuel
             Hrest Horest Hp ltac:(lia)).
  f_equal. subst st2 st1. unfold with_host.
  cbn [heap nextUnitOfWork currentRoot wipRoot deletions host updates_forest].
  by rewrite updates_eq, Hcount.
Qed.

(** *** What [updateDom] does to the host *)

Lemma only_updates_refl h : only_updates h h.
Proof. split; [done|]. exists []. by rewrite app_nil_r. Qed.

Lemma only_updates_trans h1 h2 h3 :
  only_updates h1 h2 -> only_updates h2 h3 -> only_updates h1 h3.
Proof.
  intros [L1 (x1 & E1 & F1)] [L2 (x2 & E2 & F2)]. split; [congruence|].
  exists (x1 ++ x2). rewrite E2, E1, <- app_assoc. split; [done|].
  by rewrite forallb_app, F1, F2.
Qed.

Lemma only_updates_log c h : is_update_call c = true -> only_updates h (log c h).
Proof. intros Hc. split; [done|]. exists [c]. cbn. by rewrite Hc. Qed.

Lemma only_updates_setProp d k v h : only_updates h (setProp d k v h).
Proof.
  unfold setProp. eapply only_updates_trans; [|by apply only_updates_log].
  split.
  - unfold update_node. destruct (nodes h !! d); [|done]. cbn. by rewrite length_insert.
  - exists []. rewrite app_nil_r. split; [|done].
    unfold update_node. by destruct (nodes h !! d).
Qed.

Lemma only_updates_fold {A} (F : Host.host -> A -> Host.host) ks :
  (forall h k, only_updates h (F h k)) -> forall h, only_updates h (fold_left F ks h).
Proof.
  intros HF. induction ks as [|k ks IH]; intros h; [apply only_updates_refl|].
  cbn. eapply only_updates_trans; [apply HF|apply IH].
Qed.

Lemma only_updates_updateDom d p q h : only_updates h (updateDom d p q h).
Proof.
  unfold updateDom.
  eapply only_updates_trans; [|apply only_updates_fold].
  eapply only_updates_trans; [|apply only_updates_fold].
  eapply only_updates_trans; [|apply only_updates_fold].
  apply only_updates_fold.
  - intros; apply only_updates_setProp.
  - intros; apply only_updates_setProp.
  - intros; by apply only_updates_log.
  - intros; by apply only_updates_log.
Qed.

Lemma only_updates_forest : forall N es es' d h,
  (forest_count es <= N)%nat -> only_updates h (updates_forest d es es' h).
Proof.
  induction N as [|N IH]; intros es es' d h HN.
  { destruct es as [|e es]; [apply only_updates_refl|].
    rewrite forest_count_cons, count_eq in HN. lia. }
  destruct es as [|e es]; [apply only_updates_refl|].
  destruct es' as [|e' es']; [apply only_updates_refl|].
  rewrite forest_count_cons, count_eq in HN.
  cbn [updates_forest]. eapply only_updates_trans; [|apply IH; lia].
  rewrite updates_eq. eapply only_updates_trans; [apply only_updates_updateDom|].
  apply IH. unfold below in HN. lia.
Qed.

(** *** The whole second pass *)

Lemma second_pass e e' container st fuel more r rf a1 d L0 :
  same_shape e e' = true ->
  (count e' < fuel)%nat -> (count e' <= more)%nat ->
  currentRoot st = Some r -> heap st !! r = Some rf -> child rf = Some a1 ->
  holds st (layout r a1 None d L0 e) ->
  exists st',
    workLoop fuel more (render e' container st) = Ret st'
    /\ host st' = updates d e e' (host st)
    /\ nextUnitOfWork st' = None /\ wipRoot st' = None
    /\ currentRoot st' = Some (length (heap st)) /\ deletions st' = [].
Proof.
  intros Hshape Hfuel Hmore Hcr Hr Hrc Hold.
  set (R := length (heap st)).
  set (root := mkFiber None [] [e'] (Some container) None (Some r) None None None).
  set (st0 := render e' container st).
  assert (Hheap0 : heap st0 = heap st ++ [root]).
  { subst st0 root. unfold render, alloc. cbn. by rewrite Hcr. }
  assert (Hkeep0 : forall b, (b < R)%nat -> heap st0 !! b = heap st !! b).
  { intros b Hb. rewrite Hheap0. by apply lookup_app_l. }
  assert (HR0 : heap st0 !! R = Some root).
  { rewrite Hheap0. subst R. by rewrite list_lookup_middle. }
  assert (Hlen0 : length (heap st0) = S R).
  { rewrite Hheap0, length_app. cbn. subst R. lia. }
  assert (Hforest : holds st (layout_forest r a1 d L0 [e])).
  { cbn [layout_forest]. by rewrite app_nil_r. }
  assert (Hin_old : forall b f, In (b, f) (layout_forest r a1 d L0 [e]) -> (b < R)%nat).
  { intros b f Hin. unfold holds in Hforest. rewrite Forall_forall in Hforest.
    specialize (Hforest (b, f) ltac:(by apply list_elem_of_In)).
    by apply lookup_lt_Some in Hforest. }
  assert (Hshapes : same_shape_forest [e] [e'] = true) by (cbn; by rewrite Hshape).
  assert (Hone : forest_count [e'] = count e').
  { rewrite forest_count_cons. change (forest_count []) with 0%nat. lia. }
  (* the unit of work of the root *)
  destruct (reconcile_update fuel R r a1 d L0 [e] [e'] st0 root rf HR0 eq_refl eq_refl)
    as (st1 & Hrun1 & Hlen1 & Hfr1 & Hroot1 & Hpend1 & Hhost1 & Hdel1 & Hc1 & Hw1).
  { rewrite Hkeep0; [done|]. by apply lookup_lt_Some in Hr. }
  { done. }
  { eapply holds_frame; [exact Hforest|]. intros b f Hin. apply Hkeep0. eauto. }
  { done. }
  { cbn. lia. }
  rewrite Hlen0 in Hlen1, Hfr1, Hroot1, Hpend1. cbn [length] in Hlen1.
  assert (Hunit : performUnitOfWork fuel R st0 = Ret (Some (S R), st1)).
  { unfold performUnitOfWork. rewrite (fiber_at_Some _ _ _ HR0), bind_Ret.
    cbn [dom root children]. rewrite Hrun1, bind_Ret.
    by rewrite (fiber_at_Some _ _ _ Hroot1), bind_Ret. }
  assert (Hold1 : holds st1 (layout_forest r a1 d L0 [e])).
  { eapply holds_frame; [exact Hforest|]. intros b f Hin.
    pose proof (Hin_old b f Hin). rewrite Hfr1 by lia. by apply Hkeep0. }
  (* the units of the tree *)
  destruct (update_forest (count e') [e] [e'] ltac:(lia) Hshapes
              (with_next st1 (Some (S R))) R (S R) r a1 d L0 1%nat None fuel)
    as (st2 & Hrun & Hstop & Hcur & Hlay & Hlen2 & Hfr & Hhost2 & Hdel2 & Hc2 & Hw2 & _);
    try done.
  { cbn [heap with_next length]. lia. }
  { eapply climbs_parent; [exact Hroot1|done|]. constructor. }
  { lia. }
  cbn [heap with_next host deletions currentRoot wipRoot] in *.
  rewrite Hone in Hrun, Hstop. rewrite Hlen1 in Hlay, Hfr.
  assert (Hunits : work_units fuel more st0 = Ret st2).
  { assert (Hnext0 : nextUnitOfWork st0 = Some R).
    { subst st0. unfold render, alloc. by cbn. }
    destruct (decide (more = count e')) as [->|Hne].
    - rewrite count_eq. rewrite count_eq in Hstop. cbn [Nat.sub] in Hstop.
      rewrite Nat.sub_0_r in Hstop.
      by rewrite (work_units_unit fuel st0 R _ st1 _ Hnext0 Hunit).
    - replace more with (S (count e' + (more - S (count e'))))%nat by lia.
      rewrite (work_units_unit fuel st0 R _ st1 _ Hnext0 Hunit), Hrun.
      by apply work_units_idle. }
  assert (Hroot2 : heap st2 !! R = Some (set_child (Some (S R)) root)).
  { rewrite Hfr; [exact Hroot1 | lia | cbn; lia]. }
  assert (Hold2 : holds st2 (layout_forest r a1 d L0 [e])).
  { eapply holds_frame; [exact Hold1|]. intros b f Hin.
    pose proof (Hin_old b f Hin). apply Hfr; [lia|cbn; lia]. }
  assert (Hw0 : wipRoot st0 = Some R).
  { subst st0. unfold render, alloc. by cbn. }
  assert (Hdel0 : deletions st0 = []).
  { subst st0. unfold render, alloc. by cbn. }
  assert (Hhost0 : host st0 = host st).
  { subst st0. unfold render, alloc. by cbn. }
  eexists. split.
  { unfold workLoop. rewrite Hunits, bind_Ret, Hcur, Hw2, Hw1, Hw0.
    unfold commitRoot. rewrite Hdel2, Hdel1, Hdel0. unfold commitDeletions. cbn [foldM].
    rewrite bind_Ret, Hw2, Hw1, Hw0.
    rewrite (fiber_at_Some _ _ _ Hroot2), bind_Ret. cbn [child set_child].
    rewrite (commit_updates (count e') [e] [e'] ltac:(lia) Hshapes st2 R (S R) r a1 d
               (S R + 1)%nat L0 _ fuel Hlay Hold2 Hroot2 ltac:(lia)), bind_Ret.
    reflexivity. }
  cbn [heap with_host host nodes calls nextUnitOfWork wipRoot currentRoot deletions
       updates_forest].
  rewrite Hhost2, Hhost1, Hhost0.
  split; [done|]. split; [exact Hcur|]. split; [done|].
  split; [congruence|]. congruence.
Qed.

(** X21.  A second render with a description of the same shape (the
    same types at the same places, whatever the props): no host node is
    created, attached or removed and nothing is queued for deletion; the
    host is changed by [updateDom] alone, from the old props of each
    node to its new props, node by node in pre-order, so by property
    writes and listener changes only.  The second tree becomes the
    current root. *)
Theorem rerender_same_shape_only_updates e e' container h fuel more :
  same_shape e e' = true ->
  (count e < fuel)%nat -> (count e <= more)%nat ->
  exists st1 st2,
    workLoop fuel more (render e container (init h)) = Ret st1
    /\ workLoop fuel more (render e' container st1) = Ret st2
    /\ host st2 = updates (length (nodes h)) e e' (host st1)
    /\ only_updates (host st1) (host st2)
    /\ nextUnitOfWork st2 = None /\ wipRoot st2 = None
    /\ currentRoot st2 = Some (S (count e)) /\ deletions st2 = [].
Proof.
  intros Hshape Hfuel Hmore.
  destruct (first_render_state e container h fuel more Hfuel Hmore)
    as (st1 & Hrun1 & Hroot & Hlay & Hlen & _ & _ & _ & _ & Hc1 & _).
  pose proof (same_shape_count _ _ Hshape) as Hcount.
  destruct (second_pass e e' container st1 fuel more 0%nat _ 1%nat (length (nodes h)) 2%nat
              Hshape ltac:(lia) ltac:(lia) Hc1 Hroot eq_refl Hlay)
    as (st2 & Hrun2 & Hhost & Hn & Hw & Hc2 & Hd).
  exists st1, st2. split; [exact Hrun1|]. split; [exact Hrun2|]. split; [exact Hhost|].
  split.
  { rewrite Hhost.
    pose proof (only_updates_forest (count e) [e] [e'] (length (nodes h)) (host st1)) as Hu.
    cbn [updates_forest] in Hu. apply Hu.
    rewrite forest_count_cons. change (forest_count []) with 0%nat. lia. }
  split; [exact Hn|]. split; [exact Hw|]. split; [by rewrite Hc2, Hlen|exact Hd].
Qed.

Lemma rerender_same_shape_only_updates_witness :
  exists st1 st2,
    workLoop 5 4 (render div_a_b 0 (init host0)) = Ret st1
    /\ workLoop 5 4 (render div_a_b_next 0 st1) = Ret st2
    /\ host st2 = updates 1 div_a_b div_a_b_next (host st1)
    /\ only_updates (host st1) (host st2)
    /\ nextUnitOfWork st2 = None /\ wipRoot st2 = None
    /\ currentRoot st2 = Some 5%nat /\ deletions st2 = [].
Proof.
  exact (rerender_same_shape_only_updates div_a_b div_a_b_next 0 host0 5 4
           ltac:(vm_compute; reflexivity) ltac:(vm_compute; lia) ltac:(vm_compute; lia)).
Defined.

(** *** Rendering the same description again *)

Lemma no_NaN_eq e :
  no_NaN e
  <-> (forall k v, In (k, v) (e_props e) -> v <> VNaN) /\ no_NaN_forest (e_children e).
Proof. by destruct e. Qed.

(** [updateDom] between props objects that have the same values under
    the keys of each other does nothing. *)
Lemma updateDom_unchanged d (p q : object) h :
  (forall k, In k (keys p) -> has q k = true) ->
  (forall k, has q k = true -> strict_eq (get p k) (get q k) = true) ->
  updateDom d p q h = h.
Proof.
  intros Hkeeps Hsame. unfold updateDom.
  assert (Hhas : forall k, In k (keys q) -> has q k = true).
  { intros k Hk. destruct (in_keys_lookup k q Hk) as (v & Hl & _).
    unfold has. by rewrite Hl. }
  assert (Hnew : forall k, has q k = true -> isNew p q k = false).
  { intros k Hk. unfold isNew. by rewrite (Hsame k Hk). }
  rewrite (filter_none (isGone p q)), (filter_none (isNew p q) (List.filter isProperty _)),
    (filter_none (fun k => negb (has q k) || isNew p q k)),
    (filter_none (isNew p q) (List.filter isEvent _)).
  - reflexivity.
  - intros k Hk. apply filter_In in Hk as [Hk _]. auto.
  - intros k Hk. apply filter_In in Hk as [Hk _].
    by rewrite (Hkeeps k Hk), (Hnew k (Hkeeps k Hk)).
  - intros k Hk. apply filter_In in Hk as [Hk _]. auto.
  - intros k Hk. apply filter_In in Hk as [Hk _]. unfold isGone. by rewrite Hkeeps.
Qed.

Lemma updates_same : forall N es d h,
  (forest_count es <= N)%nat -> no_NaN_forest es -> updates_forest d es es h = h.
Proof.
  induction N as [|N IH]; intros es d h HN Hn.
  { destruct es as [|e es]; [done|]. rewrite forest_count_cons, count_eq in HN. lia. }
  destruct es as [|e es]; [done|].
  rewrite forest_count_cons, count_eq in HN. destruct Hn as [He Hes].
  apply no_NaN_eq in He as [Hp Hcs].
  cbn [updates_forest]. rewrite updates_eq, updateDom_unchanged.
  - rewrite (IH (e_children e)) by (try done; unfold below in HN; lia).
    apply IH; [lia|done].
  - intros k Hk. destruct (in_keys_lookup k _ Hk) as (v & Hl & _). unfold has. by rewrite Hl.
  - intros k Hk. unfold has in Hk. unfold get.
    destruct (lookup_key k (e_props e)) as [v|] eqn:Hl; [|done].
    apply strict_eq_refl. eapply Hp. eapply lookup_key_In. exact Hl.
Qed.

Lemma same_shape_refl : forall N es,
  (forest_count es <= N)%nat -> same_shape_forest es es = true.
Proof.
  induction N as [|N IH]; intros es HN.
  { destruct es as [|e es]; [done|]. rewrite forest_count_cons, count_eq in HN. lia. }
  destruct es as [|e es]; [done|].
  rewrite forest_count_cons, count_eq in HN.
  cbn [same_shape_forest]. rewrite same_shape_eq, String.eqb_refl.
  rewrite (IH (e_children e)) by (unfold below in HN; lia).
  rewrite (IH es) by lia. done.
Qed.

(** X22.  Rendering the same description a second time changes
    nothing on the host: no node is created, attached or removed, no
    property is written and no listener touched (as long as no prop is
    [NaN]); the new fiber tree still becomes the current root. *)
Theorem rerender_same_description_is_silent e container h fuel more :
  no_NaN e ->
  (count e < fuel)%nat -> (count e <= more)%nat ->
  exists st1 st2,
    workLoop fuel more (render e container (init h)) = Ret st1
    /\ workLoop fuel more (render e container st1) = Ret st2
    /\ host st2 = host st1
    /\ deletions st2 = []
    /\ currentRoot st1 = Some 0%nat /\ currentRoot st2 = Some (S (count e)).
Proof.
  intros Hn Hfuel Hmore.
  destruct (first_render_state e container h fuel more Hfuel Hmore)
    as (st1 & Hrun1 & Hroot & Hlay & Hlen & _ & _ & _ & _ & Hc1 & _).
  assert (Hshape : same_shape e e = true).
  { pose proof (same_shape_refl (count e) [e]) as Hs. cbn [same_shape_forest] in Hs.
    rewrite andb_true_r in Hs. apply Hs.
    rewrite forest_count_cons. change (forest_count []) with 0%nat. lia. }
  destruct (second_pass e e container st1 fuel more 0%nat _ 1%nat (length (nodes h)) 2%nat
              Hshape ltac:(lia) ltac:(lia) Hc1 Hroot eq_refl Hlay)
    as (st2 & Hrun2 & Hhost & _ & _ & Hc2 & Hd).
  exists st1, st2. split; [exact Hrun1|]. split; [exact Hrun2|]. split.
  { rewrite Hhost.
    pose proof (updates_same (count e) [e] (length (nodes h)) (host st1)) as Hu.
    cbn [updates_forest] in Hu. apply Hu.
    - rewrite forest_count_cons. change (forest_count []) with 0%nat. lia.
    - by split. }
  split; [exact Hd|]. split; [exact Hc1|]. by rewrite Hc2, Hlen.
Qed.

Lemma rerender_same_description_is_silent_witness :
  exists st1 st2,
    workLoop 5 4 (render div_a_b 0 (init host0)) = Ret st1
    /\ workLoop 5 4 (render div_a_b 0 st1) = Ret st2
    /\ host st2 = host st1
    /\ deletions st2 = []
    /\ currentRoot st1 = Some 0%nat /\ currentRoot st2 = Some 5%nat.
Proof.
  apply (rerender_same_description_is_silent div_a_b 0 host0 5 4).
  - cbn. repeat split; intros k v Hin;
      repeat (destruct Hin as [[= <- <-]|Hin]; [discriminate|]); destruct Hin.
  - vm_compute. lia.
  - vm_compute. lia.
Defined.

End SecondPass.
(** ** A second pass that replaces the tree *)

Section Replace.
Import Host Didact Examples.

(** [reconcileChildren] of a root against an old child of another
    type: a fresh fiber for the description, the old fiber tagged and
    queued. *)
Lemma reconcile_replace fuel a op o1 e' st w ow f1 :
  heap st !! a = Some w -> alternate w = Some op -> child w = None ->
  heap st !! op = Some ow -> child ow = Some o1 ->
  heap st !! o1 = Some f1 -> sibling f1 = None ->
  type f1 <> Some (e_type e') ->
  a <> o1 ->
  (1 <= fuel)%nat ->
  exists st',
    reconcileChildren fuel a [e'] st = Ret st'
    /\ length (heap st') = S (length (heap st))
    /\ (forall b, (b < length (heap st))%nat -> b <> a -> b <> o1 ->
          heap st' !! b = heap st !! b)
    /\ heap st' !! a = Some (set_child (Some (length (heap st))) w)
    /\ heap st' !! o1 = Some (set_effectTag (Some DELETION) f1)
    /\ heap st' !! length (heap st) = Some (freshFiber a None e')
    /\ host st' = host st /\ deletions st' = deletions st ++ [o1]
    /\ currentRoot st' = currentRoot st /\ wipRoot st' = wipRoot st.
Proof.
  intros Hw Halt Hch How Hoch Hf1 Hsib Htype Hne Hfuel.
  assert (Hsame : sameNode st (Some o1) (Some e') = None).
  { unfold sameNode. rewrite Hf1. by rewrite bool_decide_eq_false_2. }
  assert (Hunm : unmatched st [o1] [e'] = [o1]).
  { cbn [unmatched head]. by rewrite Hsame. }
  destruct (reconcile_loop_spec a [e'] 1 0 [o1] (Some o1) None st fuel)
    as (st' & Hrun & Hlen & Hdel & Hkeep & Hnew);
    [done | eauto | | | simpl; lia | done | simpl; lia |].
  { econstructor; [exact Hf1|]. rewrite Hsib. constructor. }
  { apply NoDup_singleton. }
  change (drop 0 [e']) with [e'] in Hdel, Hkeep. rewrite Hunm in Hdel.
  cbn [length Nat.sub] in Hlen.
  exists st'.
  assert (Hrc : reconcileChildren fuel a [e'] st = Ret st').
  { unfold reconcileChildren. rewrite (fiber_at_Some _ _ _ Hw), bind_Ret, Halt.
    rewrite (fiber_at_Some _ _ _ How), !bind_Ret, Hoch. exact Hrun. }
  split; [exact Hrc|]. split; [rewrite Hlen; lia|].
  assert (Hb : forall b f, heap st !! b = Some f ->
            heap st' !! b
            = Some (if decide (b = a) then set_child (Some (length (heap st))) f
                    else if decide (b = o1) then set_effectTag (Some DELETION) f
                    else f)).
  { intros b f Hf. destruct (Hkeep b f Hf) as (f' & Hf' & Hc & He & Hchild & Hsb).
    rewrite Hf'. f_equal. rewrite Hunm in He.
    cbn [length Nat.ltb Nat.leb orb andb Nat.eqb negb] in Hchild, Hsb.
    apply fiber_ext.
    - destruct (decide (b = a)); [exact Hc|]. destruct (decide (b = o1)); exact Hc.
    - rewrite He. destruct (decide (b = a)) as [->|Hba].
      + rewrite bool_decide_eq_false_2; [done|]. rewrite list_elem_of_singleton. done.
      + destruct (decide (b = o1)) as [->|Hbo].
        * rewrite bool_decide_eq_true_2; [done|]. by apply list_elem_of_singleton.
        * rewrite bool_decide_eq_false_2; [done|]. by rewrite list_elem_of_singleton.
    - rewrite Hchild. destruct (decide (b = a)) as [->|Hba].
      + by rewrite bool_decide_eq_true_2.
      + rewrite bool_decide_eq_false_2 by done. by destruct (decide (b = o1)).
    - rewrite Hsb. destruct (decide (b = a)); [done|]. by destruct (decide (b = o1)). }
  split.
  { intros b Hlt Hba Hbo. destruct (heap st !! b) as [f|] eqn:Hf.
    - rewrite (Hb b f Hf). by rewrite !decide_False.
    - apply lookup_ge_None in Hf. lia. }
  split; [rewrite (Hb a w Hw); by rewrite decide_True|].
  split; [rewrite (Hb o1 f1 Hf1); by rewrite decide_False, decide_True by done|].
  split.
  { specialize (Hnew 0%nat e' eq_refl). rewrite Nat.add_0_r in Hnew. rewrite Hnew.
    unfold newFiberFor. cbn [lookup list_lookup]. by rewrite Hsame. }
  unfold reconcileChildren in Hrc.
  rewrite (fiber_at_Some _ _ _ Hw), bind_Ret, Halt, (fiber_at_Some _ _ _ How), !bind_Ret
    in Hrc.
  pose proof (reconcile_loop_host _ _ _ _ _ _ _ _ Hrc) as Hh.
  pose proof (reconcile_loop_keeps_roots _ _ _ _ _ _ _ _ Hrc) as (Hc & Hwr & _).
  done.
Qed.

(** The commit of a deleted fiber whose subtree was placed by the pass
    before: its node is removed, and the walk below it appends the
    nodes of the subtree again. *)
Lemma commit_deleted fuel st a p d L e pf dp :
  heap st !! a = Some (set_effectTag (Some DELETION) (placedFiber p None d L e)) ->
  heap st !! p = Some pf -> dom pf = Some dp ->
  holds st (layout_forest a L (S d) (L + length (e_children e)) (e_children e)) ->
  (count e <= fuel)%nat ->
  commitWork fuel (Some a) st
  = Ret (with_host st
           (mkHost (nodes (host st))
              (calls (host st)
               ++ RemoveChild dp d :: placements_forest d (S d) (e_children e)))).
Proof.
  intros Ha Hp Hdp Hbelow Hfuel. rewrite count_eq in Hfuel.
  destruct fuel as [|fuel]; [lia|].
  cbn [commitWork]. rewrite (fiber_at_Some _ _ _ Ha), bind_Ret.
  change (parent (set_effectTag (Some DELETION) (placedFiber p None d L e)))
    with (Some p).
  cbv iota. rewrite (fiber_at_Some _ _ _ Hp), !bind_Ret, Hdp.
  change (effectTag (set_effectTag (Some DELETION) (placedFiber p None d L e)))
    with (Some DELETION).
  change (dom (set_effectTag (Some DELETION) (placedFiber p None d L e))) with (Some d).
  change (child (set_effectTag (Some DELETION) (placedFiber p None d L e)))
    with (match e_children e with [] => None | _ :: _ => Some L end).
  change (sibling (set_effectTag (Some DELETION) (placedFiber p None d L e)))
    with (@None nat).
  cbv iota. rewrite bind_Ret.
  set (stA := with_host st (removeChild dp d (host st))).
  rewrite (commit_forest (below e) (e_children e) (Nat.le_refl _) stA a L (S d)
             (L + length (e_children e))%nat d _ fuel Hbelow Ha eq_refl
             ltac:(unfold below in *; lia)), bind_Ret.
  destruct fuel; cbn [commitWork]; subst stA; unfold with_host, removeChild, log;
    cbn [heap nextUnitOfWork currentRoot wipRoot deletions host nodes calls];
    by rewrite <- app_assoc.
Qed.

(** X23.  A second render whose description has another type at the
    top replaces the tree: the render phase creates the nodes of the new
    tree (pre-order, as in a first render); the commit then removes the
    old topmost node from the container, walks on below the deleted
    fiber, where the fibers still carry the [PLACEMENT] tag of their own
    commit, and appends every old descendant node to its old parent node
    once more; only then are the new nodes attached.  The deleted fiber
    stays in [deletions] until the next [render]. *)
Theorem rerender_other_type_replaces_the_tree e e' container h fuel more :
  e_type e <> e_type e' ->
  (count e < fuel)%nat -> (count e' < fuel)%nat ->
  (count e <= more)%nat -> (count e' <= more)%nat ->
  exists st1 st2,
    workLoop fuel more (render e container (init h)) = Ret st1
    /\ workLoop fuel more (render e' container st1) = Ret st2
    /\ calls (host st2)
       = calls (host st1)
         ++ creations (length (nodes h) + count e) e'
         ++ RemoveChild container (length (nodes h))
            :: placements_forest (length (nodes h)) (S (length (nodes h))) (e_children e)
         ++ placements container (length (nodes h) + count e) e'
    /\ length (nodes (host st2)) = (length (nodes h) + count e + count e')%nat
    /\ deletions st2 = [1%nat]
    /\ nextUnitOfWork st2 = None /\ wipRoot st2 = None
    /\ currentRoot st2 = Some (S (count e)).
Proof.
  intros Htype Hfuel Hfuel' Hmore Hmore'.
  destruct (first_render_state e container h fuel more Hfuel Hmore)
    as (st1 & Hrun1 & Hroot & Hlay & Hlen & _ & Hnodes1 & _ & _ & Hc1 & _).
  exists st1.
  set (D := length (nodes h)) in *.
  rewrite layout_eq in Hlay. apply Forall_cons in Hlay as [Htop Hbelow].
  cbn [fst snd] in Htop.
  set (R := length (heap st1)).
  assert (HR : R = S (count e)) by done.
  pose proof (count_eq e) as Hce.
  set (root := mkFiber None [] [e'] (Some container) None (Some 0%nat) None None None).
  set (st0 := render e' container st1).
  assert (Hheap0 : heap st0 = heap st1 ++ [root]).
  { subst st0 root. unfold render, alloc. cbn. by rewrite Hc1. }
  assert (Hkeep0 : forall b, (b < R)%nat -> heap st0 !! b = heap st1 !! b).
  { intros b Hb. rewrite Hheap0. by apply lookup_app_l. }
  assert (HR0 : heap st0 !! R = Some root).
  { rewrite Hheap0. subst R. by rewrite list_lookup_middle. }
  assert (Hlen0 : length (heap st0) = S R).
  { rewrite Hheap0, length_app. cbn. subst R. lia. }
  assert (Hnext0 : nextUnitOfWork st0 = Some R).
  { subst st0. unfold render, alloc. by cbn. }
  assert (Hw0 : wipRoot st0 = Some R).
  { subst st0. unfold render, alloc. by cbn. }
  assert (Hdel0 : deletions st0 = []).
  { subst st0. unfold render, alloc. by cbn. }
  assert (Hhost0 : host st0 = host st1).
  { subst st0. unfold render, alloc. by cbn. }
  assert (Hin_old : forall b f,
            In (b, f) (layout_forest 1 2 (S D) (2 + length (e_children e)) (e_children e)) ->
            (2 <= b < R)%nat).
  { intros b f Hin. split.
    - apply layout_forest_addresses in Hin. lia.
    - unfold holds in Hbelow. rewrite Forall_forall in Hbelow.
      specialize (Hbelow (b, f) ltac:(by apply list_elem_of_In)).
      by apply lookup_lt_Some in Hbelow. }
  (* the unit of work of the root *)
  destruct (reconcile_replace fuel R 0 1 e' st0 root _ _ HR0 eq_refl eq_refl
              ltac:(rewrite Hkeep0 by lia; exact Hroot) eq_refl
              ltac:(rewrite Hkeep0 by lia; exact Htop) eq_refl)
    as (st1' & Hrc & Hlen1 & Hfr1 & Hroot1 & Hdeleted1 & Hfresh1 & Hhost1 & Hdel1 & Hcr1
        & Hw1); [cbn; congruence | lia | lia |].
  rewrite Hlen0 in Hlen1, Hfr1, Hroot1, Hfresh1. rewrite Hdel0 in Hdel1. cbn [app] in Hdel1.
  assert (Hunit : performUnitOfWork fuel R st0 = Ret (Some (S R), st1')).
  { unfold performUnitOfWork. rewrite (fiber_at_Some _ _ _ HR0), bind_Ret.
    cbn [dom root children]. rewrite Hrc, bind_Ret.
    by rewrite (fiber_at_Some _ _ _ Hroot1), bind_Ret. }
  assert (Hone : forest_count [e'] = count e').
  { rewrite forest_count_cons. change (forest_count []) with 0%nat. lia. }
  (* the units of the new tree *)
  destruct (render_forest (count e') [e'] ltac:(lia) (with_next st1' (Some (S R)))
              R (S R) 1%nat None fuel)
    as (st2 & Hrun & Hstop & Hcur & Hlay2 & Hlen2 & Hfr & Hcalls & Hnodes & Hdel2 & Hc2 & Hw2
        & _);
    try done.
  { constructor; [exact Hfresh1|constructor]. }
  { cbn [heap with_next length]. lia. }
  { eapply climbs_parent; [exact Hroot1|done|]. constructor. }
  { lia. }
  cbn [heap with_next host deletions currentRoot wipRoot] in *.
  rewrite Hone in Hrun, Hstop, Hnodes. rewrite Hlen1 in Hlay2, Hfr.
  rewrite Hhost1, Hhost0 in Hcalls, Hnodes, Hlay2. rewrite Hnodes1 in Hcalls, Hnodes, Hlay2.
  cbn [layout_forest creations_forest] in Hlay2, Hcalls. rewrite app_nil_r in Hlay2, Hcalls.
  assert (Hunits : work_units fuel more st0 = Ret st2).
  { destruct (decide (more = count e')) as [->|Hne].
    - rewrite count_eq. rewrite count_eq in Hstop. cbn [Nat.sub] in Hstop.
      rewrite Nat.sub_0_r in Hstop.
      by rewrite (work_units_unit fuel st0 R _ st1' _ Hnext0 Hunit).
    - replace more with (S (count e' + (more - S (count e'))))%nat by lia.
      rewrite (work_units_unit fuel st0 R _ st1' _ Hnext0 Hunit), Hrun.
      by apply work_units_idle. }
  (* the fibers the commit reads *)
  assert (Hroot2 : heap st2 !! R = Some (set_child (Some (S R)) root)).
  { rewrite Hfr; [exact Hroot1 | lia | cbn; lia]. }
  assert (Hdeleted2 : heap st2 !! 1%nat
                      = Some (set_effectTag (Some DELETION)
                                (placedFiber 0 None D 2 e))).
  { rewrite Hfr; [exact Hdeleted1 | lia | cbn; lia]. }
  assert (Hroot0 : heap st2 !! 0%nat
                   = Some (mkFiber None [] [e] (Some container) None None None
                             (Some 1%nat) None)).
  { rewrite Hfr, Hfr1, Hkeep0; [exact Hroot | lia | lia | lia | lia | lia | cbn; lia]. }
  assert (Hbelow2 : holds st2 (layout_forest 1 2 (S D) (2 + length (e_children e))
                                 (e_children e))).
  { eapply holds_frame; [exact Hbelow|]. intros b f Hin.
    pose proof (Hin_old b f Hin). rewrite Hfr, Hfr1, Hkeep0; [done | lia..| cbn; lia]. }
  eexists. split; [exact Hrun1|]. split.
  { unfold workLoop. rewrite Hunits, bind_Ret, Hcur, Hw2, Hw1, Hw0.
    unfold commitRoot. rewrite Hdel2, Hdel1. unfold commitDeletions. cbn [foldM].
    rewrite (commit_deleted fuel st2 1%nat 0%nat D 2%nat e _ container Hdeleted2 Hroot0
               eq_refl Hbelow2 ltac:(lia)), !bind_Ret.
    set (stB := with_host st2 _).
    change (wipRoot stB) with (wipRoot st2). rewrite Hw2, Hw1, Hw0.
    change (fiber_at stB R) with (fiber_at st2 R).
    rewrite (fiber_at_Some _ _ _ Hroot2), bind_Ret. cbn [child set_child].
    rewrite (commit_forest (count e') [e'] ltac:(lia) stB R (S R) (D + count e)%nat
               (S (S R)) container _ fuel
               ltac:(by cbn [layout_forest]; rewrite app_nil_r)
               Hroot2 eq_refl ltac:(lia)), bind_Ret.
    reflexivity. }
  cbn [heap with_host host nodes calls nextUnitOfWork wipRoot currentRoot deletions
       placements_forest removeChild log].
  rewrite Hcalls, app_nil_r, <- !app_assoc. cbn [app].
  split; [done|]. split; [exact Hnodes|]. split; [congruence|].
  split; [exact Hcur|]. split; [done|]. congruence.
Qed.

Lemma rerender_other_type_replaces_the_tree_witness :
  exists st1 st2,
    workLoop 5 4 (render div_a_b 0 (init host0)) = Ret st1
    /\ workLoop 5 4 (render (Element "p" [] []) 0 st1) = Ret st2
    /\ calls (host st2)
       = calls (host st1)
         ++ [CreateElement (VStr "p") 5;
             RemoveChild 0 1; AppendChild 1 2; AppendChild 2 3; AppendChild 1 4;
             AppendChild 0 5]
    /\ length (nodes (host st2)) = 6%nat
    /\ deletions st2 = [1%nat]
    /\ nextUnitOfWork st2 = None /\ wipRoot st2 = None
    /\ currentRoot st2 = Some 5%nat.
Proof.
  exact (rerender_other_type_replaces_the_tree div_a_b (Element "p" [] []) 0 host0 5 4
           ltac:(vm_compute; discriminate) ltac:(vm_compute; lia) ltac:(vm_compute; lia)
           ltac:(vm_compute; lia) ltac:(vm_compute; lia)).
Defined.

End Replace.
(** ** Idle callbacks *)

Section Slices.
Import Host Didact Examples.

Lemma work_units_split fuel m2 : forall m1 st,
  work_units fuel (m1 + S m2) st = work_units fuel m1 st ≫= work_units fuel m2.
Proof.
  induction m1 as [|m1 IH]; intros st.
  - cbn [Nat.add work_units].
    destruct (nextUnitOfWork st) as [a|] eqn:Hn.
    + destruct (performUnitOfWork fuel a st) as [[nx st1]| |]; reflexivity.
    + rewrite bind_Ret. by rewrite work_units_idle.
  - cbn [Nat.add work_units].
    destruct (nextUnitOfWork st) as [a|] eqn:Hn.
    + destruct (performUnitOfWork fuel a st) as [[nx st1]| |]; [|reflexivity..].
      rewrite !bind_Ret. apply IH.
    + rewrite bind_Ret. by rewrite work_units_idle.
Qed.

Lemma commitRoot_idle fuel st st' :
  commitRoot fuel st = Ret st' ->
  nextUnitOfWork st' = nextUnitOfWork st /\ wipRoot st' = None.
Proof.
  unfold commitRoot.
  destruct (commitDeletions fuel (deletions st) st) as [st1| |] eqn:E1; [|discriminate..].
  rewrite bind_Ret. pose proof (commitDeletions_only_host _ _ _ _ E1) as (_ & Hn1 & _).
  destruct (wipRoot st1) as [w|]; [|discriminate].
  destruct (fiber_at st1 w) as [wf| |]; [|discriminate..]. rewrite bind_Ret.
  destruct (commitWork fuel (child wf) st1) as [st2| |] eqn:E2; [|discriminate..].
  rewrite bind_Ret. pose proof (commitWork_only_host _ _ _ _ E2) as (_ & Hn2 & _).
  intros [= <-]. cbn. split; [congruence|done].
Qed.

(** X24.  Time slicing does not change the result: whenever an idle
    callback returns, a second callback that then runs up to [m2 + 1]
    units does what a single callback running all the units at once
    would have done, whether the first one stopped with work left or
    finished and committed. *)
Theorem idle_callbacks_compose fuel m1 m2 st st1 :
  workLoop fuel m1 st = Ret st1 ->
  workLoop fuel m2 st1 = workLoop fuel (m1 + S m2) st.
Proof.
  unfold workLoop at 1 3. rewrite work_units_split.
  destruct (work_units fuel m1 st) as [su| |] eqn:Hu; [|discriminate..].
  rewrite !bind_Ret.
  destruct (nextUnitOfWork su) as [a|] eqn:Hn.
  - intros [= <-]. reflexivity.
  - rewrite (work_units_idle fuel m2 su Hn), bind_Ret, Hn.
    destruct (wipRoot su) as [w|] eqn:Hw.
    + intros Hc. destruct (commitRoot_idle _ _ _ Hc) as [Hn1 Hw1].
      unfold workLoop. rewrite work_units_idle by congruence.
      rewrite bind_Ret, Hw1. rewrite Hn1, Hn. by rewrite Hc.
    + intros [= <-]. unfold workLoop. rewrite (work_units_idle fuel m2 su Hn), bind_Ret.
      by rewrite Hn, Hw.
Qed.

Lemma idle_callbacks_compose_witness :
  exists st1,
    workLoop 5 1 (render div_a_b 0 (init host0)) = Ret st1
    /\ workLoop 5 2 st1 = workLoop 5 4 (render div_a_b 0 (init host0)).
Proof.
  assert (H : exists st1, workLoop 5 1 (render div_a_b 0 (init host0)) = Ret st1).
  { vm_compute. eauto. }
  destruct H as [st1 H]. exists st1. split; [exact H|].
  exact (idle_callbacks_compose 5 1 2 (render div_a_b 0 (init host0)) st1 H).
Defined.

End Slices.
